(** * The data module, its higher-order components and the edit-post wiring

    A shallow embedding of
    - [data/index.js]: the registry of stores, selectors and actions, the
      process-wide listener list, [subscribe], [select], [dispatch] and the
      [withSelect] wrapper;
    - [components/higher-order/if-condition/index.js]: [ifCondition];
    - [edit-post/components/preserve-scroll-in-reorder/index.js]:
      [PreserveScrollInReorder];
    - the edit-post store wiring (registerStore, then the viewport
      subscription that collapses the sidebar).

    JavaScript closures are represented by the data they capture, module
    variables by the fields of a [World] record that every operation threads,
    and exceptions by a [Throw] result that keeps the world reached so far. *)

From Stdlib Require Import ZArith PrimFloat.
From stdpp Require Import gmap strings list.

Open Scope string_scope.
Open Scope list_scope.

(** ** JavaScript values *)

(** Objects are known by their reference only: the data module never looks
    inside a state or a selector result, it compares them with [!==]. *)
Inductive val :=
| VUndefined
| VNull
| VBool (b : bool)
| VNum (n : Z)
| VNaN
| VStr (s : string)
| VRef (l : nat).

#[global] Instance val_eq_dec : EqDecision val.
Proof. solve_decision. Defined.

(** [a === b]: same primitive or same reference; NaN equals nothing. *)
Definition strict_eq (a b : val) : bool :=
  match a with
  | VNaN => false
  | _ => bool_decide (a = b)
  end.

(** [a !== b] *)
Definition strict_neq (a b : val) : bool := negb (strict_eq a b).

(** Truthiness of a string: only the empty string is falsy. *)
Definition truthy_str (s : string) : bool := negb (bool_decide (s = "")).

(** ToBoolean *)
Definition truthy (v : val) : bool :=
  match v with
  | VUndefined | VNull | VNaN => false
  | VBool b => b
  | VNum n => negb (n =? 0)%Z
  | VStr s => truthy_str s
  | VRef _ => true
  end.

(** Truthiness of an optional string argument ([null], [undefined] or a
    string). *)
Definition truthy_opt (o : option string) : bool :=
  match o with
  | Some s => truthy_str s
  | None => false
  end.

(** ** The store library (Redux)

    [createStore], [getState], [dispatch] and [subscribe] of the store
    library the data module is built on.  An action is a plain object with a
    [type]; that is what the library's [dispatch] accepts. *)

Record action := { a_type : string; a_payload : list val }.

#[global] Instance action_eq_dec : EqDecision action.
Proof. solve_decision. Defined.

(** The action the library dispatches once when a store is created. *)
Definition INIT : action := {| a_type := "@@redux/INIT"; a_payload := [] |}.

(** The only function the data module ever subscribes to a store. *)
Inductive ReduxListener := GlobalListener.

Record Store := {
  currentReducer : val → action → val;
  currentState : val;
  currentListeners : list ReduxListener;
}.

(** ** Closures of the data module *)

(** A selector argument of [subscribe]: a selector name, or an array of a
    selector name followed by the arguments to pass. *)
Inductive Selector :=
| SelName (name : string)
| SelArray (entries : list string).

#[global] Instance Selector_eq_dec : EqDecision Selector.
Proof. solve_decision. Defined.

(** [createStateSelector( selector )]: the raw selector and the captured
    [store = stores[ reducerKey ]], which is [undefined] ([None]) when no
    store was registered under the key. *)
Record BoundSelector := {
  sel_store : option nat;
  sel_raw : val → list val → val;
}.

(** [createBoundAction( action )]: the raw action creator and the captured
    [store]. *)
Record BoundAction := {
  act_store : option nat;
  act_creator : list val → action;
}.

(** What the listener list holds.  A callback supplied by a caller is known
    by its identity [cb]; a wrapper made by [subscribe] is known by the
    variables it closes over, its private cell ([lastState] or [lastResult])
    being allocated when it is made, so that two wrappers are never the same
    function. *)
Inductive Listener :=
| Callback (cb : nat)
| WhenState (lastState : nat) (store : nat) (ifTrueFn : Listener)
| WhenResult (lastResult : nat) (reducerKey selectorName : string)
    (selectorArgs : list val) (ifTrueFn : Listener).

#[global] Instance Listener_eq_dec : EqDecision Listener.
Proof. solve_decision. Defined.

(** ** Module state of [data/index.js] *)

Record World := {
  heap : list Store;                          (* the store objects made so far *)
  stores : gmap string nat;                   (* const stores = {} *)
  selectors : gmap string (gmap string BoundSelector); (* const selectors = {} *)
  actions : gmap string (gmap string BoundAction);     (* const actions = {} *)
  listeners : list Listener;                  (* let listeners = [] *)
  cells : list val;                           (* closure variables of the wrappers *)
  calls : list (nat * list val);              (* every call of a caller's callback, oldest first *)
}.

Definition empty_world : World :=
  {| heap := []; stores := ∅; selectors := ∅; actions := ∅;
     listeners := []; cells := []; calls := [] |}.

Definition set_heap (h : list Store) (w : World) : World :=
  {| heap := h; stores := stores w; selectors := selectors w;
     actions := actions w; listeners := listeners w; cells := cells w;
     calls := calls w |}.

Definition set_stores (m : gmap string nat) (w : World) : World :=
  {| heap := heap w; stores := m; selectors := selectors w;
     actions := actions w; listeners := listeners w; cells := cells w;
     calls := calls w |}.

Definition set_selectors (m : gmap string (gmap string BoundSelector))
    (w : World) : World :=
  {| heap := heap w; stores := stores w; selectors := m;
     actions := actions w; listeners := listeners w; cells := cells w;
     calls := calls w |}.

Definition set_actions (m : gmap string (gmap string BoundAction))
    (w : World) : World :=
  {| heap := heap w; stores := stores w; selectors := selectors w;
     actions := m; listeners := listeners w; cells := cells w;
     calls := calls w |}.

Definition set_listeners (l : list Listener) (w : World) : World :=
  {| heap := heap w; stores := stores w; selectors := selectors w;
     actions := actions w; listeners := l; cells := cells w;
     calls := calls w |}.

Definition set_cells (c : list val) (w : World) : World :=
  {| heap := heap w; stores := stores w; selectors := selectors w;
     actions := actions w; listeners := listeners w; cells := c;
     calls := calls w |}.

Definition set_calls (c : list (nat * list val)) (w : World) : World :=
  {| heap := heap w; stores := stores w; selectors := selectors w;
     actions := actions w; listeners := listeners w; cells := cells w;
     calls := c |}.

(** ** Computations: state, exceptions, and a bound on re-entrancy *)

Inductive error := TypeError (msg : string).

Inductive Res (A : Type) :=
| Ok (a : A) (w : World)
| Throw (e : error) (w : World)
| OutOfFuel.

Arguments Ok {A} a w.
Arguments Throw {A} e w.
Arguments OutOfFuel {A}.

Definition M (A : Type) : Type := World → Res A.

Definition ret {A} (a : A) : M A := fun w => Ok a w.

Definition bind {A B} (m : M A) (k : A → M B) : M B :=
  fun w =>
    match m w with
    | Ok a w' => k a w'
    | Throw e w' => Throw e w'
    | OutOfFuel => OutOfFuel
    end.

Definition throw {A} (e : error) : M A := fun w => Throw e w.

Notation "'let*' x ':=' c 'in' k" := (bind c (fun x => k))
  (at level 10, x name, c at level 100, k at level 200).

Definition gets {A} (f : World → A) : M A := fun w => Ok (f w) w.
Definition modify (f : World → World) : M unit := fun w => Ok tt (f w).

(** [xs.forEach( f )] over the elements the array holds when the loop
    starts. *)
Fixpoint forEach {A} (f : A → M unit) (xs : list A) : M unit :=
  match xs with
  | [] => ret tt
  | x :: rest => let* _ := f x in forEach f rest
  end.

(** What a caller's callback does besides being called: the calls it makes
    back into the data module. *)
Inductive cmd :=
| CallAction (reducerKey actionName : string) (args : list val)
| StoreDispatch (store : nat) (a : action)
| Subscribe (reducerKey : option string) (selector : option Selector) (cb : nat)
| Unsubscribe (l : Listener).

(** ** The store library's operations *)

Module Redux.

(** [createStore( reducer )]: the state starts as the reducer's answer to
    the INIT action; nobody listens yet. *)
Definition createStore (reducer : val → action → val) : M nat :=
  fun w =>
    Ok (length (heap w))
       (set_heap (heap w ++ [ {| currentReducer := reducer;
                                 currentState := reducer VUndefined INIT;
                                 currentListeners := [] |} ]) w).

Definition getState (store : nat) : M val :=
  fun w =>
    match heap w !! store with
    | Some s => Ok (currentState s) w
    | None => Throw (TypeError "not a store") w
    end.

Definition subscribe (store : nat) (listener : ReduxListener) : M unit :=
  fun w =>
    match heap w !! store with
    | Some s =>
        Ok tt (set_heap (<[store := {| currentReducer := currentReducer s;
                                       currentState := currentState s;
                                       currentListeners :=
                                         currentListeners s ++ [listener] |}]>
                           (heap w)) w)
    | None => Throw (TypeError "not a store") w
    end.

(** [store.dispatch( action )]: reduce, then call every listener subscribed
    when the dispatch started; returns the action. *)
Definition dispatch (call : ReduxListener → M unit) (store : nat)
    (a : action) : M action :=
  fun w =>
    match heap w !! store with
    | Some s =>
        let s' := {| currentReducer := currentReducer s;
                     currentState := currentReducer s (currentState s) a;
                     currentListeners := currentListeners s |} in
        (let* _ := forEach call (currentListeners s') in ret a)
          (set_heap (<[store := s']> (heap w)) w)
    | None => Throw (TypeError "not a store") w
    end.

End Redux.

(** ** [data/index.js] *)

Module Data.

(** [without( array, value )] *)
Definition without (ls : list Listener) (l : Listener) : list Listener :=
  filter (λ x, x ≠ l) ls.

Definition read_cell (c : nat) : M val :=
  gets (fun w => default VUndefined (cells w !! c)).

Definition write_cell (c : nat) (v : val) : M unit :=
  modify (fun w => set_cells (<[c := v]> (cells w)) w).

(** [let x = v] in a closure being made. *)
Definition new_cell (v : val) : M nat :=
  fun w => Ok (length (cells w)) (set_cells (cells w ++ [v]) w).

(** [const when = ( predicate ) => ( ifTrueFn ) => ( ...args ) => ...] *)
Definition when (predicate : M bool) (ifTrueFn : list val → M unit)
    : list val → M unit :=
  fun args =>
    let* isTrue := predicate in
    if isTrue then ifTrueFn args else ret tt.

(** [const whenWith = ( predicate ) => ( ifTrueFn ) => () => ...] *)
Definition whenWith (predicate : M (bool * val))
    (ifTrueFn : list val → M unit) : list val → M unit :=
  fun _ =>
    let* p := predicate in
    let '(isTrue, result) := p in
    if isTrue then ifTrueFn [result] else ret tt.

(** [store.getState()] through a captured [store]. *)
Definition getStateOf (store : option nat) : M val :=
  match store with
  | Some s => Redux.getState s
  | None => throw (TypeError "Cannot read property 'getState' of undefined")
  end.

(** [obj[ name ]( ...args )] for [obj = selectors[ reducerKey ]]: the bound
    selector, [( ...args ) => selector( store.getState(), ...args )]. *)
Definition call_selector (obj : option (gmap string BoundSelector))
    (name : string) (args : list val) : M val :=
  match obj with
  | None => throw (TypeError "Cannot read property of undefined")
  | Some o =>
      match o !! name with
      | None => throw (TypeError "is not a function")
      | Some b =>
          let* state := getStateOf (sel_store b) in
          ret (sel_raw b state args)
      end
  end.

(** [export function select( reducerKey )], called with one argument. *)
Definition select (reducerKey : string)
    : M (option (gmap string BoundSelector)) :=
  gets (fun w => selectors w !! reducerKey).

(** [select( reducerKey, selectorKey, ...args )], the deprecated call with
    several arguments (the deprecation notice changes nothing here). *)
Definition select_deprecated (reducerKey selectorKey : string)
    (args : list val) : M val :=
  let* obj := select reducerKey in
  call_selector obj selectorKey args.

(** [export function dispatch( reducerKey )] *)
Definition dispatch (reducerKey : string)
    : M (option (gmap string BoundAction)) :=
  gets (fun w => actions w !! reducerKey).

(** The predicate [subscribe] hands to [when]: *)
Definition stateChanged (lastState : nat) (store : nat) : M bool :=
  let* state := Redux.getState store in
  let* last := read_cell lastState in
  let isOk := strict_neq state last in
  let* _ := write_cell lastState state in
  ret isOk.

(** [const getResult = () => selectors[ reducerKey ][ selectorName ]( ...selectorArgs )] *)
Definition getResult (reducerKey selectorName : string)
    (selectorArgs : list val) : M val :=
  let* obj := gets (fun w => selectors w !! reducerKey) in
  call_selector obj selectorName selectorArgs.

(** The predicate [subscribe] hands to [whenWith]: *)
Definition resultChanged (lastResult : nat) (reducerKey selectorName : string)
    (selectorArgs : list val) : M (bool * val) :=
  let* result := getResult reducerKey selectorName selectorArgs in
  let* last := read_cell lastResult in
  let isOk := strict_neq result last in
  let* _ := write_cell lastResult result in
  ret (isOk, result).

Definition truthy_selector (selector : option Selector) : bool :=
  match selector with
  | None => false
  | Some (SelName name) => truthy_str name
  | Some (SelArray _) => true
  end.

(** [const [ selectorName, ...selectorArgs ] = castArray( selector )]; a
    missing first entry is [undefined], which as a property name reads
    ["undefined"]. *)
Definition selector_parts (selector : option Selector)
    : string * list val :=
  match selector with
  | Some (SelName name) => (name, [])
  | Some (SelArray (name :: args)) => (name, VStr <$> args)
  | Some (SelArray []) | None => ("undefined", [])
  end.

(** [export const subscribe = ( ...args ) => ...], its arguments already
    normalized to [reducerKey, selector, listener] ([None] for [null]).
    The answer stands for the [unsubscribe] closure: the listener it closes
    over. *)
Definition subscribe (reducerKey : option string)
    (selector : option Selector) (cb : nat) : M Listener :=
  let listener := Callback cb in
  let* listener :=
    match reducerKey with
    | Some key =>
        if truthy_str key then
          let* store := gets (fun w => stores w !! key) in
          match store with
          | None =>
              throw (TypeError "Cannot read property 'getState' of undefined")
          | Some store =>
              let* lastState := Redux.getState store in
              let* lastState := new_cell lastState in
              let listener := WhenState lastState store listener in
              if truthy_selector selector then
                let '(selectorName, selectorArgs) := selector_parts selector in
                let* lastResult := getResult key selectorName selectorArgs in
                let* lastResult := new_cell lastResult in
                ret (WhenResult lastResult key selectorName selectorArgs
                       listener)
              else ret listener
          end
        else ret listener
    | None => ret listener
    end in
  let* _ := modify (fun w => set_listeners (listeners w ++ [listener]) w) in
  ret listener.

(** [const unsubscribe = () => { listeners = without( listeners, listener ); }] *)
Definition unsubscribe (listener : Listener) : M unit :=
  modify (fun w => set_listeners (without (listeners w) listener) w).

(** [export function registerReducer( reducerKey, reducer )], with no
    devtools extension in the window (the enhancer list is empty). *)
Definition registerReducer (reducerKey : string)
    (reducer : val → action → val) : M nat :=
  let* store := Redux.createStore reducer in
  let* _ := modify (fun w => set_stores (<[reducerKey := store]> (stores w)) w) in
  let* _ := Redux.subscribe store GlobalListener in
  ret store.

(** [export function registerSelectors( reducerKey, newSelectors )] *)
Definition registerSelectors (reducerKey : string)
    (newSelectors : gmap string (val → list val → val)) : M unit :=
  let* store := gets (fun w => stores w !! reducerKey) in
  let createStateSelector selector :=
    {| sel_store := store; sel_raw := selector |} in
  modify (fun w =>
    set_selectors (<[reducerKey := createStateSelector <$> newSelectors]>
                     (selectors w)) w).

(** [export function registerActions( reducerKey, newActions )] *)
Definition registerActions (reducerKey : string)
    (newActions : gmap string (list val → action)) : M unit :=
  let* store := gets (fun w => stores w !! reducerKey) in
  let createBoundAction action :=
    {| act_store := store; act_creator := action |} in
  modify (fun w =>
    set_actions (<[reducerKey := createBoundAction <$> newActions]>
                   (actions w)) w).

(** The [options] object of [registerStore]; an absent property is [None]. *)
Record Options := {
  reducer : option (val → action → val);
  opt_actions : option (gmap string (list val → action));
  opt_selectors : option (gmap string (val → list val → val));
}.

(** [export function registerStore( reducerKey, options )] *)
Definition registerStore (reducerKey : string) (options : Options) : M nat :=
  match reducer options with
  | None => throw (TypeError "Must specify store reducer")
  | Some r =>
      let* store := registerReducer reducerKey r in
      let* _ :=
        match opt_actions options with
        | Some a => registerActions reducerKey a
        | None => ret tt
        end in
      let* _ :=
        match opt_selectors options with
        | Some s => registerSelectors reducerKey s
        | None => ret tt
        end in
      ret store
  end.

Section Notification.

(** What each caller's callback does when called with given arguments. *)
Variable handlers : nat → list val → list cmd.

(** One round of notification as seen from inside a store's dispatch:
    [globalListener] itself, one level further down. *)
Variable notify : M unit.

Definition call_listener (rl : ReduxListener) : M unit :=
  match rl with
  | GlobalListener => notify
  end.

(** [store.dispatch( a )] on a captured [store]. *)
Definition dispatchTo (store : option nat) (a : action) : M action :=
  match store with
  | Some s => Redux.dispatch call_listener s a
  | None => throw (TypeError "Cannot read property 'dispatch' of undefined")
  end.

(** [obj[ name ]( ...args )] for [obj = actions[ reducerKey ]]: the bound
    action, [( ...args ) => store.dispatch( action( ...args ) )]. *)
Definition call_action (obj : option (gmap string BoundAction))
    (name : string) (args : list val) : M action :=
  match obj with
  | None => throw (TypeError "Cannot read property of undefined")
  | Some o =>
      match o !! name with
      | None => throw (TypeError "is not a function")
      | Some b => dispatchTo (act_store b) (act_creator b args)
      end
  end.

Definition exec (c : cmd) : M unit :=
  match c with
  | CallAction reducerKey actionName args =>
      let* obj := dispatch reducerKey in
      let* _ := call_action obj actionName args in
      ret tt
  | StoreDispatch store a =>
      let* _ := Redux.dispatch call_listener store a in
      ret tt
  | Subscribe reducerKey selector cb =>
      let* _ := subscribe reducerKey selector cb in
      ret tt
  | Unsubscribe l => unsubscribe l
  end.

(** Calling a caller's callback: the call is recorded, then the callback
    runs. *)
Definition call_callback (cb : nat) (args : list val) : M unit :=
  let* _ := modify (fun w => set_calls (calls w ++ [(cb, args)]) w) in
  forEach exec (handlers cb args).

(** Calling an entry of the listener list. *)
Fixpoint invoke (l : Listener) (args : list val) : M unit :=
  match l with
  | Callback cb => call_callback cb args
  | WhenState lastState store ifTrueFn =>
      when (stateChanged lastState store) (invoke ifTrueFn) args
  | WhenResult lastResult reducerKey selectorName selectorArgs ifTrueFn =>
      whenWith (resultChanged lastResult reducerKey selectorName selectorArgs)
        (invoke ifTrueFn) args
  end.

(** [listeners.forEach( listener => listener() )] *)
Definition globalListener_body : M unit :=
  let* ls := gets listeners in
  forEach (fun listener => invoke listener []) ls.

End Notification.

(** [export function globalListener()].  A listener may dispatch, which
    calls [globalListener] again; [fuel] bounds that nesting. *)
Fixpoint globalListener (handlers : nat → list val → list cmd)
    (fuel : nat) : M unit :=
  match fuel with
  | O => fun _ => OutOfFuel
  | S fuel' => globalListener_body handlers (globalListener handlers fuel')
  end.

End Data.

(** ** ['is-equal-shallow'], the library [withSelect] compares with

    The package is a dependency, not a file of the repository.  Its one
    function, with ['is-primitive'] that it calls:
<<
    function isPrimitive( value ) {
      return value == null
        || ( typeof value !== 'function' && typeof value !== 'object' );
    }
    function isEqual( a, b ) {
      if ( ! a && ! b ) { return true; }
      if ( ! a && b || a && ! b ) { return false; }
      var numKeysA = 0, numKeysB = 0, key;
      for ( key in b ) {
        numKeysB++;
        if ( ! isPrimitive( b[ key ] ) || ! a.hasOwnProperty( key )
             || ( a[ key ] !== b[ key ] ) ) {
          return false;
        }
      }
      for ( key in a ) { numKeysA++; }
      return numKeysA === numKeysB;
    }
>>
*)

Module IsEqualShallow.



End IsEqualShallow.

(** ** [withSelect] of [data/index.js] *)

Module WithSelect.

Definition Props := gmap string val.

(** An instance of [ComponentWithSelect].  [updates] counts the calls of
    [setState], each of which makes the component render again. *)
Record Component := {
  props : Props;
  state : Props;
  updates : nat;
}.

(** [this.setState( newState )]: the new entries are merged over the state
    held. *)
Definition setState (newState : Props) (c : Component) : Component :=
  {| props := props c; state := newState ∪ state c; updates := S (updates c) |}.

Section Wrapper.

(** ['is-equal-shallow'], the library function. *)
Variable isEqualShallow : Props → Props → bool.

(** [mapStateToProps( select, props )]: what it computes from the
    registry and the stores it reads through [select]. *)
Variable mapStateToProps : World → Props → Props.

(** [constructor()] *)
Definition construct (p : Props) : Component :=
  {| props := p; state := ∅; updates := 0 |}.

(** [runSelection( props = this.props )]; [None] is a call without the
    argument. *)
Definition runSelection (w : World) (arg : option Props) (c : Component)
    : Component :=
  let props := default (props c) arg in
  let newState := mapStateToProps w props in
  if negb (isEqualShallow newState (state c)) then setState newState c
  else c.

(** [componentWillReceiveProps( nextProps )] *)
Definition componentWillReceiveProps (w : World) (nextProps : Props)
    (c : Component) : Component :=
  if negb (isEqualShallow nextProps (props c)) then
    runSelection w (Some nextProps) c
  else c.

(** The component receives [nextProps]: the hook runs, then the new props
    are the component's props. *)
Definition receiveProps (w : World) (nextProps : Props) (c : Component)
    : Component :=
  let c' := componentWillReceiveProps w nextProps c in
  {| props := nextProps; state := state c'; updates := updates c' |}.

(** A store update reaches the component through the listener it
    subscribed, [this.runSelection], which the listener list calls
    without arguments. *)
Definition storeUpdate (w : World) (c : Component) : Component :=
  runSelection w None c.

(** [render()]: [<WrappedComponent { ...this.props } { ...this.state } />] *)
Definition render (c : Component) : Props := state c ∪ props c.

End Wrapper.

(** [subscribe()]: [this.unsubscribe = subscribe( this.runSelection )],
    [runSelection] being the callback [cb] of the listener list. *)
Definition subscribe (cb : nat) : M Listener := Data.subscribe None None cb.

(** [componentWillMount()]: subscribe, then populate the initial state.
    The answer carries [this.unsubscribe] and the component. *)
Definition componentWillMount (isEqualShallow : Props → Props → bool)
    (mapStateToProps : World → Props → Props) (cb : nat) (c : Component)
    : M (Listener * Component) :=
  let* unsubscribe := subscribe cb in
  let* w := gets (fun w => w) in
  ret (unsubscribe, runSelection isEqualShallow mapStateToProps w None c).

(** [componentWillUnmount()]: [this.unsubscribe()] *)
Definition componentWillUnmount (unsubscribe : Listener) : M unit :=
  Data.unsubscribe unsubscribe.

(** What a mapper is called with in second place: the props of the
    component, or the [select] function itself. *)
Inductive MapperArg :=
  | OwnProps (p : Props)
  | SelectFunction.

(** [export const query = ( mapSelectToProps ) => withSelect( ( props ) =>
    mapSelectToProps( select, props ) )].  [withSelect] calls the function it
    is given with [select] and the props; the function [query] gives it has
    one parameter, named [props], which therefore holds [select], and the
    props are dropped. *)
Definition query (mapSelectToProps : World → MapperArg → Props)
    : World → Props → Props :=
  fun select _ => mapSelectToProps select SelectFunction.

End WithSelect.

(** ** [withDispatch] of [data/index.js] *)

Module WithDispatch.

Definition Props := gmap string val.

(** A function made by [this.proxyDispatch.bind( this, propName )].  Every
    call of [bind] makes a new function: it is told from the others by the
    call of [setProxyProps] that made it and the name it is bound to, one
    call making at most one function per name. *)
Record Proxy := {
  born : nat;
  bound : string;
}.

(** An instance of [ComponentWithDispatch]; [round] counts the calls of
    [setProxyProps]. *)
Record Component := {
  props : Props;
  proxyProps : gmap string Proxy;
  round : nat;
}.

Section Wrapper.

(** [mapDispatchToProps( dispatch, props )]: the dispatchers by prop name,
    each a function of its arguments that acts on the world it is called
    in.  The objects it returns are taken to have no property that hides one
    of [Object.prototype] (see [inherited]), [hasOwnProperty] above all. *)
Variable mapDispatchToProps : World → Props → gmap string (list val → M unit).

(** [constructor()] *)
Definition construct (p : Props) : Component :=
  {| props := p; proxyProps := ∅; round := 0 |}.

(** [setProxyProps( props )] *)
Definition setProxyProps (w : World) (p : Props) (c : Component) : Component :=
  let propsToDispatchers := mapDispatchToProps w p in
  {| props := props c;
     proxyProps :=
       map_imap (λ propName _,
                   Some (match proxyProps c !! propName with
                         | Some f => f
                         | None => {| born := round c; bound := propName |}
                         end)) propsToDispatchers;
     round := S (round c) |}.

(** [componentWillMount()] *)
Definition componentWillMount (w : World) (c : Component) : Component :=
  setProxyProps w (props c) c.

(** [componentWillUpdate( nextProps )] *)
Definition componentWillUpdate (w : World) (nextProps : Props) (c : Component)
    : Component :=
  setProxyProps w nextProps c.

(** The component is given [nextProps]: the hook runs, then the new props
    are the component's props. *)
Definition update (w : World) (nextProps : Props) (c : Component)
    : Component :=
  let c' := componentWillUpdate w nextProps c in
  {| props := nextProps; proxyProps := proxyProps c'; round := round c' |}.

(** [proxyDispatch( propName, ...args )] *)
Definition proxyDispatch (c : Component) (propName : string) (args : list val)
    : M unit :=
  let* w := gets (fun w => w) in
  match mapDispatchToProps w (props c) !! propName with
  | Some dispatcher => dispatcher args
  | None => throw (TypeError "is not a function")
  end.

(** Calling a function made by [this.proxyDispatch.bind( this, propName )],
    [c] being the instance as it is at the call. *)
Definition call_proxy (c : Component) (f : Proxy) (args : list val) : M unit :=
  proxyDispatch c (bound f) args.

(** [render()]: [<WrappedComponent { ...this.props } { ...this.proxyProps } />] *)
Definition render (c : Component) : gmap string (Proxy + val) :=
  (inl <$> proxyProps c) ∪ (inr <$> props c).

End Wrapper.

End WithDispatch.

(** ** [components/higher-order/if-condition/index.js] *)

Module IfCondition.

Definition Props := gmap string val.

(** What [EnhancedComponent] returns: [null], or the wrapped component with
    props. *)
Inductive Element :=
| Null
| Wrapped (props : Props).

(** [const ifCondition = ( predicate, propName ) => ( WrappedComponent ) => ...];
    [propName] is [None] when the argument is left out. *)
Definition ifCondition (predicate : Props → val) (propName : option string)
    (props : Props) : Element :=
  let isOk := predicate props in
  if negb (truthy_opt propName) && negb (truthy isOk) then Null
  else
    let props :=
      match propName with
      | Some name => if truthy_str name then <[name := isOk]> props else props
      | None => props
      end in
    Wrapped props.

End IfCondition.

(** ** [PreserveScrollInReorder] *)

Module PreserveScroll.

(** What the component reads and writes in the document.  Offsets and
    scroll positions are JavaScript numbers, that is IEEE 754 doubles
    ([float]), fractions of a pixel included. *)
Record Dom := {
  (* dom.getBlockDOMNode( uid ), and for a node its getBoundingClientRect().top *)
  blockTop : option string → option float;
  (* whether dom.getScrollContainer( this.node ) finds a container *)
  hasScrollContainer : bool;
  (* scrollContainer.scrollTop: as read, and as assigned by the component *)
  scrollTop : float;
}.

Definition set_scrollTop (z : float) (d : Dom) : Dom :=
  {| blockTop := blockTop d; hasScrollContainer := hasScrollContainer d;
     scrollTop := z |}.

Record Props := {
  blockOrder : val;
  selectionStart : option string;
}.

(** The instance: its props and the [previousOffset] property, [None] while
    the property does not exist. *)
Record Instance := {
  props : Props;
  previousOffset : option float;
}.

(** [if ( this.previousOffset )]: a number is falsy when it is 0, -0 or
    NaN, and so is the property that does not exist. *)
Definition truthy_offset (o : option float) : bool :=
  match o with
  | Some z => negb (PrimFloat.is_zero z || PrimFloat.is_nan z)
  | None => false
  end.

(** [setPreviousOffset( selectionStart )] *)
Definition setPreviousOffset (d : Dom) (selectionStart : option string)
    (i : Instance) : Instance :=
  match blockTop d selectionStart with
  | None => i
  | Some top => {| props := props i; previousOffset := Some top |}
  end.

(** [componentWillUpdate( nextProps )] *)
Definition componentWillUpdate (d : Dom) (nextProps : Props) (i : Instance)
    : Instance :=
  if strict_neq (blockOrder nextProps) (blockOrder (props i))
     && truthy_opt (selectionStart nextProps)
  then setPreviousOffset d (selectionStart nextProps) i
  else i.

(** [restorePreviousOffset()].  Its one caller, [componentDidUpdate],
    calls it only with a [previousOffset] in place; without one the sum
    would not be a number, and the document is left as it is here. *)
Definition restorePreviousOffset (d : Dom) (i : Instance) : Dom * Instance :=
  let d' :=
    match blockTop d (selectionStart (props i)), previousOffset i with
    | Some top, Some previous =>
        if hasScrollContainer d then
          set_scrollTop (PrimFloat.sub (PrimFloat.add (scrollTop d) top)
                           previous) d
        else d
    | _, _ => d
    end in
  (d', {| props := props i; previousOffset := None |}).

(** [componentDidUpdate()] *)
Definition componentDidUpdate (d : Dom) (i : Instance) : Dom * Instance :=
  if truthy_offset (previousOffset i) then restorePreviousOffset d i
  else (d, i).

(** One update of the component: [componentWillUpdate] sees the document
    before the change, then the new props are in place and the document is
    [after] (its [scrollTop] still the one before), then
    [componentDidUpdate] runs. *)
Definition update (before after : Dom) (nextProps : Props) (i : Instance)
    : Dom * Instance :=
  let i1 := componentWillUpdate before nextProps i in
  let i2 := {| props := nextProps; previousOffset := previousOffset i1 |} in
  componentDidUpdate (set_scrollTop (scrollTop before) after) i2.

End PreserveScroll.

(** ** The edit-post store wiring *)

Module EditPost.

(** The callback given to [subscribe]:
    [( isSmall ) => { if ( isSmall ) { dispatch( 'core/edit-post' ).closeGeneralSidebar(); } }] *)
Definition collapseSidebar (args : list val) : list cmd :=
  let isSmall := hd VUndefined args in
  if truthy isSmall then
    [CallAction "core/edit-post" "closeGeneralSidebar" []]
  else [].

(** [subscribe( 'core/viewport', [ 'isViewportMatch', '< medium' ], ... )] *)
Definition subscribeViewport (cb : nat) : M Listener :=
  Data.subscribe (Some "core/viewport")
    (Some (SelArray ["isViewportMatch"; "< medium"])) cb.

Section Wiring.

Variable handlers : nat → list val → list cmd.

(** [withRehydratation( reducer, 'preferences', STORAGE_KEY )], and the
    modules [./actions] and [./selectors]. *)
Variable reducer : val → action → val.
Variable actions : gmap string (list val → action).
Variable selectors : gmap string (val → list val → val).

(** Modelled from the spec: [loadAndPersist] is not among the sources;
    it "attaches load/persist-on-change behavior backed by browser local
    storage".  Loading dispatches to the store the action that carries
    what local storage held, if it held anything; persisting writes to
    local storage only, which is no part of the world here. *)
Definition loadAndPersist (fuel : nat) (store : nat)
    (persisted : option action) : M unit :=
  match persisted with
  | Some a =>
      let* _ := Redux.dispatch
                  (Data.call_listener (Data.globalListener handlers fuel))
                  store a in
      ret tt
  | None => ret tt
  end.

(** The module body, top to bottom. *)
Definition wiring (fuel : nat) (persisted : option action) (cb : nat)
    : M (nat * Listener) :=
  let* store :=
    Data.registerStore "core/edit-post"
      {| Data.reducer := Some reducer;
         Data.opt_actions := Some actions;
         Data.opt_selectors := Some selectors |} in
  let* _ := loadAndPersist fuel store persisted in
  let* l := subscribeViewport cb in
  ret (store, l).

End Wiring.

End EditPost.

(** * Vocabulary of the properties *)

(** The value a computation returns, when it returns one. *)
Definition returned {A} (r : Res A) : option A :=
  match r with
  | Ok a _ => Some a
  | _ => None
  end.

(** The world a computation stops in, by return or by exception. *)
Definition final {A} (r : Res A) : option World :=
  match r with
  | Ok _ w | Throw _ w => Some w
  | OutOfFuel => None
  end.

(** The reduce step of [store.dispatch]: the state of [store] becomes its
    reducer's answer, nothing else changes. *)
Definition reduced (store : nat) (st : Store) (a : action) (w : World) : World :=
  set_heap (<[store := {| currentReducer := currentReducer st;
                          currentState := currentReducer st (currentState st) a;
                          currentListeners := currentListeners st |}]> (heap w)) w.

(** The bound selector registered in [w] under [reducerKey] and [name] is the
    raw selector [raw] reading the state of [store]. *)
Definition registered_selector (w : World) (reducerKey name : string)
    (store : nat) (raw : val → list val → val) : Prop :=
  ∃ obj, selectors w !! reducerKey = Some obj
         ∧ obj !! name = Some {| sel_store := Some store; sel_raw := raw |}.

(** What the two cells of a selector subscription hold between
    notifications, [prev] being the state of the store at the last one:
    [lastResult] is the selector's result on [prev]; [lastState] is [prev],
    or an earlier state since which the result has stayed the same. *)
Definition Observed (lastState lastResult : nat)
    (raw : val → list val → val) (args : list val) (prev : val)
    (w : World) : Prop :=
  cells w !! lastResult = Some (raw prev args)
  ∧ ∃ seen, cells w !! lastState = Some seen
            ∧ (seen = prev
               ∨ strict_eq (raw seen args) (raw prev args) = true).

(** The caller's callback an entry of the listener list ends up calling. *)
Fixpoint callback_of (l : Listener) : nat :=
  match l with
  | Callback cb => cb
  | WhenState _ _ ifTrueFn => callback_of ifTrueFn
  | WhenResult _ _ _ _ ifTrueFn => callback_of ifTrueFn
  end.

(** The recorded calls of callback [cb]. *)
Definition calls_of (cb : nat) (w : World) : list (nat * list val) :=
  filter (λ e, e.1 = cb) (calls w).

(** A command that does not subscribe callback [cb]. *)
Definition avoids (cb : nat) (c : cmd) : Prop :=
  match c with
  | Subscribe _ _ cb' => cb' ≠ cb
  | _ => True
  end.

(** No entry of the listener list calls [cb]. *)
Definition unheard (cb : nat) (w : World) : Prop :=
  Forall (λ l, callback_of l ≠ cb) (listeners w).

(** From a world where [I] holds, [m] stops only in worlds where it holds,
    and what [m] returns satisfies [Q]. *)
Definition keeps (I : World → Prop) {A} (m : M A) (Q : A → Prop) : Prop :=
  ∀ w, I w →
    match m w with
    | Ok a w' => Q a ∧ I w'
    | Throw _ w' => I w'
    | OutOfFuel => True
    end.

(** A command that subscribes allowed callbacks only. *)
Definition permitted (allowed : nat → Prop) (c : cmd) : Prop :=
  match c with
  | Subscribe _ _ cb => allowed cb
  | _ => True
  end.

(** The registry as [w0] has it: same maps, same store objects (whatever
    their states). *)
Definition same_registry (w0 w : World) : Prop :=
  stores w = stores w0 ∧ selectors w = selectors w0
  ∧ actions w = actions w0 ∧ length (heap w) = length (heap w0).

(** The cells the wrappers of a listener own. *)
Fixpoint cells_of (l : Listener) : list nat :=
  match l with
  | Callback _ => []
  | WhenState c _ ifTrueFn => c :: cells_of ifTrueFn
  | WhenResult c _ _ _ ifTrueFn => c :: cells_of ifTrueFn
  end.

(** The cells owned by the wrappers in the listener list exist. *)
Definition well_formed (w : World) : Prop :=
  Forall (λ x, Forall (λ c, c < length (cells w)) (cells_of x)) (listeners w).

(** Every store object has [globalListener] for its one listener, as
    [registerReducer] leaves it. *)
Definition all_registered (h : list Store) : Prop :=
  Forall (λ st, currentListeners st = [GlobalListener]) h.

(** The store objects after [store] has reduced [a]. *)
Definition reduce (store : nat) (a : action) (h : list Store) : list Store :=
  match h !! store with
  | Some st =>
      <[store := {| currentReducer := currentReducer st;
                    currentState := currentReducer st (currentState st) a;
                    currentListeners := currentListeners st |}]> h
  | None => h
  end.

Definition state_in (store : nat) (h : list Store) : val :=
  from_option currentState VUndefined (h !! store).

(** What a subscription reports at a notification, from the state at the
    previous one and the state now: the arguments of the call, or [None] for
    no call.  By reducer key: *)
Definition report_state (prev now : val) : option (list val) :=
  if strict_neq now prev then Some [] else None.

(** By selector: *)
Definition report_result (raw : val → list val → val) (sargs : list val)
    (prev now : val) : option (list val) :=
  if strict_neq now prev && strict_neq (raw now sargs) (raw prev sargs)
  then Some [raw now sargs] else None.

(** The calls of [cb] to expect over the dispatches [ds], one notification
    after each, for a subscription watching [store] that reports by
    [report]. *)
Fixpoint expected_calls (cb : nat) (report : val → val → option (list val))
    (store : nat) (h : list Store) (prev : val) (ds : list (nat * action))
    : list (nat * list val) :=
  match ds with
  | [] => []
  | (s, a) :: rest =>
      let h' := reduce s a h in
      let now := state_in store h' in
      match report prev now with
      | Some args => [(cb, args)]
      | None => []
      end ++ expected_calls cb report store h' now rest
  end.

(** Top-level dispatches, one after the other. *)
Definition dispatch_all (handlers : nat → list val → list cmd) (fuel : nat)
    (ds : list (nat * action)) : M unit :=
  forEach (λ d, let* _ := Redux.dispatch
                            (Data.call_listener
                               (Data.globalListener handlers fuel)) d.1 d.2 in
                ret tt) ds.

(** From [w] to [w'] nothing has changed but cells outside [keep] and the
    calls of callbacks other than [cb]. *)
Definition undisturbed (keep : list nat) (cb : nat) (w w' : World) : Prop :=
  heap w' = heap w ∧ selectors w' = selectors w ∧ listeners w' = listeners w
  ∧ length (cells w') = length (cells w)
  ∧ (∀ c, c ∈ keep → cells w' !! c = cells w !! c)
  ∧ calls_of cb w' = calls_of cb w.

(** Callbacks that call nothing back. *)
Definition inert : nat → list val → list cmd := λ _ _, [].

(** From [w] to [w'] the stores, the selectors and the listener list are as
    they were, and no closure variable has come or gone. *)
Definition settled (w w' : World) : Prop :=
  heap w' = heap w ∧ selectors w' = selectors w ∧ listeners w' = listeners w
  ∧ length (cells w') = length (cells w).

(** The property names every object inherits from [Object.prototype]:
    looked up on an object that has no property of that name of its own,
    they are found all the same. *)
Definition inherited (name : string) : bool :=
  bool_decide (name ∈ ["constructor"; "hasOwnProperty"; "isPrototypeOf";
                       "propertyIsEnumerable"; "toLocaleString"; "toString";
                       "valueOf"; "__defineGetter__"; "__defineSetter__";
                       "__lookupGetter__"; "__lookupSetter__"; "__proto__"]).

(** What happens to a mounted [withSelect] component: a store update
    reaches it, or it is given props; [w] is the world at that moment. *)
Inductive select_event :=
  | StoreUpdate (w : World)
  | ReceiveProps (w : World) (nextProps : WithSelect.Props).

Definition select_world (e : select_event) : World :=
  match e with
  | StoreUpdate w | ReceiveProps w _ => w
  end.

Definition select_step
    (isEqualShallow : WithSelect.Props → WithSelect.Props → bool)
    (mapStateToProps : World → WithSelect.Props → WithSelect.Props)
    (c : WithSelect.Component) (e : select_event) : WithSelect.Component :=
  match e with
  | StoreUpdate w => WithSelect.storeUpdate isEqualShallow mapStateToProps w c
  | ReceiveProps w nextProps =>
      WithSelect.receiveProps isEqualShallow mapStateToProps w nextProps c
  end.

Definition select_life
    (isEqualShallow : WithSelect.Props → WithSelect.Props → bool)
    (mapStateToProps : World → WithSelect.Props → WithSelect.Props)
    (es : list select_event) (c : WithSelect.Component)
    : WithSelect.Component :=
  foldl (select_step isEqualShallow mapStateToProps) c es.

(** A [withDispatch] component from its mount on: mounted in [w0] with
    props [p0], then given the props of [us] one after the other, each in
    its world. *)
Definition dispatch_life
    (mapDispatchToProps : World → WithDispatch.Props
                          → gmap string (list val → M unit))
    (w0 : World) (p0 : WithDispatch.Props)
    (us : list (World * WithDispatch.Props)) : WithDispatch.Component :=
  foldl (λ c u, WithDispatch.update mapDispatchToProps u.1 u.2 c)
    (WithDispatch.componentWillMount mapDispatchToProps w0
       (WithDispatch.construct p0)) us.

(** A [PreserveScrollInReorder] instance after the updates [us], each given
    by the document before it, the document after it and the new props. *)
Definition scroll_life
    (us : list (PreserveScroll.Dom * PreserveScroll.Dom * PreserveScroll.Props))
    (i : PreserveScroll.Instance) : PreserveScroll.Instance :=
  foldl (λ i u, (PreserveScroll.update u.1.1 u.1.2 u.2 i).2) i us.



(** ** Instances to try things on *)

(** A reducer to try things on: a counter that starts at 0 and counts the
    actions of type [inc]. *)
Definition counter (s : val) (a : action) : val :=
  match s with
  | VNum n => if bool_decide (a_type a = "inc") then VNum (n + 1) else s
  | _ => VNum 0
  end.

Definition inc : action := {| a_type := "inc"; a_payload := [] |}.

(** A world with one store, a counter at [n], registered under [key]. *)
Definition one_counter (key : string) (n : Z) : World :=
  set_heap [ {| currentReducer := counter; currentState := VNum n;
                currentListeners := [GlobalListener] |} ]
    (set_stores {[ key := 0 ]} empty_world).

(** A selector to try things on: whether the counter is above five. *)
Definition isBig (s : val) (_ : list val) : val :=
  match s with
  | VNum n => VBool (5 <? n)%Z
  | _ => VBool false
  end.

(** [one_counter] with [isBig] registered for its store. *)
Definition counter_with_isBig (key : string) (n : Z) : World :=
  set_selectors
    {[ key := {[ "isBig" := {| sel_store := Some 0; sel_raw := isBig |} ]} ]}
    (one_counter key n).

(** A window for the wiring to run in: the viewport store, a counter at
    [n], registered under ['core/viewport'] with [isBig] for its selector
    [isViewportMatch]. *)
Definition viewport_world (n : Z) : World :=
  set_selectors
    {[ "core/viewport" :=
         {[ "isViewportMatch" := {| sel_store := Some 0; sel_raw := isBig |} ]} ]}
    (one_counter "core/viewport" n).

(** The world the wiring leaves, the edit-post store being a counter that
    [closeGeneralSidebar()] increments. *)
Definition wired_world : World :=
  match EditPost.wiring (λ _ args, EditPost.collapseSidebar args) counter
          {[ "closeGeneralSidebar" := λ _, inc ]} ∅ 1 None 7
          (viewport_world 5) with
  | Ok _ w | Throw _ w => w
  | OutOfFuel => empty_world
  end.

(** A shallow comparison to try things on: the same keys with the same
    values. *)
Definition same_entries (a b : WithSelect.Props) : bool := bool_decide (a = b).

Definition noop : action := {| a_type := "noop"; a_payload := [] |}.

(** Callback 1 unsubscribes the bare listener 2; the others call nothing
    back. *)
Definition one_unsubscribes_two (cb : nat) (_ : list val) : list cmd :=
  if bool_decide (cb = 1) then [Unsubscribe (Callback 2)] else [].

(** [n] dispatches of [a] to [store], one after the other. *)
Definition dispatches (handlers : nat → list val → list cmd) (fuel : nat)
    (store : nat) (a : action) (n : nat) : M unit :=
  dispatch_all handlers fuel (replicate n (store, a)).

(** * Properties *)

(** ** Strict equality *)

Lemma strict_eq_true a b : strict_eq a b = true ↔ a = b ∧ a ≠ VNaN.
Proof.
  unfold strict_eq.
  destruct a; rewrite ?bool_decide_eq_true; split; intros H;
    try discriminate; try (split; [exact H | discriminate]);
    try exact (proj1 H); exfalso; by apply (proj2 H).
Qed.

Lemma strict_eq_refl a : a ≠ VNaN → strict_eq a a = true.
Proof. intros. by apply strict_eq_true. Qed.

Lemma strict_eq_sym a b : strict_eq a b = strict_eq b a.
Proof.
  destruct (strict_eq a b) eqn:E.
  - apply strict_eq_true in E as [-> ?]. symmetry. by apply strict_eq_refl.
  - destruct (strict_eq b a) eqn:E'; [|done].
    apply strict_eq_true in E' as [-> ?].
    rewrite strict_eq_refl in E; done.
Qed.

Lemma strict_eq_trans a b c :
  strict_eq a b = true → strict_eq b c = true → strict_eq a c = true.
Proof.
  rewrite !strict_eq_true. intros [-> ?] [-> _]. by split.
Qed.

Lemma strict_neq_true a b : strict_neq a b = true ↔ strict_eq a b = false.
Proof. unfold strict_neq. by destruct (strict_eq a b). Qed.

Lemma strict_neq_of_ne a b : a ≠ b → strict_neq a b = true.
Proof.
  intros Hne. apply strict_neq_true.
  destruct (strict_eq a b) eqn:E; [|done].
  apply strict_eq_true in E as [? _]. by destruct Hne.
Qed.

Lemma truthy_str_true s : truthy_str s = true ↔ s ≠ "".
Proof.
  unfold truthy_str. rewrite negb_true_iff, bool_decide_eq_false. done.
Qed.

(** ** Computations *)

Lemma forEach_app {A} (f : A → M unit) xs ys w :
  forEach f (xs ++ ys) w = (let* _ := forEach f xs in forEach f ys) w.
Proof.
  revert w. induction xs as [|x xs IH]; intros w; simpl; [done|].
  unfold bind in *. destruct (f x w) as [[] w'| |]; try done.
Qed.

(** ** Registering *)

Lemma registerReducer_eq reducerKey r w :
  Data.registerReducer reducerKey r w =
    Ok (length (heap w))
       (set_heap (heap w ++ [ {| currentReducer := r;
                                 currentState := r VUndefined INIT;
                                 currentListeners := [GlobalListener] |} ])
          (set_stores (<[reducerKey := length (heap w)]> (stores w)) w)).
Proof.
  unfold Data.registerReducer, bind, Redux.createStore, modify,
    Redux.subscribe, ret. simpl.
  rewrite lookup_app_r by done. rewrite Nat.sub_diag. simpl.
  rewrite insert_app_r_alt by done. rewrite Nat.sub_diag. done.
Qed.

Lemma registerActions_eq reducerKey newActions w :
  Data.registerActions reducerKey newActions w =
    Ok tt (set_actions
             (<[reducerKey :=
                  (λ a, {| act_store := stores w !! reducerKey;
                           act_creator := a |}) <$> newActions]> (actions w)) w).
Proof. done. Qed.

Lemma registerSelectors_eq reducerKey newSelectors w :
  Data.registerSelectors reducerKey newSelectors w =
    Ok tt (set_selectors
             (<[reducerKey :=
                  (λ s, {| sel_store := stores w !! reducerKey;
                           sel_raw := s |}) <$> newSelectors]> (selectors w)) w).
Proof. done. Qed.

(** C3.  [registerStore] throws a [TypeError] when [options.reducer] is
    absent, and the world it throws in is the world it was called in: nothing
    is registered, the maps [stores], [selectors] and [actions] are as they
    were.  When [options.reducer] is present, [registerStore] returns, and the
    store it returns is the one now registered under the key: a fresh store
    object holding that reducer. *)
Theorem C3_registerStore_reducer (reducerKey : string)
    (options : Data.Options) (w : World) :
  (Data.reducer options = None →
     Data.registerStore reducerKey options w
       = Throw (TypeError "Must specify store reducer") w)
  ∧ (∀ r, Data.reducer options = Some r →
     ∃ w', Data.registerStore reducerKey options w = Ok (length (heap w)) w'
           ∧ stores w' !! reducerKey = Some (length (heap w))
           ∧ heap w !! length (heap w) = None
           ∧ heap w' !! length (heap w)
               = Some {| currentReducer := r;
                         currentState := r VUndefined INIT;
                         currentListeners := [GlobalListener] |}).
Proof.
  split.
  - intros H. unfold Data.registerStore. by rewrite H.
  - intros r H. unfold Data.registerStore. rewrite H.
    unfold bind at 1. rewrite registerReducer_eq.
    set (w1 := set_heap _ _).
    assert (Hs : stores w1 !! reducerKey = Some (length (heap w))).
    { subst w1. simpl. by rewrite lookup_insert_eq. }
    assert (Hh : heap w1 !! length (heap w)
                 = Some {| currentReducer := r;
                           currentState := r VUndefined INIT;
                           currentListeners := [GlobalListener] |}).
    { subst w1. simpl. rewrite lookup_app_r by done.
      by rewrite Nat.sub_diag. }
    assert (Hn : heap w !! length (heap w) = None).
    { by apply lookup_ge_None. }
    destruct (Data.opt_actions options) as [a|],
             (Data.opt_selectors options) as [s|];
      eexists; (split; [reflexivity|]); simpl; auto.
Qed.

Lemma C3_registerStore_reducer_witness :
  Data.registerStore "k"
      {| Data.reducer := None; Data.opt_actions := None;
         Data.opt_selectors := None |} empty_world
    = Throw (TypeError "Must specify store reducer") empty_world
  ∧ ∃ w', Data.registerStore "k"
            {| Data.reducer := Some (λ s _, s); Data.opt_actions := None;
               Data.opt_selectors := None |} empty_world = Ok 0 w'
          ∧ stores w' !! "k" = Some 0.
Proof.
  split.
  - apply (C3_registerStore_reducer "k"
             {| Data.reducer := None; Data.opt_actions := None;
                Data.opt_selectors := None |} empty_world).
    reflexivity.
  - destruct (C3_registerStore_reducer "k"
             {| Data.reducer := Some (λ s _, s); Data.opt_actions := None;
                Data.opt_selectors := None |} empty_world) as [_ H].
    destruct (H (λ s _, s) eq_refl) as (w' & H1 & H2 & _).
    exists w'. split; [exact H1 | exact H2].
Defined.

(** ** Selectors and actions *)

(** C4.  With a store registered under the key, registering selectors
    succeeds, and in every later world that still holds them,
    [select( reducerKey )[ selectorName ]( ...args )] returns what the raw
    selector returns on the store's current state followed by the arguments,
    and leaves the world, the store's state included, as it was.  The
    deprecated call [select( reducerKey, selectorName, ...args )] does the
    same. *)
Theorem C4_select_calls_raw_selector (reducerKey : string) (store : nat)
    (newSelectors : gmap string (val → list val → val)) (w : World) :
  stores w !! reducerKey = Some store →
  ∃ w1, Data.registerSelectors reducerKey newSelectors w = Ok tt w1
    ∧ ∀ (selectorName : string) (raw : val → list val → val)
        (args : list val) (w2 : World) (st : Store),
        newSelectors !! selectorName = Some raw →
        selectors w2 !! reducerKey = selectors w1 !! reducerKey →
        heap w2 !! store = Some st →
        (let* obj := Data.select reducerKey in
         Data.call_selector obj selectorName args) w2
          = Ok (raw (currentState st) args) w2
        ∧ Data.select_deprecated reducerKey selectorName args w2
          = Ok (raw (currentState st) args) w2.
Proof.
  intros Hstore. eexists. split; [apply registerSelectors_eq|].
  intros selectorName raw args w2 st Hraw Hsel Hst.
  assert (E : (let* obj := Data.select reducerKey in
               Data.call_selector obj selectorName args) w2
              = Ok (raw (currentState st) args) w2).
  { unfold bind, Data.select, gets. rewrite Hsel. simpl.
    rewrite lookup_insert_eq. unfold Data.call_selector.
    rewrite lookup_fmap, Hraw. simpl. rewrite Hstore. simpl.
    unfold bind, Redux.getState. by rewrite Hst. }
  split; [exact E | exact E].
Qed.

Lemma C4_select_calls_raw_selector_witness :
  ∃ w1, Data.registerSelectors "k" {[ "get" := λ s _, s ]}
          (set_heap [ {| currentReducer := λ s _, s; currentState := VNum 3;
                         currentListeners := [] |} ]
             (set_stores {[ "k" := 0 ]} empty_world)) = Ok tt w1
    ∧ Data.select_deprecated "k" "get" [] w1 = Ok (VNum 3) w1.
Proof.
  destruct (C4_select_calls_raw_selector "k" 0 {[ "get" := λ s _, s ]}
              (set_heap [ {| currentReducer := λ s _, s; currentState := VNum 3;
                             currentListeners := [] |} ]
                 (set_stores {[ "k" := 0 ]} empty_world)))
    as (w1 & H1 & H2).
  - reflexivity.
  - exists w1. split; [exact H1|].
    refine (proj2 (H2 "get" (λ s _, s) [] w1
                     {| currentReducer := λ s _, s; currentState := VNum 3;
                        currentListeners := [] |} _ _ _)).
    + reflexivity.
    + reflexivity.
    + injection H1 as <-. reflexivity.
Defined.

Lemma Redux_dispatch_eq call store st a w :
  heap w !! store = Some st →
  Redux.dispatch call store a w =
    (let* _ := forEach call (currentListeners st) in ret a) (reduced store st a w).
Proof. intros H. unfold Redux.dispatch. by rewrite H. Qed.

Lemma getState_reduced store st a w :
  heap w !! store = Some st →
  Redux.getState store (reduced store st a w)
    = Ok (currentReducer st (currentState st) a) (reduced store st a w).
Proof.
  intros H. unfold Redux.getState, reduced. simpl.
  rewrite list_lookup_insert_eq; [done|]. by eapply lookup_lt_Some.
Qed.

(** C5.  With a store registered under the key, registering actions
    succeeds, and in every later world that still holds them,
    [dispatch( reducerKey )[ actionName ]( ...args )] is
    [store.dispatch( creator( ...args ) )] on that store: the store's state
    becomes its reducer applied to the current state and that action, and
    it is in that world that the store's listeners are then called. *)
Theorem C5_dispatch_calls_raw_action_creator (notify : M unit)
    (reducerKey : string) (store : nat)
    (newActions : gmap string (list val → action)) (w : World) :
  stores w !! reducerKey = Some store →
  ∃ w1, Data.registerActions reducerKey newActions w = Ok tt w1
    ∧ ∀ (actionName : string) (creator : list val → action)
        (args : list val) (w2 : World) (st : Store),
        newActions !! actionName = Some creator →
        actions w2 !! reducerKey = actions w1 !! reducerKey →
        heap w2 !! store = Some st →
        let call :=
          let* obj := Data.dispatch reducerKey in
          Data.call_action notify obj actionName args in
        let next := reduced store st (creator args) w2 in
        call w2 = Redux.dispatch (Data.call_listener notify) store
                    (creator args) w2
        ∧ call w2 = (let* _ := forEach (Data.call_listener notify)
                                 (currentListeners st) in
                     ret (creator args)) next
        ∧ Redux.getState store next
            = Ok (currentReducer st (currentState st) (creator args)) next.
Proof.
  intros Hstore. eexists. split; [apply registerActions_eq|].
  intros actionName creator args w2 st Hc Hact Hst call next.
  assert (E : call w2 = Redux.dispatch (Data.call_listener notify) store
                          (creator args) w2).
  { unfold call, bind, Data.dispatch, gets. rewrite Hact. simpl.
    rewrite lookup_insert_eq. unfold Data.call_action.
    rewrite lookup_fmap, Hc. simpl. by rewrite Hstore. }
  split; [exact E|]. split.
  - rewrite E. by apply Redux_dispatch_eq.
  - by apply getState_reduced.
Qed.

Lemma C5_dispatch_calls_raw_action_creator_witness :
  ∃ w1, Data.registerActions "k" {[ "inc" := λ _, inc ]} (one_counter "k" 3)
          = Ok tt w1
    ∧ (let* obj := Data.dispatch "k" in
       Data.call_action (ret tt) obj "inc" []) w1
      = Ok inc (reduced 0 {| currentReducer := counter; currentState := VNum 3;
                             currentListeners := [GlobalListener] |} inc w1)
    ∧ Redux.getState 0
        (reduced 0 {| currentReducer := counter; currentState := VNum 3;
                      currentListeners := [GlobalListener] |} inc w1)
      = Ok (VNum 4)
          (reduced 0 {| currentReducer := counter; currentState := VNum 3;
                        currentListeners := [GlobalListener] |} inc w1).
Proof.
  destruct (C5_dispatch_calls_raw_action_creator (ret tt) "k" 0
              {[ "inc" := λ _, inc ]} (one_counter "k" 3))
    as (w1 & H1 & H2).
  - reflexivity.
  - exists w1. split; [exact H1|].
    destruct (H2 "inc" (λ _, inc) [] w1
                {| currentReducer := counter; currentState := VNum 3;
                   currentListeners := [GlobalListener] |})
      as (_ & H3 & H4).
    + reflexivity.
    + reflexivity.
    + injection H1 as <-. reflexivity.
    + split; [exact H3 | exact H4].
Defined.

(** ** From a dispatch to the listeners *)

(** A store registered by [registerReducer] has [globalListener] for its one
    listener: its dispatch reduces, then runs [globalListener] once, which
    calls the entries of the listener list in order, each without
    arguments. *)
Lemma dispatch_reaches_listener handlers fuel store st a w l before after :
  heap w !! store = Some st →
  currentListeners st = [GlobalListener] →
  listeners w = before ++ l :: after →
  let call x := Data.invoke handlers (Data.globalListener handlers fuel) x [] in
  Redux.dispatch (Data.call_listener (Data.globalListener handlers (S fuel)))
      store a w
    = (let* _ := forEach call before in
       let* _ := call l in
       let* _ := forEach call after in
       ret a) (reduced store st a w).
Proof.
  intros Hst Hls Hl call.
  rewrite (Redux_dispatch_eq _ _ st) by done. rewrite Hls.
  cbn [forEach Data.call_listener Data.globalListener].
  unfold Data.globalListener_body. fold call.
  unfold bind at 1 2 3. unfold gets at 1.
  change (listeners (reduced store st a w)) with (listeners w). rewrite Hl.
  rewrite forEach_app. cbn [forEach]. unfold bind, ret.
  destruct (forEach call before _) as [[] w1|e w1|]; [|done|done].
  destruct (call l w1) as [[] w2|e w2|]; [|done|done].
  by destruct (forEach call after w2) as [[] w3|e w3|].
Qed.

(** ** Subscriptions filtered by reducer key *)

Lemma set_cells_id w : set_cells (cells w) w = w.
Proof. by destruct w. Qed.

Lemma getState_eq store st w :
  heap w !! store = Some st → Redux.getState store w = Ok (currentState st) w.
Proof. intros H. unfold Redux.getState. by rewrite H. Qed.

(** The wrapper [subscribe] makes for a reducer key: it looks at the state,
    remembers it, and calls on when it is not the state remembered. *)
Lemma invoke_WhenState handlers notify c store ifTrueFn args st w :
  heap w !! store = Some st →
  Data.invoke handlers notify (WhenState c store ifTrueFn) args w =
    (if strict_neq (currentState st) (default VUndefined (cells w !! c))
     then Data.invoke handlers notify ifTrueFn args
     else ret tt)
      (set_cells (<[c := currentState st]> (cells w)) w).
Proof.
  intros H. simpl. unfold Data.when, Data.stateChanged, bind.
  rewrite (getState_eq _ _ _ H). simpl. done.
Qed.

Lemma subscribe_reducerKey_eq reducerKey cb store st0 w0 :
  truthy_str reducerKey = true →
  stores w0 !! reducerKey = Some store →
  heap w0 !! store = Some st0 →
  Data.subscribe (Some reducerKey) None cb w0 =
    Ok (WhenState (length (cells w0)) store (Callback cb))
       (set_listeners
          (listeners w0 ++ [WhenState (length (cells w0)) store (Callback cb)])
          (set_cells (cells w0 ++ [currentState st0]) w0)).
Proof.
  intros Hk Hs Hh. unfold Data.subscribe. rewrite Hk.
  unfold bind, gets. rewrite Hs.
  rewrite (getState_eq _ _ _ Hh). done.
Qed.

(** ** Subscriptions filtered by selector *)

Lemma getResult_eq w reducerKey name store raw args st :
  registered_selector w reducerKey name store raw →
  heap w !! store = Some st →
  Data.getResult reducerKey name args w = Ok (raw (currentState st) args) w.
Proof.
  intros (obj & Ho & Hn) Hst.
  unfold Data.getResult, bind, gets. rewrite Ho. simpl.
  rewrite Hn. simpl. unfold bind. by rewrite (getState_eq _ _ _ Hst).
Qed.

Lemma registered_selector_frame w w' reducerKey name store raw :
  selectors w' = selectors w →
  registered_selector w reducerKey name store raw →
  registered_selector w' reducerKey name store raw.
Proof. intros E (obj & ? & ?). exists obj. by rewrite E. Qed.

Lemma subscribe_selector_eq reducerKey selector name args cb store raw st0 w0 :
  truthy_str reducerKey = true →
  Data.truthy_selector (Some selector) = true →
  Data.selector_parts (Some selector) = (name, args) →
  stores w0 !! reducerKey = Some store →
  heap w0 !! store = Some st0 →
  registered_selector w0 reducerKey name store raw →
  let c1 := length (cells w0) in
  let l := WhenResult (S c1) reducerKey name args
             (WhenState c1 store (Callback cb)) in
  Data.subscribe (Some reducerKey) (Some selector) cb w0 =
    Ok l (set_listeners (listeners w0 ++ [l])
            (set_cells (cells w0 ++ [currentState st0;
                                     raw (currentState st0) args]) w0)).
Proof.
  intros Hk Hsel Hparts Hs Hh Hreg c1 l.
  unfold Data.subscribe. rewrite Hk, Hsel, Hparts.
  unfold bind at 1. unfold bind at 1. unfold gets at 1. rewrite Hs.
  unfold bind at 1. rewrite (getState_eq _ _ _ Hh).
  unfold bind at 1. unfold Data.new_cell at 1.
  unfold bind at 1.
  erewrite getResult_eq;
    [| eapply registered_selector_frame; [|exact Hreg]; reflexivity
     | exact Hh ].
  unfold bind, Data.new_cell, ret, modify. simpl.
  rewrite length_app. simpl. rewrite Nat.add_1_r.
  rewrite <- app_assoc. done.
Qed.

(** The wrapper [subscribe] makes for a selector: it computes the result,
    remembers it, and calls on with it when it is not the result
    remembered. *)
Lemma invoke_WhenResult handlers notify c reducerKey name sargs ifTrueFn
    args store raw st w :
  registered_selector w reducerKey name store raw →
  heap w !! store = Some st →
  Data.invoke handlers notify (WhenResult c reducerKey name sargs ifTrueFn)
      args w =
    (if strict_neq (raw (currentState st) sargs)
          (default VUndefined (cells w !! c))
     then Data.invoke handlers notify ifTrueFn [raw (currentState st) sargs]
     else ret tt)
      (set_cells (<[c := raw (currentState st) sargs]> (cells w)) w).
Proof.
  intros Hreg Hst. simpl. unfold Data.whenWith, Data.resultChanged.
  unfold bind at 1. unfold bind at 1.
  rewrite (getResult_eq _ _ _ _ _ _ _ Hreg Hst). done.
Qed.

(** Between two results that differ, the states differ, from the previous
    state and from the one the inner wrapper remembers. *)
Lemma changed_result_changed_state (raw : val → list val → val)
    args s prev seen :
  strict_neq (raw s args) (raw prev args) = true →
  seen = prev ∨ strict_eq (raw seen args) (raw prev args) = true →
  strict_neq s seen = strict_neq s prev.
Proof.
  intros Hch [->|Hsame]; [done|].
  apply strict_neq_true in Hch.
  apply strict_eq_true in Hsame as [Heq Hnan].
  assert (s ≠ prev).
  { intros ->. rewrite <- Heq in Hch.
    rewrite strict_eq_refl in Hch; done. }
  assert (s ≠ seen).
  { intros ->. rewrite <- Heq in Hch.
    rewrite strict_eq_refl in Hch; done. }
  by rewrite !strict_neq_of_ne.
Qed.

(** Right after subscribing, the cells hold the state and the result of that
    moment. *)
Lemma Observed_subscribed (raw : val → list val → val) sargs s0 ls w0 :
  Observed (length (cells w0)) (S (length (cells w0))) raw sargs s0
    (set_listeners ls (set_cells (cells w0 ++ [s0; raw s0 sargs]) w0)).
Proof.
  unfold Observed. simpl. split.
  - rewrite lookup_app_r by lia.
    replace (S (length (cells w0)) - length (cells w0)) with 1 by lia. done.
  - exists s0. split; [|by left].
    rewrite lookup_app_r by lia. by rewrite Nat.sub_diag.
Qed.

(** One notification of a selector subscription. *)
Lemma notify_selector_subscription handlers notify reducerKey name sargs raw
    cb store c1 (w : World) (st : Store) (prev : val) :
  registered_selector w reducerKey name store raw →
  heap w !! store = Some st →
  Observed c1 (S c1) raw sargs prev w →
  let s := currentState st in
  let r := raw s sargs in
  let changed := strict_neq r (raw prev sargs) in
  let w' := set_cells (if changed
                       then <[c1 := s]> (<[S c1 := r]> (cells w))
                       else <[S c1 := r]> (cells w)) w in
  Data.invoke handlers notify
      (WhenResult (S c1) reducerKey name sargs
         (WhenState c1 store (Callback cb))) [] w
    = (if strict_neq s prev && changed
       then Data.call_callback handlers notify cb [r]
       else ret tt) w'
  ∧ Observed c1 (S c1) raw sargs s w'.
Proof.
  intros Hreg' Hst (HlastR & seen & HlastS & Hseen) s r changed w'.
  assert (Hlt1 : c1 < length (cells w)) by by eapply lookup_lt_Some.
  assert (Hlt2 : S c1 < length (cells w)) by by eapply lookup_lt_Some.
  assert (Hne : S c1 ≠ c1) by lia.
  split.
  - rewrite (invoke_WhenResult _ _ _ _ _ _ _ _ store raw st) by done.
    rewrite HlastR. cbn [default from_option id]. fold s r changed.
    destruct changed eqn:Hch.
    + rewrite (invoke_WhenState _ _ _ _ _ _ st) by done.
      cbn [cells set_cells].
      rewrite list_lookup_insert_ne by done. rewrite HlastS.
      cbn [default from_option id]. fold s.
      rewrite (changed_result_changed_state raw sargs s prev seen)
        by done.
      rewrite andb_true_r. done.
    + rewrite andb_false_r. done.
  - unfold Observed. subst w'. destruct changed eqn:Hch; simpl.
    + split.
      * rewrite list_lookup_insert_ne by done.
        rewrite list_lookup_insert_eq by done. done.
      * exists s. split; [|by left].
        rewrite list_lookup_insert_eq; [done|]. by rewrite length_insert.
    + split.
      * rewrite list_lookup_insert_eq by done. done.
      * exists seen. split.
        -- by rewrite list_lookup_insert_ne.
        -- right. unfold changed in Hch.
           assert (Hr : strict_eq r (raw prev sargs) = true).
           { unfold strict_neq in Hch.
             by destruct (strict_eq r (raw prev sargs)). }
           destruct Hseen as [->|Hsame].
           ++ by rewrite strict_eq_sym.
           ++ eapply strict_eq_trans; [exact Hsame|].
              by rewrite strict_eq_sym.
Qed.

(** ** Whole runs, the callbacks calling nothing back *)

Lemma undisturbed_refl keep cb w : undisturbed keep cb w w.
Proof. by repeat split. Qed.

Lemma undisturbed_trans keep cb w1 w2 w3 :
  undisturbed keep cb w1 w2 → undisturbed keep cb w2 w3 →
  undisturbed keep cb w1 w3.
Proof.
  intros (H1 & H2 & H3 & H4 & H5 & H6) (G1 & G2 & G3 & G4 & G5 & G6).
  repeat split; try congruence.
  intros c Hc. rewrite G5, H5; done.
Qed.

Lemma undisturbed_write_cell keep cb c v w :
  c ∉ keep → undisturbed keep cb w (set_cells (<[c := v]> (cells w)) w).
Proof.
  intros Hc. repeat split; simpl.
  - by rewrite length_insert.
  - intros c' Hc'. apply list_lookup_insert_ne. by intros ->.
Qed.

Lemma undisturbed_call keep cb cb' args w :
  cb' ≠ cb → undisturbed keep cb w (set_calls (calls w ++ [(cb', args)]) w).
Proof.
  intros Hne. repeat split; simpl.
  unfold calls_of. simpl. rewrite filter_app.
  rewrite filter_cons_False by done. by rewrite app_nil_r.
Qed.

Lemma call_callback_inert notify cb args w :
  Data.call_callback inert notify cb args w
    = Ok tt (set_calls (calls w ++ [(cb, args)]) w).
Proof. done. Qed.

(** A listener that owns none of the cells [keep] and does not lead to [cb]
    disturbs nothing. *)
Lemma invoke_inert_undisturbed keep cb notify x args w :
  (∀ c, c ∈ keep → c ∉ cells_of x) →
  callback_of x ≠ cb →
  match Data.invoke inert notify x args w with
  | Ok _ w' | Throw _ w' => undisturbed keep cb w w'
  | OutOfFuel => False
  end.
Proof.
  revert args w.
  induction x as [cb'|c store f IH|c key name sargs f IH];
    intros args w Hkeep Hcb; simpl in Hcb.
  - cbn [Data.invoke]. rewrite call_callback_inert. by apply undisturbed_call.
  - cbn [Data.invoke]. unfold Data.when, Data.stateChanged, bind.
    unfold Redux.getState. destruct (heap w !! store) as [st|];
      [|apply undisturbed_refl].
    simpl.
    assert (Hw : undisturbed keep cb w
                   (set_cells (<[c := currentState st]> (cells w)) w)).
    { apply undisturbed_write_cell. intros Hc.
      apply (Hkeep c Hc). simpl. apply list_elem_of_here. }
    destruct (strict_neq _ _); [|exact Hw].
    match goal with |- match ?m with _ => _ end =>
      pose proof (IH args (set_cells (<[c := currentState st]> (cells w)) w))
        as Hf end.
    lapply Hf; [clear Hf; intros Hf|].
    2: { intros c' Hc' Hin. apply (Hkeep c' Hc'). simpl.
         by apply list_elem_of_further. }
    specialize (Hf Hcb).
    destruct (Data.invoke inert notify f args _) as [[] w'|e w'|];
      [| |done]; by eapply undisturbed_trans.
  - cbn [Data.invoke].
    unfold Data.whenWith, Data.resultChanged. unfold bind at 1. unfold bind at 1.
    destruct (Data.getResult key name sargs w) as [r w0|e w0|] eqn:Er.
    + assert (w0 = w) as ->.
      { unfold Data.getResult, bind, gets, Data.call_selector in Er.
        destruct (selectors w !! key) as [o|]; [|done].
        destruct (o !! name) as [b|]; [|done].
        unfold bind, Data.getStateOf in Er. destruct (sel_store b); [|done].
        unfold Redux.getState in Er.
        destruct (heap w !! n); [|done]. by injection Er as _ <-. }
      unfold bind. simpl.
      assert (Hw : undisturbed keep cb w (set_cells (<[c := r]> (cells w)) w)).
      { apply undisturbed_write_cell. intros Hc.
        apply (Hkeep c Hc). simpl. apply list_elem_of_here. }
      destruct (strict_neq _ _); [|exact Hw].
      pose proof (IH [r] (set_cells (<[c := r]> (cells w)) w)) as Hf.
      lapply Hf; [clear Hf; intros Hf|].
      2: { intros c' Hc' Hin. apply (Hkeep c' Hc'). simpl.
           by apply list_elem_of_further. }
      specialize (Hf Hcb).
      destruct (Data.invoke inert notify f [r] _) as [[] w'|e w'|];
        [| |done]; by eapply undisturbed_trans.
    + assert (w0 = w) as ->; [|apply undisturbed_refl].
      unfold Data.getResult, bind, gets, Data.call_selector in Er.
      destruct (selectors w !! key) as [o|]; [|by injection Er as _ <-].
      destruct (o !! name) as [b|]; [|by injection Er as _ <-].
      unfold bind, Data.getStateOf in Er.
      destruct (sel_store b); [|by injection Er as _ <-].
      unfold Redux.getState in Er.
      destruct (heap w !! n); [done|]. by injection Er as _ <-.
    + exfalso.
      unfold Data.getResult, bind, gets, Data.call_selector in Er.
      destruct (selectors w !! key) as [o|]; [|done].
      destruct (o !! name) as [b|]; [|done].
      unfold bind, Data.getStateOf in Er. destruct (sel_store b); [|done].
      unfold Redux.getState in Er. by destruct (heap w !! n).
Qed.

Lemma forEach_inert_undisturbed keep cb notify (xs : list Listener) w :
  Forall (λ x, (∀ c, c ∈ keep → c ∉ cells_of x) ∧ callback_of x ≠ cb) xs →
  match forEach (λ x, Data.invoke inert notify x []) xs w with
  | Ok _ w' | Throw _ w' => undisturbed keep cb w w'
  | OutOfFuel => False
  end.
Proof.
  intros Hxs. revert w. induction Hxs as [|x xs [Hk Hc] _ IH]; intros w.
  - apply undisturbed_refl.
  - cbn [forEach]. unfold bind.
    pose proof (invoke_inert_undisturbed keep cb notify x [] w Hk Hc) as Hx.
    destruct (Data.invoke inert notify x [] w) as [[] w1|e w1|];
      [|done|done].
    specialize (IH w1).
    destruct (forEach _ xs w1) as [[] w2|e w2|]; [| |done];
      by eapply undisturbed_trans.
Qed.

Lemma reduce_lookup store st a h :
  h !! store = Some st →
  reduce store a h
    = <[store := {| currentReducer := currentReducer st;
                    currentState := currentReducer st (currentState st) a;
                    currentListeners := currentListeners st |}]> h.
Proof. intros H. unfold reduce. by rewrite H. Qed.

Lemma reduce_length store a h : length (reduce store a h) = length h.
Proof.
  unfold reduce. destruct (h !! store); [by rewrite length_insert | done].
Qed.

Lemma reduce_all_registered store a h :
  all_registered h → all_registered (reduce store a h).
Proof.
  unfold all_registered, reduce. intros Hall.
  destruct (h !! store) as [st|] eqn:E; [|done].
  rewrite Forall_forall in *. intros x Hx.
  apply list_elem_of_lookup in Hx as [i Hi].
  destruct (decide (i = store)) as [->|Hne].
  - rewrite list_lookup_insert_eq in Hi by by eapply lookup_lt_Some.
    injection Hi as <-. simpl. apply Hall.
    apply list_elem_of_lookup. eauto.
  - rewrite list_lookup_insert_ne in Hi by done.
    apply Hall. apply list_elem_of_lookup. eauto.
Qed.

Lemma state_in_lookup store h :
  store < length h →
  ∃ st, h !! store = Some st ∧ currentState st = state_in store h.
Proof.
  intros Hlt. destruct (lookup_lt_is_Some_2 h store Hlt) as [st Hst].
  exists st. split; [done|]. unfold state_in. by rewrite Hst.
Qed.

Lemma dispatch_all_cons handlers fuel s a ds w :
  dispatch_all handlers fuel ((s, a) :: ds) w
    = match Redux.dispatch
              (Data.call_listener (Data.globalListener handlers fuel)) s a w with
      | Ok _ w1 => dispatch_all handlers fuel ds w1
      | Throw e w1 => Throw e w1
      | OutOfFuel => OutOfFuel
      end.
Proof.
  unfold dispatch_all. cbn [forEach]. unfold bind, ret. simpl.
  by destruct (Redux.dispatch _ s a w).
Qed.

Section Run.

Variables (cb store : nat) (l : Listener) (keep : list nat).

(** What the subscription remembers, [prev] being the state at the previous
    notification. *)
Variable Remembers : val → World → Prop.
Variable report : val → val → option (list val).

Hypothesis Remembers_heap : ∀ prev w h,
  Remembers prev w → Remembers prev (set_heap h w).
Hypothesis Remembers_undisturbed : ∀ prev w w',
  Remembers prev w → undisturbed keep cb w w' → Remembers prev w'.

(** One notification of the subscription. *)
Hypothesis notification : ∀ notify w st prev,
  Remembers prev w →
  heap w !! store = Some st →
  ∃ w', Data.invoke inert notify l [] w = Ok tt w'
        ∧ Remembers (currentState st) w'
        ∧ heap w' = heap w ∧ listeners w' = listeners w
        ∧ calls_of cb w'
          = calls_of cb w ++ match report prev (currentState st) with
                             | Some args => [(cb, args)]
                             | None => []
                             end.

(** Dispatches to registered stores never run out of fuel, and when they
    all return, the calls of [cb] are the expected ones. *)
Lemma run_calls fuel (others : list Listener) (ds : list (nat * action))
    prev w :
  listeners w = others ++ [l] →
  Forall (λ x, (∀ c, c ∈ keep → c ∉ cells_of x) ∧ callback_of x ≠ cb) others →
  all_registered (heap w) →
  store < length (heap w) →
  Remembers prev w →
  match dispatch_all inert (S fuel) ds w with
  | Ok _ w' =>
      calls_of cb w'
        = calls_of cb w ++ expected_calls cb report store (heap w) prev ds
  | Throw _ _ => True
  | OutOfFuel => False
  end.
Proof.
  intros Hl Hothers. revert prev w Hl.
  induction ds as [|[s a] ds IH]; intros prev w Hl Hreg Hlt Hrem.
  - simpl. by rewrite app_nil_r.
  - rewrite dispatch_all_cons.
    destruct (heap w !! s) as [st|] eqn:Es.
    2: { unfold Redux.dispatch. by rewrite Es. }
    assert (Hst : currentListeners st = [GlobalListener]).
    { unfold all_registered in Hreg. rewrite Forall_forall in Hreg.
      apply Hreg. apply list_elem_of_lookup. eauto. }
    rewrite (dispatch_reaches_listener inert fuel s st a w l others [])
      by done.
    set (wr := reduced s st a w) in *.
    assert (Hheap_r : heap wr = reduce s a (heap w)).
    { subst wr. unfold reduced. simpl. by rewrite (reduce_lookup _ st). }
    unfold bind at 1.
    pose proof (forEach_inert_undisturbed keep cb
                  (Data.globalListener inert fuel) others wr Hothers) as Hpre.
    destruct (forEach _ others wr) as [[] wa|e wa|]; [|done|done].
    assert (Hrem_a : Remembers prev wa).
    { eapply Remembers_undisturbed; [|exact Hpre].
      subst wr. unfold reduced. by apply Remembers_heap. }
    destruct Hpre as (Hha & _ & Hla & _ & _ & Hca).
    assert (Hlt_a : store < length (heap wa)).
    { rewrite Hha, Hheap_r, reduce_length. done. }
    destruct (state_in_lookup store (heap wa) Hlt_a) as (st' & Hst' & Hnow).
    destruct (notification (Data.globalListener inert fuel) wa st' prev
                Hrem_a Hst') as (wb & Einv & Hrem_b & Hhb & Hlb & Hcb).
    unfold bind at 1. rewrite Einv.
    cbn [forEach]. unfold bind, ret.
    specialize (IH (currentState st') wb).
    lapply IH; [clear IH; intros IH|by rewrite Hlb, Hla].
    lapply IH; [clear IH; intros IH
               |rewrite Hhb, Hha, Hheap_r; by apply reduce_all_registered].
    lapply IH; [clear IH; intros IH|by rewrite Hhb].
    specialize (IH Hrem_b).
    destruct (dispatch_all inert (S fuel) ds wb) as [[] w'|e w'|];
      [|done|done].
    rewrite IH, Hcb, Hca. cbn [expected_calls].
    rewrite Hhb, Hha, Hheap_r, <- app_assoc.
    rewrite Hha, Hheap_r in Hnow. by rewrite Hnow.
Qed.

End Run.

(** The subscription by reducer key over a whole run. *)
Lemma reducerKey_subscription_run cb store st0 w0 fuel ds :
  heap w0 !! store = Some st0 →
  well_formed w0 →
  unheard cb w0 →
  all_registered (heap w0) →
  let l := WhenState (length (cells w0)) store (Callback cb) in
  match dispatch_all inert (S fuel) ds
          (set_listeners (listeners w0 ++ [l])
             (set_cells (cells w0 ++ [currentState st0]) w0)) with
  | Ok _ w' =>
      calls_of cb w'
        = calls_of cb w0
            ++ expected_calls cb report_state store (heap w0)
                 (currentState st0) ds
  | Throw _ _ => True
  | OutOfFuel => False
  end.
Proof.
  intros Hh Hwf Hun Hreg l.
  set (c := length (cells w0)) in *.
  apply (run_calls cb store l [c] (λ prev w, cells w !! c = Some prev)
           report_state)
    with (others := listeners w0) (prev := currentState st0)
         (w := set_listeners (listeners w0 ++ [l])
                 (set_cells (cells w0 ++ [currentState st0]) w0)); try done.
  - intros prev w w1 Hrem (_ & _ & _ & _ & Hc & _).
    rewrite Hc; [done|]. apply list_elem_of_here.
  - intros notify w st prev Hrem Hst. subst l.
    rewrite (invoke_WhenState _ _ _ _ _ _ st) by done. rewrite Hrem.
    cbn [default from_option id]. unfold report_state.
    assert (Hlt : c < length (cells w)) by by eapply lookup_lt_Some.
    destruct (strict_neq (currentState st) prev).
    + cbn [Data.invoke]. rewrite call_callback_inert.
      eexists. split; [reflexivity|]. simpl.
      split; [by rewrite list_lookup_insert_eq|].
      split; [done|]. split; [done|].
      unfold calls_of. simpl. rewrite filter_app.
      by rewrite filter_cons_True.
    + eexists. split; [reflexivity|]. simpl.
      split; [by rewrite list_lookup_insert_eq|].
      by rewrite app_nil_r.
  - unfold well_formed, unheard in *. rewrite Forall_forall in *.
    intros x Hx. split; [|by apply Hun].
    intros c' Hc' Hin. apply list_elem_of_singleton in Hc' as ->.
    specialize (Hwf x Hx). rewrite Forall_forall in Hwf.
    specialize (Hwf c Hin). subst c. lia.
  - by eapply lookup_lt_Some.
  - simpl. rewrite lookup_app_r by done. subst c. by rewrite Nat.sub_diag.
Qed.

(** The subscription by selector over a whole run. *)
Lemma selector_subscription_run reducerKey name sargs raw cb store st0 w0
    fuel ds :
  heap w0 !! store = Some st0 →
  registered_selector w0 reducerKey name store raw →
  well_formed w0 →
  unheard cb w0 →
  all_registered (heap w0) →
  let c1 := length (cells w0) in
  let l := WhenResult (S c1) reducerKey name sargs
             (WhenState c1 store (Callback cb)) in
  match dispatch_all inert (S fuel) ds
          (set_listeners (listeners w0 ++ [l])
             (set_cells (cells w0 ++ [currentState st0;
                                      raw (currentState st0) sargs]) w0)) with
  | Ok _ w' =>
      calls_of cb w'
        = calls_of cb w0
            ++ expected_calls cb (report_result raw sargs) store (heap w0)
                 (currentState st0) ds
  | Throw _ _ => True
  | OutOfFuel => False
  end.
Proof.
  intros Hh Hsel Hwf Hun Hreg c1 l.
  apply (run_calls cb store l [c1; S c1]
           (λ prev w, registered_selector w reducerKey name store raw
                      ∧ Observed c1 (S c1) raw sargs prev w)
           (report_result raw sargs))
    with (others := listeners w0) (prev := currentState st0)
         (w := set_listeners (listeners w0 ++ [l])
                 (set_cells (cells w0 ++ [currentState st0;
                                          raw (currentState st0) sargs]) w0));
    try done.
  - intros prev w w1 [Hr (HR & seen & HS & Hseen)] (_ & Hsl & _ & _ & Hc & _).
    split; [by eapply registered_selector_frame|].
    split.
    + rewrite Hc; [done|]. apply list_elem_of_further, list_elem_of_here.
    + exists seen. split; [|done]. rewrite Hc; [done|]. apply list_elem_of_here.
  - intros notify w st prev [Hr Hobs] Hst.
    destruct (notify_selector_subscription inert notify reducerKey name sargs
                raw cb store c1 w st prev Hr Hst Hobs) as [Einv Hobs'].
    cbn zeta in Einv, Hobs'. subst l. rewrite Einv. unfold report_result.
    destruct (strict_neq (currentState st) prev
              && strict_neq (raw (currentState st) sargs) (raw prev sargs)).
    + rewrite call_callback_inert.
      eexists. split; [reflexivity|].
      split; [split; [exact Hr | exact Hobs']|].
      split; [done|]. split; [done|].
      unfold calls_of. simpl. rewrite filter_app.
      by rewrite filter_cons_True.
    + eexists. split; [reflexivity|].
      split; [split; [exact Hr | exact Hobs']|].
      by rewrite app_nil_r.
  - unfold well_formed, unheard in *. rewrite Forall_forall in *.
    intros x Hx. split; [|by apply Hun].
    intros c' Hc' Hin.
    specialize (Hwf x Hx). rewrite Forall_forall in Hwf.
    specialize (Hwf c' Hin). subst c1.
    apply elem_of_cons in Hc' as [->|Hc']; [lia|].
    apply list_elem_of_singleton in Hc' as ->. lia.
  - by eapply lookup_lt_Some.
  - split; [done|]. apply Observed_subscribed.
Qed.

(** C1, amended.  [subscribe( reducerKey, listener )] with a non-empty
    reducer key under which a store is registered adds to the listener list a
    wrapper that remembers the state the store holds at that moment.  At
    every notification (every call of the wrapper by [globalListener], which
    each registered store calls after it has reduced a dispatch), the wrapper
    remembers the state the store holds now, and it calls the listener, with
    no arguments, exactly when that state is not ([!==]) the state it
    remembered, that is, the state seen at the previous notification, or at
    subscription for the first.  In particular a dispatch to another store,
    the listener having seen the state object its own store holds, does not
    call the listener: the wrapper returns and the world is as it was.  And
    the dispatch of any registered store does reach the wrapper: it reduces,
    then calls the entries of the listener list in order, the wrapper among
    them, once.  Over a whole run of dispatches from the subscription on,
    the callbacks calling nothing back and the listener having no other
    subscription, the run never hangs, and when every dispatch returns the
    listener has been called exactly once for each dispatch that left the
    store with a state that is not the state it had after the previous
    dispatch. *)
Theorem C1_subscribe_reducerKey (handlers : nat → list val → list cmd)
    (notify : M unit) (reducerKey : string) (cb store : nat) (st0 : Store)
    (w0 : World) :
  truthy_str reducerKey = true →
  stores w0 !! reducerKey = Some store →
  heap w0 !! store = Some st0 →
  let c := length (cells w0) in
  let l := WhenState c store (Callback cb) in
  let w1 := set_listeners (listeners w0 ++ [l])
              (set_cells (cells w0 ++ [currentState st0]) w0) in
  Data.subscribe (Some reducerKey) None cb w0 = Ok l w1
  ∧ (∀ (w : World) (st : Store) (seen : val),
       heap w !! store = Some st →
       cells w !! c = Some seen →
       Data.invoke handlers notify l [] w
         = (if strict_neq (currentState st) seen
            then Data.call_callback handlers notify cb []
            else ret tt)
             (set_cells (<[c := currentState st]> (cells w)) w))
  ∧ (∀ (w : World) (st stOther : Store) (other : nat) (a : action),
       heap w !! store = Some st →
       cells w !! c = Some (currentState st) →
       currentState st ≠ VNaN →
       other ≠ store →
       heap w !! other = Some stOther →
       Data.invoke handlers notify l [] (reduced other stOther a w)
         = Ok tt (reduced other stOther a w))
  ∧ (∀ (fuel : nat) (w : World) (any : nat) (st : Store) (a : action)
       (before after : list Listener),
       heap w !! any = Some st →
       currentListeners st = [GlobalListener] →
       listeners w = before ++ l :: after →
       let call x :=
         Data.invoke handlers (Data.globalListener handlers fuel) x [] in
       Redux.dispatch
           (Data.call_listener (Data.globalListener handlers (S fuel))) any a w
         = (let* _ := forEach call before in
            let* _ := call l in
            let* _ := forEach call after in
            ret a) (reduced any st a w))
  ∧ (∀ (fuel : nat) (ds : list (nat * action)),
       well_formed w0 → unheard cb w0 → all_registered (heap w0) →
       match dispatch_all inert (S fuel) ds w1 with
       | Ok _ w' =>
           calls_of cb w'
             = calls_of cb w0
                 ++ expected_calls cb report_state store (heap w0)
                      (currentState st0) ds
       | Throw _ _ => True
       | OutOfFuel => False
       end).
Proof.
  intros Hk Hs Hh c l w1. split; [|split; [|split; [|split]]].
  5: { intros. by apply reducerKey_subscription_run. }
  4: { intros. by apply dispatch_reaches_listener. }
  - by apply subscribe_reducerKey_eq.
  - intros w st seen Hst Hseen. subst l.
    rewrite (invoke_WhenState _ _ _ _ _ _ st) by done.
    by rewrite Hseen.
  - intros w st stOther other a Hst Hseen Hnan Hne Hother. subst l.
    assert (Hst' : heap (reduced other stOther a w) !! store = Some st).
    { unfold reduced. simpl. by rewrite list_lookup_insert_ne. }
    rewrite (invoke_WhenState _ _ _ _ _ _ st) by done.
    change (cells (reduced other stOther a w)) with (cells w).
    rewrite Hseen. simpl.
    unfold strict_neq. rewrite strict_eq_refl by done. simpl.
    rewrite list_insert_id by done.
    unfold ret. f_equal.
Qed.

Lemma C1_subscribe_reducerKey_witness :
  let l := WhenState 0 0 (Callback 7) in
  let w1 := set_listeners [l] (set_cells [VNum 3] (one_counter "k" 3)) in
  let st : Store := {| currentReducer := counter; currentState := VNum 4;
                       currentListeners := [GlobalListener] |} in
  Data.subscribe (Some "k") None 7 (one_counter "k" 3) = Ok l w1
  ∧ Data.invoke inert (ret tt) l [] (set_heap [st] w1)
    = Data.call_callback inert (ret tt) 7 []
        (set_cells [VNum 4] (set_heap [st] w1))
  ∧ match dispatch_all inert 1 [(0, inc); (0, noop); (0, inc)] w1 with
    | Ok _ w' => calls_of 7 w' = [(7, []); (7, [])]
    | Throw _ _ => True
    | OutOfFuel => False
    end.
Proof.
  intros l w1 st.
  destruct (C1_subscribe_reducerKey inert (ret tt) "k" 7 0
              {| currentReducer := counter; currentState := VNum 3;
                 currentListeners := [GlobalListener] |} (one_counter "k" 3))
    as (H1 & H2 & _ & _ & H5); [reflexivity | reflexivity | reflexivity |].
  split; [exact H1|]. split.
  - apply (H2 (set_heap [st] w1) st (VNum 3)); reflexivity.
  - apply (H5 0 [(0, inc); (0, noop); (0, inc)]).
    + apply Forall_nil_2.
    + apply Forall_nil_2.
    + apply Forall_cons. split; [reflexivity | apply Forall_nil_2].
Defined.

(** C1 as stated fails for the empty reducer key, which [subscribe] takes
    for no reducer key at all.  A store is registered under [""], another
    under ["core/other"], and callback 7 subscribes with reducer key [""].
    A dispatch to the other store leaves the state under [""] what it was,
    0 before and 0 after, and yet the callback is called. *)
Lemma C1_counterexample_empty_reducerKey :
  returned
    ((let* own := Data.registerReducer "" counter in
      let* other := Data.registerReducer "core/other" counter in
      let* _ := Data.subscribe (Some "") None 7 in
      let* before := Redux.getState own in
      let* _ := Redux.dispatch
                  (Data.call_listener (Data.globalListener inert 1))
                  other inc in
      let* after := Redux.getState own in
      let* called := gets calls in
      ret (before, after, called)) empty_world)
  = Some (VNum 0, VNum 0, [(7, [])]).
Proof. vm_compute. reflexivity. Qed.

(** C2, amended.  [subscribe( reducerKey, selector, listener )] with a
    non-empty reducer key under which a store is registered, and a selector
    (a non-empty name, or an array of a name and arguments) registered for
    that store, adds a wrapper that remembers the store's state and the
    selector's result at that moment.  At every notification the listener is
    called exactly when the store's state is not ([!==]) the state at the
    previous notification and the selector's result on it is not ([!==]) the
    result at the previous notification; it is called with the new result as
    its one argument; and the wrapper is then ready for the next notification
    in the same way.  A notification is what the dispatch of any registered
    store ends with: it reduces, then calls the entries of the listener list
    in order, the wrapper among them, once.  Over a whole run of dispatches
    from the subscription on, the callbacks calling nothing back and the
    listener having no other subscription, the run never hangs, and when
    every dispatch returns the listener has been called exactly once, with
    the new result, for each dispatch after which both the state and the
    result are not what they were after the previous dispatch. *)
Theorem C2_subscribe_selector (handlers : nat → list val → list cmd)
    (notify : M unit) (reducerKey : string) (selector : Selector)
    (name : string) (sargs : list val) (raw : val → list val → val)
    (cb store : nat) (st0 : Store) (w0 : World) :
  truthy_str reducerKey = true →
  Data.truthy_selector (Some selector) = true →
  Data.selector_parts (Some selector) = (name, sargs) →
  stores w0 !! reducerKey = Some store →
  heap w0 !! store = Some st0 →
  registered_selector w0 reducerKey name store raw →
  let c1 := length (cells w0) in
  let c2 := S c1 in
  let l := WhenResult c2 reducerKey name sargs
             (WhenState c1 store (Callback cb)) in
  let w1 := set_listeners (listeners w0 ++ [l])
              (set_cells (cells w0 ++ [currentState st0;
                                       raw (currentState st0) sargs]) w0) in
  Data.subscribe (Some reducerKey) (Some selector) cb w0 = Ok l w1
  ∧ Observed c1 c2 raw sargs (currentState st0) w1
  ∧ (∀ (w : World) (st : Store) (prev : val),
       registered_selector w reducerKey name store raw →
       heap w !! store = Some st →
       Observed c1 c2 raw sargs prev w →
       let s := currentState st in
       let r := raw s sargs in
       let changed := strict_neq r (raw prev sargs) in
       let w' := set_cells (if changed
                            then <[c1 := s]> (<[c2 := r]> (cells w))
                            else <[c2 := r]> (cells w)) w in
       Data.invoke handlers notify l [] w
         = (if strict_neq s prev && changed
            then Data.call_callback handlers notify cb [r]
            else ret tt) w'
       ∧ Observed c1 c2 raw sargs s w')
  ∧ (∀ (fuel : nat) (w : World) (any : nat) (st : Store) (a : action)
       (before after : list Listener),
       heap w !! any = Some st →
       currentListeners st = [GlobalListener] →
       listeners w = before ++ l :: after →
       let call x :=
         Data.invoke handlers (Data.globalListener handlers fuel) x [] in
       Redux.dispatch
           (Data.call_listener (Data.globalListener handlers (S fuel))) any a w
         = (let* _ := forEach call before in
            let* _ := call l in
            let* _ := forEach call after in
            ret a) (reduced any st a w))
  ∧ (∀ (fuel : nat) (ds : list (nat * action)),
       well_formed w0 → unheard cb w0 → all_registered (heap w0) →
       match dispatch_all inert (S fuel) ds w1 with
       | Ok _ w' =>
           calls_of cb w'
             = calls_of cb w0
                 ++ expected_calls cb (report_result raw sargs) store (heap w0)
                      (currentState st0) ds
       | Throw _ _ => True
       | OutOfFuel => False
       end).
Proof.
  intros Hk Hsel Hparts Hs Hh Hreg c1 c2 l w1.
  split; [|split; [|split; [|split]]].
  - by apply subscribe_selector_eq.
  - apply Observed_subscribed.
  - intros w st prev Hreg' Hst Hobs.
    by apply notify_selector_subscription.
  - intros. by apply dispatch_reaches_listener.
  - intros. by apply selector_subscription_run.
Qed.

Lemma C2_subscribe_selector_witness :
  let l := WhenResult 1 "k" "isBig" [] (WhenState 0 0 (Callback 7)) in
  let w0 := counter_with_isBig "k" 5 in
  let w1 := set_listeners [l] (set_cells [VNum 5; VBool false] w0) in
  let st : Store := {| currentReducer := counter; currentState := VNum 6;
                       currentListeners := [GlobalListener] |} in
  Data.subscribe (Some "k") (Some (SelArray ["isBig"])) 7 w0 = Ok l w1
  ∧ Data.invoke inert (ret tt) l [] (set_heap [st] w1)
    = Data.call_callback inert (ret tt) 7 [VBool true]
        (set_cells [VNum 6; VBool true] (set_heap [st] w1))
  ∧ match dispatch_all inert 1 [(0, noop); (0, inc); (0, inc)] w1 with
    | Ok _ w' => calls_of 7 w' = [(7, [VBool true])]
    | Throw _ _ => True
    | OutOfFuel => False
    end.
Proof.
  intros l w0 w1 st.
  destruct (C2_subscribe_selector inert (ret tt) "k"
              (SelArray ["isBig"]) "isBig" [] isBig 7 0
              {| currentReducer := counter; currentState := VNum 5;
                 currentListeners := [GlobalListener] |} w0)
    as (H1 & H2 & H3 & _ & H5);
    [reflexivity | reflexivity | reflexivity | reflexivity | reflexivity
    | eexists; split; reflexivity |].
  split; [exact H1|]. split.
  - refine (proj1 (H3 (set_heap [st] w1) st (VNum 5) _ _ _)).
    + eexists; split; reflexivity.
    + reflexivity.
    + exact H2.
  - apply (H5 0 [(0, noop); (0, inc); (0, inc)]).
    + apply Forall_nil_2.
    + apply Forall_nil_2.
    + apply Forall_cons. split; [reflexivity | apply Forall_nil_2].
Defined.

(** C2 as stated fails for the empty reducer key.  A store with the selector
    [isBig] is registered under [""], another store under ["core/other"],
    and callback 7 subscribes with reducer key [""] and selector [isBig].
    A dispatch to the other store changes neither the state under [""] nor
    the selector's result, and yet the callback is called, and without an
    argument. *)
Lemma C2_counterexample_empty_reducerKey :
  returned
    ((let* own := Data.registerReducer "" counter in
      let* _ := Data.registerSelectors "" {[ "isBig" := isBig ]} in
      let* other := Data.registerReducer "core/other" counter in
      let* _ := Data.subscribe (Some "") (Some (SelArray ["isBig"])) 7 in
      let* before := Redux.getState own in
      let* resultBefore := Data.select_deprecated "" "isBig" [] in
      let* _ := Redux.dispatch
                  (Data.call_listener (Data.globalListener inert 1))
                  other inc in
      let* after := Redux.getState own in
      let* resultAfter := Data.select_deprecated "" "isBig" [] in
      let* called := gets calls in
      ret (before, resultBefore, after, resultAfter, called)) empty_world)
  = Some (VNum 0, VBool false, VNum 0, VBool false, [(7, [])]).
Proof. vm_compute. reflexivity. Qed.

(** The same for an empty selector name, which [subscribe] takes for no
    selector: the callback is called when the state changes although the
    result of the selector registered under that name does not, and without
    an argument. *)
Lemma C2_empty_selector_name :
  returned
    ((let* own := Data.registerReducer "k" counter in
      let* _ := Data.registerSelectors "k" {[ "" := isBig ]} in
      let* _ := Data.subscribe (Some "k") (Some (SelName "")) 7 in
      let* resultBefore := Data.select_deprecated "k" "" [] in
      let* _ := Redux.dispatch
                  (Data.call_listener (Data.globalListener inert 1))
                  own inc in
      let* resultAfter := Data.select_deprecated "k" "" [] in
      let* called := gets calls in
      ret (resultBefore, resultAfter, called)) empty_world)
  = Some (VBool false, VBool false, [(7, [])]).
Proof. vm_compute. reflexivity. Qed.

(** ** Unsubscribing *)

(** *** Invariants of notification

    A property [I] of the world that no step of the data module breaks, as
    long as the callbacks subscribed are [allowed] and the callbacks the
    listener list leads to are [callable]. *)

Section Invariant.

Variable I : World → Prop.
Variable allowed callable : nat → Prop.

Hypothesis I_heap : ∀ w h,
  I w → length h = length (heap w) → I (set_heap h w).
Hypothesis I_cells : ∀ w c, I w → I (set_cells c w).
Hypothesis I_call : ∀ w cb args,
  I w → callable cb → I (set_calls (calls w ++ [(cb, args)]) w).
Hypothesis I_push : ∀ w l,
  I w → allowed (callback_of l) → I (set_listeners (listeners w ++ [l]) w).
Hypothesis I_without : ∀ w l,
  I w → I (set_listeners (Data.without (listeners w) l) w).
Hypothesis I_listeners : ∀ w,
  I w → Forall (λ l, callable (callback_of l)) (listeners w).

Lemma keeps_ret {A} (a : A) (Q : A → Prop) : Q a → keeps I (ret a) Q.
Proof. intros H w Hw. simpl. auto. Qed.

Lemma keeps_throw {A} e (Q : A → Prop) : keeps I (throw e) Q.
Proof. intros w Hw. simpl. auto. Qed.

Lemma keeps_bind {A B} (m : M A) (k : A → M B) Q R :
  keeps I m Q → (∀ a, Q a → keeps I (k a) R) → keeps I (bind m k) R.
Proof.
  intros Hm Hk w Hw. unfold bind. specialize (Hm w Hw).
  destruct (m w) as [a w1|e w1|]; [|done|done].
  destruct Hm as (Ha & Hw1). exact (Hk a Ha w1 Hw1).
Qed.

Lemma keeps_gets {A} (f : World → A) (Q : A → Prop) :
  (∀ w, I w → Q (f w)) → keeps I (gets f) Q.
Proof. intros H w Hw. simpl. auto. Qed.

Lemma keeps_modify (f : World → World) :
  (∀ w, I w → I (f w)) → keeps I (modify f) (λ _, True).
Proof. intros H w Hw. simpl. auto. Qed.

Lemma keeps_forEach {A} (f : A → M unit) (xs : list A) :
  Forall (λ x, keeps I (f x) (λ _, True)) xs →
  keeps I (forEach f xs) (λ _, True).
Proof.
  induction 1 as [|x xs Hx Hxs IH]; simpl.
  - by apply keeps_ret.
  - eapply keeps_bind; [exact Hx|]. intros _ _. exact IH.
Qed.

Lemma keeps_getState store : keeps I (Redux.getState store) (λ _, True).
Proof.
  intros w Hw. unfold Redux.getState. destruct (heap w !! store); simpl; auto.
Qed.

Lemma keeps_getStateOf store : keeps I (Data.getStateOf store) (λ _, True).
Proof.
  destruct store; simpl; [apply keeps_getState | apply keeps_throw].
Qed.

Lemma keeps_new_cell v : keeps I (Data.new_cell v) (λ _, True).
Proof. intros w Hw. simpl. auto. Qed.

Lemma keeps_write_cell c v : keeps I (Data.write_cell c v) (λ _, True).
Proof. apply keeps_modify. auto. Qed.

Lemma keeps_read_cell c : keeps I (Data.read_cell c) (λ _, True).
Proof. by apply keeps_gets. Qed.

Lemma keeps_call_selector obj name args :
  keeps I (Data.call_selector obj name args) (λ _, True).
Proof.
  unfold Data.call_selector. destruct obj as [o|]; [|apply keeps_throw].
  destruct (o !! name) as [b|]; [|apply keeps_throw].
  eapply keeps_bind; [apply keeps_getStateOf|].
  intros. by apply keeps_ret.
Qed.

Lemma keeps_getResult reducerKey name args :
  keeps I (Data.getResult reducerKey name args) (λ _, True).
Proof.
  unfold Data.getResult.
  eapply keeps_bind; [by apply (keeps_gets _ (λ _, True))|].
  intros. apply keeps_call_selector.
Qed.

Lemma keeps_stateChanged c store :
  keeps I (Data.stateChanged c store) (λ _, True).
Proof.
  unfold Data.stateChanged.
  eapply keeps_bind; [apply keeps_getState|]. intros state _.
  eapply keeps_bind; [apply keeps_read_cell|]. intros last _.
  eapply keeps_bind; [apply keeps_write_cell|]. intros.
  by apply keeps_ret.
Qed.

Lemma keeps_resultChanged c reducerKey name args :
  keeps I (Data.resultChanged c reducerKey name args) (λ _, True).
Proof.
  unfold Data.resultChanged.
  eapply keeps_bind; [apply keeps_getResult|]. intros result _.
  eapply keeps_bind; [apply keeps_read_cell|]. intros last _.
  eapply keeps_bind; [apply keeps_write_cell|]. intros.
  by apply keeps_ret.
Qed.

Lemma keeps_subscribe reducerKey selector cb :
  allowed cb →
  keeps I (Data.subscribe reducerKey selector cb) (λ _, True).
Proof.
  intros Hcb. unfold Data.subscribe.
  eapply (keeps_bind _ _ (λ l, callback_of l = cb)).
  - destruct reducerKey as [key|]; [|by apply keeps_ret].
    destruct (truthy_str key); [|by apply keeps_ret].
    eapply keeps_bind; [by apply (keeps_gets _ (λ _, True))|].
    intros [store|] _; [|apply keeps_throw].
    eapply keeps_bind; [apply keeps_getState|]. intros s _.
    eapply keeps_bind; [apply keeps_new_cell|]. intros c _.
    destruct (Data.truthy_selector selector); [|by apply keeps_ret].
    destruct (Data.selector_parts selector) as [name args].
    eapply keeps_bind; [apply keeps_getResult|]. intros r _.
    eapply keeps_bind; [apply keeps_new_cell|]. intros c' _.
    by apply keeps_ret.
  - intros l Hl.
    eapply keeps_bind; [|intros; by apply keeps_ret].
    apply keeps_modify. intros w Hw. apply I_push; [done|]. by rewrite Hl.
Qed.

Lemma keeps_unsubscribe l : keeps I (Data.unsubscribe l) (λ _, True).
Proof. apply keeps_modify. intros w Hw. by apply I_without. Qed.

Section Step.

Variable handlers : nat → list val → list cmd.
Hypothesis handlers_permitted :
  ∀ cb args, Forall (permitted allowed) (handlers cb args).

Variable notify : M unit.
Hypothesis keeps_notify : keeps I notify (λ _, True).

Lemma keeps_Redux_dispatch store a :
  keeps I (Redux.dispatch (Data.call_listener notify) store a) (λ _, True).
Proof.
  intros w Hw. unfold Redux.dispatch.
  destruct (heap w !! store) as [st|]; [|simpl; auto].
  match goal with |- context [ bind ?m ?k ?w' ] =>
    assert (Hq : keeps I (bind m k) (λ _, True));
    [|apply (Hq w'); apply I_heap; [done | by rewrite length_insert]] end.
  eapply keeps_bind; [|intros; by apply keeps_ret].
  apply keeps_forEach. apply Forall_forall. intros [] _. exact keeps_notify.
Qed.

Lemma keeps_call_action obj name args :
  keeps I (Data.call_action notify obj name args) (λ _, True).
Proof.
  unfold Data.call_action. destruct obj as [o|]; [|apply keeps_throw].
  destruct (o !! name) as [b|]; [|apply keeps_throw].
  unfold Data.dispatchTo. destruct (act_store b); [|apply keeps_throw].
  apply keeps_Redux_dispatch.
Qed.

Lemma keeps_exec c :
  permitted allowed c → keeps I (Data.exec notify c) (λ _, True).
Proof.
  destruct c as [key name args|store a|key sel cb'|l]; simpl; intros Hc.
  - eapply keeps_bind; [by apply (keeps_gets _ (λ _, True))|].
    intros obj _.
    eapply keeps_bind; [apply keeps_call_action|].
    intros. by apply keeps_ret.
  - eapply keeps_bind; [apply keeps_Redux_dispatch|].
    intros. by apply keeps_ret.
  - eapply keeps_bind; [by apply keeps_subscribe|].
    intros. by apply keeps_ret.
  - apply keeps_unsubscribe.
Qed.

Lemma keeps_call_callback cb args :
  callable cb →
  keeps I (Data.call_callback handlers notify cb args) (λ _, True).
Proof.
  intros Hcb. unfold Data.call_callback.
  eapply keeps_bind.
  - apply keeps_modify. intros w Hw. by apply I_call.
  - intros _ _. apply keeps_forEach.
    eapply Forall_impl; [apply handlers_permitted|].
    intros c Hc. by apply keeps_exec.
Qed.

Lemma keeps_invoke l args :
  callable (callback_of l) →
  keeps I (Data.invoke handlers notify l args) (λ _, True).
Proof.
  revert args. induction l as [cb'|c store f IH|c key name sargs f IH];
    intros args Hl; simpl in *.
  - by apply keeps_call_callback.
  - unfold Data.when.
    eapply keeps_bind; [apply keeps_stateChanged|].
    intros [] _; [by apply IH | by apply keeps_ret].
  - unfold Data.whenWith.
    eapply keeps_bind; [apply keeps_resultChanged|].
    intros [[] r] _; [by apply IH | by apply keeps_ret].
Qed.

Lemma keeps_globalListener_body :
  keeps I (Data.globalListener_body handlers notify) (λ _, True).
Proof.
  unfold Data.globalListener_body.
  eapply (keeps_bind _ _ (Forall (λ l, callable (callback_of l)))).
  - by apply keeps_gets.
  - intros ls Hls. apply keeps_forEach.
    eapply Forall_impl; [exact Hls|].
    intros l Hl. by apply keeps_invoke.
Qed.

End Step.

Lemma keeps_globalListener handlers fuel :
  (∀ cb args, Forall (permitted allowed) (handlers cb args)) →
  keeps I (Data.globalListener handlers fuel) (λ _, True).
Proof.
  intros Hh. induction fuel as [|fuel IH]; simpl.
  - by intros w Hw.
  - by apply keeps_globalListener_body.
Qed.

(** Whatever is done next, and whatever the listeners called do, [I]
    holds in the world reached. *)
Lemma keeps_commands handlers fuel (cmds : list cmd) w w' :
  (∀ cb args, Forall (permitted allowed) (handlers cb args)) →
  Forall (permitted allowed) cmds →
  I w →
  final (forEach (Data.exec (Data.globalListener handlers fuel)) cmds w)
    = Some w' →
  I w'.
Proof.
  intros Hh Hcmds Hw Hfin.
  assert (Hq : keeps I
                 (forEach (Data.exec (Data.globalListener handlers fuel)) cmds)
                 (λ _, True)).
  { apply keeps_forEach. eapply Forall_impl; [exact Hcmds|].
    intros c Hc. apply keeps_exec; [by apply keeps_globalListener | done]. }
  specialize (Hq w Hw).
  destruct (forEach _ cmds w) as [[] w1|e w1|]; simpl in Hfin;
    [injection Hfin as <-|injection Hfin as <-|done].
  - by destruct Hq.
  - done.
Qed.

End Invariant.

(** As long as nobody subscribes [cb], a callback that no listener leads to
    stays so and is never called. *)
Lemma unheard_never_called cb handlers fuel (cmds : list cmd) w w' :
  (∀ cb' args, Forall (avoids cb) (handlers cb' args)) →
  Forall (avoids cb) cmds →
  unheard cb w →
  final (forEach (Data.exec (Data.globalListener handlers fuel)) cmds w)
    = Some w' →
  unheard cb w' ∧ calls_of cb w' = calls_of cb w.
Proof.
  intros Hh Hcmds Hw Hfin.
  apply (keeps_commands
           (λ w', unheard cb w' ∧ calls_of cb w' = calls_of cb w)
           (λ cb', cb' ≠ cb) (λ cb', cb' ≠ cb))
    with handlers fuel cmds w; try done.
  - intros w1 c args [? Hc] Hne. split; [done|]. rewrite <- Hc.
    unfold calls_of. simpl. rewrite filter_app.
    rewrite filter_cons_False by done. by rewrite app_nil_r.
  - intros w1 l [Hun ?] Hne. split; [|done].
    unfold unheard in *. simpl. apply Forall_app. split; [done|].
    by apply Forall_singleton.
  - intros w1 l [Hun ?]. split; [|done].
    unfold unheard, Data.without in *. simpl.
    rewrite Forall_forall in *. intros x Hx.
    apply list_elem_of_filter in Hx as [_ Hx]. by apply Hun.
  - by intros w1 [? ?].
Qed.

(** As long as nobody subscribes [cb], an entry that leads to [cb] and is
    not in the listener list does not come back into it, whatever else
    leads to [cb]. *)
Lemma absent_stays_absent l handlers fuel (cmds : list cmd) w w' :
  (∀ cb' args, Forall (avoids (callback_of l)) (handlers cb' args)) →
  Forall (avoids (callback_of l)) cmds →
  l ∉ listeners w →
  final (forEach (Data.exec (Data.globalListener handlers fuel)) cmds w)
    = Some w' →
  l ∉ listeners w'.
Proof.
  intros Hh Hcmds Hw Hfin.
  apply (keeps_commands (λ w', l ∉ listeners w')
           (λ cb', cb' ≠ callback_of l) (λ _, True))
    with handlers fuel cmds w; try done.
  - intros w1 x Hx Hne. simpl. rewrite elem_of_app, list_elem_of_singleton.
    intros [?| ->]; [done|]. by apply Hne.
  - intros w1 x Hx. unfold Data.without. simpl.
    rewrite list_elem_of_filter. by intros [_ ?].
  - intros w1 _. by apply Forall_forall.
Qed.

(** Without a reducer key (none, or the empty string) the listener goes
    into the list as it is. *)
Lemma subscribe_bare reducerKey selector cb w :
  truthy_opt reducerKey = false →
  Data.subscribe reducerKey selector cb w
    = Ok (Callback cb) (set_listeners (listeners w ++ [Callback cb]) w).
Proof.
  intros Hk. unfold Data.subscribe.
  destruct reducerKey as [key|]; [|done]. simpl in Hk. by rewrite Hk.
Qed.

(** What [subscribe] adds is what its [unsubscribe] will take out. *)
Lemma subscribe_adds reducerKey selector cb w0 l w1 :
  Data.subscribe reducerKey selector cb w0 = Ok l w1 →
  listeners w1 = listeners w0 ++ [l] ∧ callback_of l = cb.
Proof.
  unfold Data.subscribe.
  destruct reducerKey as [key|]; [destruct (truthy_str key)|].
  2,3: intros [= <- <-]; done.
  unfold bind at 1. unfold bind at 1. unfold gets at 1.
  destruct (stores w0 !! key) as [store|]; [|done].
  unfold bind at 1. unfold Redux.getState at 1.
  destruct (heap w0 !! store) as [st|]; [|done].
  unfold bind at 1. unfold Data.new_cell at 1.
  destruct (Data.truthy_selector selector).
  - destruct (Data.selector_parts selector) as [name args].
    unfold bind at 1.
    destruct (Data.getResult key name args _) as [r w|e w|] eqn:E; [|done|done].
    assert (w = set_cells (cells w0 ++ [currentState st]) w0) as ->.
    { unfold Data.getResult, bind, gets, Data.call_selector in E.
      simpl in E. destruct (selectors w0 !! key) as [o|]; [|done].
      destruct (o !! name) as [b|]; [|done].
      unfold bind, Data.getStateOf in E. destruct (sel_store b); [|done].
      unfold Redux.getState in E. simpl in E.
      destruct (heap w0 !! n); [|done]. by injection E as _ <-. }
    intros [= <- <-]. done.
  - intros [= <- <-]. done.
Qed.

(** C9.  Every [subscribe] that returns has added one entry [l] at the end
    of the listener list.  Calling its [unsubscribe], in whatever world,
    returns, and the listener list is then the old one without the entries
    equal to [l], the others kept as they were and in their order, nothing
    else in the world being touched.  If the same bare listener (subscribed
    without reducer key, so that no wrapper is made) is subscribed twice, one
    [unsubscribe] takes out both entries.  And after unsubscribing, whatever
    follows (dispatches to the stores, by actions or directly, other
    subscriptions and unsubscriptions, made at top level or by the listeners
    called), as long as the callback is not subscribed again: the entry is
    never again in the listener list, whose entries are all that a store
    update calls; and if no entry left in the list leads to the callback,
    the callback is never called. *)
Theorem C9_unsubscribe (handlers : nat → list val → list cmd)
    (reducerKey : option string) (selector : option Selector) (cb : nat)
    (w0 w1 : World) (l : Listener) :
  Data.subscribe reducerKey selector cb w0 = Ok l w1 →
  listeners w1 = listeners w0 ++ [l]
  ∧ callback_of l = cb
  ∧ (∀ w : World,
       let w' := set_listeners (filter (λ x, x ≠ l) (listeners w)) w in
       Data.unsubscribe l w = Ok tt w'
       ∧ (l ∉ listeners w')
       ∧ (∀ x, x ≠ l → x ∈ listeners w → x ∈ listeners w')
       ∧ (listeners w' `sublist_of` listeners w)
       ∧ (∀ (fuel : nat) (cmds : list cmd) (w'' : World),
            (∀ cb' args, Forall (avoids cb) (handlers cb' args)) →
            Forall (avoids cb) cmds →
            final (forEach (Data.exec (Data.globalListener handlers fuel))
                     cmds w') = Some w'' →
            (l ∉ listeners w'')
            ∧ (unheard cb w' → calls_of cb w'' = calls_of cb w')))
  ∧ (∀ (reducerKey' : option string) (selector' : option Selector),
       truthy_opt reducerKey = false →
       truthy_opt reducerKey' = false →
       l = Callback cb
       ∧ ∃ w2, Data.subscribe reducerKey' selector' cb w1 = Ok l w2
           ∧ listeners w2 = listeners w0 ++ [l; l]
           ∧ Data.unsubscribe l w2
             = Ok tt (set_listeners (filter (λ x, x ≠ l) (listeners w0)) w2)).
Proof.
  intros Hsub. destruct (subscribe_adds _ _ _ _ _ _ Hsub) as [Hadd Hcb].
  split; [done|]. split; [done|]. split.
  - intros w w'. split; [done|]. split; [|split; [|split]].
    + subst w'. simpl. rewrite list_elem_of_filter. by intros [? _].
    + intros x Hx Hin. subst w'. simpl. by apply list_elem_of_filter.
    + subst w'. simpl. apply sublist_filter.
    + intros fuel cmds w'' Hav Hcmds Hfin. split.
      * rewrite <- Hcb in Hav, Hcmds.
        apply (absent_stays_absent l handlers fuel cmds w' w''); try done.
        subst w'. simpl. rewrite list_elem_of_filter. by intros [? _].
      * intros Hun.
        by destruct (unheard_never_called cb handlers fuel cmds w' w''
                       Hav Hcmds Hun Hfin).
  - intros reducerKey' selector' Hk Hk'.
    rewrite (subscribe_bare _ _ _ _ Hk) in Hsub. injection Hsub as <- <-.
    split; [done|].
    eexists. split; [by apply subscribe_bare|]. simpl. split.
    + by rewrite <- app_assoc.
    + unfold Data.unsubscribe, modify, Data.without. simpl.
      rewrite <- app_assoc, filter_app. simpl.
      rewrite !filter_cons_False by (intros H; by apply H).
      by rewrite filter_nil, app_nil_r.
Qed.

Lemma C9_unsubscribe_witness :
  let w0 := one_counter "k" 3 in
  let w1 := set_listeners [Callback 7] w0 in
  Data.unsubscribe (Callback 7) w1 = Ok tt w0
  ∧ ∃ w'', final (forEach (Data.exec (Data.globalListener inert 2))
                    [StoreDispatch 0 inc] w0) = Some w''
           ∧ calls_of 7 w'' = [].
Proof.
  intros w0 w1.
  destruct (C9_unsubscribe inert None None 7 w0 w1 (Callback 7)
              eq_refl) as (_ & _ & H & _).
  destruct (H w1) as (H1 & _ & _ & _ & H5).
  split; [exact H1|].
  eexists. split; [reflexivity|].
  refine (proj2 (H5 2 [StoreDispatch 0 inc] _ _ _ eq_refl) _).
  - intros cb' args. apply Forall_nil_2.
  - apply Forall_cons. split; [exact Logic.I | apply Forall_nil_2].
  - apply Forall_nil_2.
Defined.

(** ** The edit-post wiring *)

(** Dispatching, and whatever the listeners then do, registers nothing. *)
Lemma dispatch_same_registry handlers fuel store a w :
  match Redux.dispatch
          (Data.call_listener (Data.globalListener handlers fuel)) store a w with
  | Ok _ w' | Throw _ w' => same_registry w w'
  | OutOfFuel => True
  end.
Proof.
  assert (Hp : ∀ cb args, Forall (permitted (λ _, True)) (handlers cb args)).
  { intros cb args. apply Forall_forall. by intros [] _. }
  assert (Hheap : ∀ (w1 : World) (h : list Store),
            same_registry w w1 → length h = length (heap w1) →
            same_registry w (set_heap h w1)).
  { intros w1 h (? & ? & ? & Hl) E. repeat split; try done.
    simpl. by rewrite E. }
  assert (Hk : keeps (same_registry w)
                 (Redux.dispatch
                    (Data.call_listener (Data.globalListener handlers fuel))
                    store a) (λ _, True)).
  { apply keeps_Redux_dispatch; [exact Hheap|].
    apply keeps_globalListener with (allowed := λ _, True) (callable := λ _, True); try done.
    intros w1 _. by apply Forall_forall. }
  specialize (Hk w). unfold same_registry at 1 in Hk.
  specialize (Hk ltac:(done)).
  destruct (Redux.dispatch _ store a w); [by destruct Hk | done | done].
Qed.

Lemma registerStore_eq reducerKey r acts sels w :
  ∃ wa, Data.registerStore reducerKey
          {| Data.reducer := Some r; Data.opt_actions := Some acts;
             Data.opt_selectors := Some sels |} w
        = Ok (length (heap w)) wa
    ∧ stores wa = <[reducerKey := length (heap w)]> (stores w)
    ∧ selectors wa
      = <[reducerKey := (λ s, {| sel_store := Some (length (heap w));
                                 sel_raw := s |}) <$> sels]> (selectors w)
    ∧ actions wa
      = <[reducerKey := (λ a, {| act_store := Some (length (heap w));
                                 act_creator := a |}) <$> acts]> (actions w)
    ∧ heap wa = heap w ++ [ {| currentReducer := r;
                               currentState := r VUndefined INIT;
                               currentListeners := [GlobalListener] |} ]
    ∧ listeners wa = listeners w ∧ cells wa = cells w ∧ calls wa = calls w.
Proof.
  eexists. split.
  - unfold Data.registerStore. simpl.
    unfold bind at 1. rewrite registerReducer_eq.
    unfold bind at 1. rewrite registerActions_eq.
    unfold bind at 1. rewrite registerSelectors_eq.
    reflexivity.
  - simpl. rewrite !lookup_insert_eq. done.
Qed.


(** A result that differs from the previous one, the results being
    comparable with themselves, comes from a state that differs. *)
Lemma changed_result_new_state (raw : val → list val → val) args s prev :
  raw prev args ≠ VNaN →
  strict_neq (raw s args) (raw prev args) = true →
  strict_neq s prev = true.
Proof.
  intros Hnan Hch. apply strict_neq_of_ne. intros ->.
  apply strict_neq_true in Hch. rewrite strict_eq_refl in Hch; done.
Qed.




(** ** [withSelect] *)






(** ** [ifCondition] *)

(** C10, amended.  Without a prop name (none given, or the empty string),
    the wrapper returns [null] exactly when [predicate( props )] is falsy and
    otherwise renders the wrapped component with the props as they came.
    With a non-empty prop name it always renders the wrapped component, with
    the props and, under that name, the predicate's result. *)
Theorem C10_ifCondition (predicate : IfCondition.Props → val)
    (propName : option string) (props : IfCondition.Props) :
  (truthy_opt propName = false →
     IfCondition.ifCondition predicate propName props
       = if truthy (predicate props) then IfCondition.Wrapped props
         else IfCondition.Null)
  ∧ (∀ name, propName = Some name → name ≠ "" →
       IfCondition.ifCondition predicate propName props
         = IfCondition.Wrapped (<[name := predicate props]> props)).
Proof.
  unfold IfCondition.ifCondition. split.
  - intros H. rewrite H. simpl.
    destruct (truthy (predicate props)); simpl; [|done].
    destruct propName as [name|]; [|done]. simpl in H. by rewrite H.
  - intros name -> Hname. apply truthy_str_true in Hname.
    simpl. by rewrite Hname.
Qed.

Lemma C10_ifCondition_witness :
  IfCondition.ifCondition (λ _, VBool false) None {[ "number" := VNum 3 ]}
    = IfCondition.Null
  ∧ IfCondition.ifCondition (λ _, VBool false) (Some "isEven")
      {[ "number" := VNum 3 ]}
    = IfCondition.Wrapped
        (<["isEven" := VBool false]> {[ "number" := VNum 3 ]}).
Proof.
  split.
  - apply (C10_ifCondition (λ _, VBool false) None {[ "number" := VNum 3 ]}).
    reflexivity.
  - apply (C10_ifCondition (λ _, VBool false) (Some "isEven")
             {[ "number" := VNum 3 ]}); [reflexivity | discriminate].
Defined.

(** C10 as stated fails for the empty prop name: the predicate being falsy,
    nothing is rendered although a prop name was passed. *)
Lemma C10_counterexample_empty_propName :
  IfCondition.ifCondition (λ _, VBool false) (Some "") {[ "number" := VNum 3 ]}
    = IfCondition.Null.
Proof. reflexivity. Qed.

(** ** [PreserveScrollInReorder] *)

(** An update that reorders the blocks while a block is selected and in the
    document, with a scroll container, and with a recorded offset that is not
    zero: the scroll position is set to the sum the code computes, in the
    order and the arithmetic it computes it in. *)
Lemma update_restores_nonzero_offset (before after : PreserveScroll.Dom)
    (nextProps : PreserveScroll.Props) (i : PreserveScroll.Instance)
    (previous top : float) :
  strict_neq (PreserveScroll.blockOrder nextProps)
    (PreserveScroll.blockOrder (PreserveScroll.props i)) = true →
  truthy_opt (PreserveScroll.selectionStart nextProps) = true →
  PreserveScroll.blockTop before (PreserveScroll.selectionStart nextProps)
    = Some previous →
  PreserveScroll.truthy_offset (Some previous) = true →
  PreserveScroll.blockTop after (PreserveScroll.selectionStart nextProps)
    = Some top →
  PreserveScroll.hasScrollContainer after = true →
  PreserveScroll.update before after nextProps i
    = (PreserveScroll.set_scrollTop
         (PrimFloat.sub (PrimFloat.add (PreserveScroll.scrollTop before) top)
            previous) after,
       {| PreserveScroll.props := nextProps;
          PreserveScroll.previousOffset := None |}).
Proof.
  intros Horder Hsel Hprev Hnz Htop Hsc.
  unfold PreserveScroll.update, PreserveScroll.componentWillUpdate.
  rewrite Horder, Hsel. simpl.
  unfold PreserveScroll.setPreviousOffset. rewrite Hprev. simpl.
  unfold PreserveScroll.componentDidUpdate.
  cbn [PreserveScroll.previousOffset]. rewrite Hnz.
  unfold PreserveScroll.restorePreviousOffset.
  cbn [PreserveScroll.props PreserveScroll.previousOffset
       PreserveScroll.blockTop PreserveScroll.set_scrollTop
       PreserveScroll.hasScrollContainer PreserveScroll.scrollTop].
  rewrite Htop, Hsc. done.
Qed.

(** An update that does not reorder the blocks, or without a selection
    start, the instance holding no offset (none, or the offset 0 that
    [componentDidUpdate] takes for none): the document is left as it is. *)
Lemma update_without_reorder (before after : PreserveScroll.Dom)
    (nextProps : PreserveScroll.Props) (i : PreserveScroll.Instance) :
  PreserveScroll.truthy_offset (PreserveScroll.previousOffset i) = false →
  strict_neq (PreserveScroll.blockOrder nextProps)
      (PreserveScroll.blockOrder (PreserveScroll.props i))
    && truthy_opt (PreserveScroll.selectionStart nextProps) = false →
  PreserveScroll.update before after nextProps i
    = (PreserveScroll.set_scrollTop (PreserveScroll.scrollTop before) after,
       {| PreserveScroll.props := nextProps;
          PreserveScroll.previousOffset := PreserveScroll.previousOffset i |}).
Proof.
  intros Hnone Hno.
  unfold PreserveScroll.update, PreserveScroll.componentWillUpdate.
  rewrite Hno. unfold PreserveScroll.componentDidUpdate. simpl.
  by rewrite Hnone.
Qed.

(** No update leaves an offset that [componentDidUpdate] would act on
    later. *)
Lemma update_leaves_no_offset (before after : PreserveScroll.Dom)
    (nextProps : PreserveScroll.Props) (i : PreserveScroll.Instance) :
  PreserveScroll.truthy_offset
    (PreserveScroll.previousOffset
       (PreserveScroll.update before after nextProps i).2) = false.
Proof.
  unfold PreserveScroll.update, PreserveScroll.componentDidUpdate.
  cbn [PreserveScroll.previousOffset].
  destruct (PreserveScroll.truthy_offset
              (PreserveScroll.previousOffset
                 (PreserveScroll.componentWillUpdate before nextProps i)))
    eqn:E; [reflexivity | exact E].
Qed.

(** C8 fails on the code when the selected block sits at top offset 0
    before the reorder.  The blocks are reordered (the [blockOrder] array is
    another one), block ["b"] is selected, its top offset is 0 before and 50
    after, and there is a scroll container scrolled to 100.  The offset 0 is
    recorded, but [componentDidUpdate] takes it for no offset: the scroll
    position stays 100 instead of moving to 150, and the offset stays
    recorded. *)
Lemma C8_offset_zero_is_not_restored :
  let before := {| PreserveScroll.blockTop := λ _, Some 0%float;
                   PreserveScroll.hasScrollContainer := true;
                   PreserveScroll.scrollTop := 100%float |} in
  let after := {| PreserveScroll.blockTop := λ _, Some 50%float;
                  PreserveScroll.hasScrollContainer := true;
                  PreserveScroll.scrollTop := 100%float |} in
  let nextProps := {| PreserveScroll.blockOrder := VRef 2;
                      PreserveScroll.selectionStart := Some "b" |} in
  let i := {| PreserveScroll.props :=
                {| PreserveScroll.blockOrder := VRef 1;
                   PreserveScroll.selectionStart := Some "b" |};
              PreserveScroll.previousOffset := None |} in
  PreserveScroll.componentWillUpdate before nextProps i
    = {| PreserveScroll.props := PreserveScroll.props i;
         PreserveScroll.previousOffset := Some 0%float |}
  ∧ PreserveScroll.scrollTop
      (PreserveScroll.update before after nextProps i).1 = 100%float
  ∧ PreserveScroll.previousOffset
      (PreserveScroll.update before after nextProps i).2 = Some 0%float.
Proof. repeat split. Qed.

(** ** Runs

    The operations run from the empty world, end to end. *)

(** A listener subscribed to ["a"]: a dispatch to ["b"] does not call it, a
    dispatch that changes the state of ["a"] does, a dispatch that leaves it
    the same does not. *)
Example run_reducerKey_subscription :
  returned
    ((let* a := Data.registerReducer "a" counter in
      let* b := Data.registerReducer "b" counter in
      let* _ := Data.subscribe (Some "a") None 7 in
      let* _ := dispatches inert 1 b inc 1 in
      let* calls1 := gets calls in
      let* _ := dispatches inert 1 a inc 1 in
      let* calls2 := gets calls in
      let* _ := dispatches inert 1 a noop 1 in
      let* calls3 := gets calls in
      ret (calls1, calls2, calls3)) empty_world)
  = Some ([], [(7, [])], [(7, [])]).
Proof. vm_compute. reflexivity. Qed.

(** A listener subscribed to the selector [isBig]: of seven increments from
    0, only the sixth changes the result, and the listener is called once,
    with the new result. *)
Example run_selector_subscription :
  returned
    ((let* a := Data.registerReducer "a" counter in
      let* _ := Data.registerSelectors "a" {[ "isBig" := isBig ]} in
      let* _ := Data.subscribe (Some "a") (Some (SelName "isBig")) 7 in
      let* _ := dispatches inert 1 a inc 5 in
      let* calls1 := gets calls in
      let* _ := dispatches inert 1 a inc 2 in
      let* calls2 := gets calls in
      ret (calls1, calls2)) empty_world)
  = Some ([], [(7, [VBool true])]).
Proof. vm_compute. reflexivity. Qed.

(** The wrapper watches the store object it found under the key when
    subscribing: with another store registered under the key afterwards, a
    dispatch to the new store does not call the listener, a dispatch to the
    old one does. *)
Example run_store_captured_at_subscription :
  returned
    ((let* old := Data.registerReducer "a" counter in
      let* _ := Data.subscribe (Some "a") None 7 in
      let* new := Data.registerReducer "a" counter in
      let* _ := dispatches inert 1 new inc 1 in
      let* calls1 := gets calls in
      let* _ := dispatches inert 1 old inc 1 in
      let* calls2 := gets calls in
      ret (old, new, calls1, calls2)) empty_world)
  = Some (0, 1, [], [(7, [])]).
Proof. vm_compute. reflexivity. Qed.

(** The wiring at work: the viewport counter goes from 0 to 7; when it gets
    big the callback is called once, with [true], and dispatches
    [closeGeneralSidebar()], which the edit-post counter counts. *)
Example run_wiring :
  returned
    ((let handlers := λ _ args, EditPost.collapseSidebar args in
      let* viewport := Data.registerReducer "core/viewport" counter in
      let* _ := Data.registerSelectors "core/viewport"
                  {[ "isViewportMatch" := isBig ]} in
      let* wired := EditPost.wiring handlers counter
                      {[ "closeGeneralSidebar" := λ _, inc ]} ∅ 2 None 7 in
      let* _ := dispatches handlers 2 viewport inc 7 in
      let* sidebar := Redux.getState wired.1 in
      let* called := gets calls in
      ret (sidebar, called)) empty_world)
  = Some (VNum 1, [(7, [VBool true])]).
Proof. vm_compute. reflexivity. Qed.

(** Unsubscribing in the middle of a round: listener 1 unsubscribes
    listener 2, which comes after it.  The round goes on over the list it
    started with, so 2 is still called in it; the next round does not call
    it. *)
Example run_unsubscribe_within_round :
  returned
    ((let* a := Data.registerReducer "a" counter in
      let* _ := Data.subscribe None None 1 in
      let* _ := Data.subscribe None None 2 in
      let* _ := dispatches one_unsubscribes_two 1 a inc 1 in
      let* calls1 := gets calls in
      let* _ := dispatches one_unsubscribes_two 1 a inc 1 in
      let* calls2 := gets calls in
      ret (calls1, calls2)) empty_world)
  = Some ([(1, []); (2, [])], [(1, []); (2, []); (1, [])]).
Proof. vm_compute. reflexivity. Qed.

(** Out of fuel: a callback that dispatches at every call never lets the
    first dispatch return. *)
Example run_callback_that_always_dispatches :
  (let* a := Data.registerReducer "a" counter in
   let* _ := Data.subscribe None None 1 in
   dispatches (λ _ _, [StoreDispatch 0 inc]) 5 a inc 1) empty_world
  = OutOfFuel.
Proof. vm_compute. reflexivity. Qed.

(** * Further properties *)

(** ** Missing keys *)

(** X1.  [subscribe] with a non-empty reducer key under which no store is
    registered throws a [TypeError] and leaves the world as it was.  With a
    store under the key but no selector of the given name registered for the
    key, it throws too: the listener list is as it was, no subscription is
    made (only the [lastState] variable of the wrapper that was being made
    has come into being).  (Keys and names that no object inherits.) *)
Theorem X1_subscribe_unregistered (reducerKey : string)
    (selector : option Selector) (cb : nat) (w : World) :
  truthy_str reducerKey = true →
  inherited reducerKey = false →
  (stores w !! reducerKey = None →
     Data.subscribe (Some reducerKey) selector cb w
       = Throw (TypeError "Cannot read property 'getState' of undefined") w)
  ∧ (∀ (store : nat) (st : Store) (name : string) (sargs : list val),
       stores w !! reducerKey = Some store →
       heap w !! store = Some st →
       Data.truthy_selector selector = true →
       Data.selector_parts selector = (name, sargs) →
       inherited name = false →
       (∀ obj, selectors w !! reducerKey = Some obj → obj !! name = None) →
       ∃ e, Data.subscribe (Some reducerKey) selector cb w
              = Throw e (set_cells (cells w ++ [currentState st]) w)).
Proof.
  intros Hk _. split.
  - intros Hs. unfold Data.subscribe. rewrite Hk.
    unfold bind, gets. by rewrite Hs.
  - intros store st name sargs Hs Hh Hsel Hparts _ Hnone.
    unfold Data.subscribe. rewrite Hk, Hsel, Hparts.
    unfold bind at 1. unfold bind at 1. unfold gets at 1. rewrite Hs.
    unfold bind at 1. rewrite (getState_eq _ _ _ Hh).
    unfold bind at 1. unfold Data.new_cell at 1.
    unfold bind at 1. unfold Data.getResult, bind, gets.
    cbn [selectors set_cells].
    destruct (selectors w !! reducerKey) as [obj|] eqn:Eo.
    + unfold Data.call_selector. rewrite (Hnone obj eq_refl). by eexists.
    + by eexists.
Qed.

Lemma X1_subscribe_unregistered_witness :
  Data.subscribe (Some "nobody") None 7 (one_counter "k" 3)
    = Throw (TypeError "Cannot read property 'getState' of undefined")
        (one_counter "k" 3)
  ∧ ∃ e, Data.subscribe (Some "k") (Some (SelName "isBig")) 7 (one_counter "k" 3)
           = Throw e (set_cells [VNum 3] (one_counter "k" 3)).
Proof.
  destruct (X1_subscribe_unregistered "nobody" None 7 (one_counter "k" 3)
              eq_refl eq_refl) as [H _].
  split; [by apply H|].
  destruct (X1_subscribe_unregistered "k" (Some (SelName "isBig")) 7
              (one_counter "k" 3) eq_refl eq_refl) as [_ H'].
  apply (H' 0 {| currentReducer := counter; currentState := VNum 3;
                 currentListeners := [GlobalListener] |} "isBig" []);
    try reflexivity.
  intros obj Hobj. discriminate Hobj.
Defined.

(** X2.  Reading through [select] changes nothing, whatever is or is not
    registered: [select( key )[ name ]( ...args )] returns or throws in the
    world it was called in, no store has reduced anything and no listener
    has been called.  And calling a selector or an action that is not there,
    with nothing registered under the key or nothing of that name, throws,
    the world being as it was.  (A key and a name that no object
    inherits.) *)
Theorem X2_missing_selector_or_action (notify : M unit) (key name : string)
    (args : list val) (w : World) :
  inherited key = false →
  inherited name = false →
  final ((let* obj := Data.select key in
          Data.call_selector obj name args) w) = Some w
  ∧ ((∀ obj, selectors w !! key = Some obj → obj !! name = None) →
     ∃ e, (let* obj := Data.select key in
           Data.call_selector obj name args) w = Throw e w)
  ∧ ((∀ obj, actions w !! key = Some obj → obj !! name = None) →
     ∃ e, (let* obj := Data.dispatch key in
           Data.call_action notify obj name args) w = Throw e w).
Proof.
  intros _ _. split; [|split; intros Hnone].
  - unfold bind, Data.select, gets, Data.call_selector.
    destruct (selectors w !! key) as [obj|]; [|done].
    destruct (obj !! name) as [b|]; [|done].
    unfold bind, Data.getStateOf. destruct (sel_store b) as [store|]; [|done].
    unfold Redux.getState. by destruct (heap w !! store).
  - unfold bind, Data.select, gets.
    destruct (selectors w !! key) as [obj|] eqn:Eo; simpl.
    + rewrite (Hnone obj eq_refl). by eexists.
    + by eexists.
  - unfold bind, Data.dispatch, gets.
    destruct (actions w !! key) as [obj|] eqn:Eo; simpl.
    + rewrite (Hnone obj eq_refl). by eexists.
    + by eexists.
Qed.

Lemma X2_missing_selector_or_action_witness :
  (∃ e, (let* obj := Data.select "k" in
         Data.call_selector obj "isSmall" []) (counter_with_isBig "k" 3)
        = Throw e (counter_with_isBig "k" 3))
  ∧ (∃ e, (let* obj := Data.dispatch "k" in
           Data.call_action (ret tt) obj "inc" []) (counter_with_isBig "k" 3)
          = Throw e (counter_with_isBig "k" 3)).
Proof.
  destruct (X2_missing_selector_or_action (ret tt) "k" "isSmall" []
              (counter_with_isBig "k" 3) eq_refl eq_refl) as (_ & H1 & _).
  destruct (X2_missing_selector_or_action (ret tt) "k" "inc" []
              (counter_with_isBig "k" 3) eq_refl eq_refl) as (_ & _ & H2).
  split.
  - apply H1. intros obj Hobj. injection Hobj as <-. reflexivity.
  - apply H2. intros obj Hobj. discriminate Hobj.
Defined.

(** X3.  Selectors and actions registered under a key before any store is:
    the registration succeeds, but the functions it makes have captured no
    store, and calling them throws a [TypeError] in every later world that
    still holds them, also once a store has been registered under the key.
    The world is as it was: nothing is dispatched.  (A key that no object
    inherits.) *)
Theorem X3_registered_before_the_store (notify : M unit) (key : string)
    (newSelectors : gmap string (val → list val → val))
    (newActions : gmap string (list val → action)) (w : World) :
  inherited key = false →
  stores w !! key = None →
  ∃ w1, (let* _ := Data.registerSelectors key newSelectors in
         Data.registerActions key newActions) w = Ok tt w1
    ∧ ∀ (w2 : World) (name : string) (args : list val),
        selectors w2 !! key = selectors w1 !! key →
        actions w2 !! key = actions w1 !! key →
        (is_Some (newSelectors !! name) →
           (let* obj := Data.select key in
            Data.call_selector obj name args) w2
             = Throw (TypeError "Cannot read property 'getState' of undefined")
                 w2)
        ∧ (is_Some (newActions !! name) →
           (let* obj := Data.dispatch key in
            Data.call_action notify obj name args) w2
             = Throw (TypeError "Cannot read property 'dispatch' of undefined")
                 w2).
Proof.
  intros _ Hs. eexists. split.
  - unfold bind at 1. rewrite registerSelectors_eq.
    rewrite registerActions_eq. reflexivity.
  - intros w2 name args Hsel Hact. simpl in Hsel, Hact.
    rewrite lookup_insert_eq in Hsel. rewrite lookup_insert_eq in Hact.
    rewrite Hs in Hsel, Hact. split.
    + intros [raw Hraw]. unfold bind, Data.select, gets. rewrite Hsel. simpl.
      by rewrite lookup_fmap, Hraw.
    + intros [creator Hc]. unfold bind, Data.dispatch, gets. rewrite Hact.
      simpl. by rewrite lookup_fmap, Hc.
Qed.

Lemma X3_registered_before_the_store_witness :
  ∃ w1 w2 store,
    (let* _ := Data.registerSelectors "k" {[ "isBig" := isBig ]} in
     Data.registerActions "k" {[ "inc" := λ _, inc ]}) empty_world = Ok tt w1
    ∧ Data.registerReducer "k" counter w1 = Ok store w2
    ∧ Data.select_deprecated "k" "isBig" [] w2
      = Throw (TypeError "Cannot read property 'getState' of undefined") w2.
Proof.
  destruct (X3_registered_before_the_store (ret tt) "k" {[ "isBig" := isBig ]}
              {[ "inc" := λ _, inc ]} empty_world eq_refl eq_refl)
    as (w1 & H1 & H2).
  exists w1. eexists. eexists.
  split; [exact H1|]. split; [apply registerReducer_eq|].
  match goal with |- _ ?w2 = _ =>
    refine (proj1 (H2 w2 "isBig" [] eq_refl eq_refl) _) end.
  by eexists.
Defined.

(** X4.  [registerSelectors] replaces what was registered under the key: a
    name that the new object does not have is gone, whatever was registered
    under it before.  Calling it throws, and a listener subscribed to it,
    which looks the selector up at every notification, throws a [TypeError]
    at every notification from then on, without touching the world.  (Names
    that no object inherits.) *)
Theorem X4_registerSelectors_replaces (handlers : nat → list val → list cmd)
    (notify : M unit) (key : string)
    (newSelectors : gmap string (val → list val → val)) (w : World) :
  ∃ w1, Data.registerSelectors key newSelectors w = Ok tt w1
    ∧ ∀ (w2 : World) (name : string),
        inherited name = false →
        newSelectors !! name = None →
        selectors w2 !! key = selectors w1 !! key →
        (∀ args, (let* obj := Data.select key in
                  Data.call_selector obj name args) w2
                 = Throw (TypeError "is not a function") w2)
        ∧ (∀ c sargs ifTrueFn args,
             Data.invoke handlers notify
               (WhenResult c key name sargs ifTrueFn) args w2
               = Throw (TypeError "is not a function") w2).
Proof.
  eexists. split; [apply registerSelectors_eq|].
  intros w2 name _ Hnone Hsel. simpl in Hsel.
  rewrite lookup_insert_eq in Hsel.
  split.
  - intros args. unfold bind, Data.select, gets. rewrite Hsel. simpl.
    by rewrite lookup_fmap, Hnone.
  - intros c sargs f args. simpl.
    unfold Data.whenWith, Data.resultChanged, Data.getResult, bind, gets.
    rewrite Hsel. simpl. by rewrite lookup_fmap, Hnone.
Qed.

Lemma X4_registerSelectors_replaces_witness :
  ∃ w1, Data.registerSelectors "k" {[ "isSmall" := isBig ]}
          (counter_with_isBig "k" 3) = Ok tt w1
    ∧ Data.invoke inert (ret tt)
        (WhenResult 1 "k" "isBig" [] (WhenState 0 0 (Callback 7))) [] w1
      = Throw (TypeError "is not a function") w1.
Proof.
  destruct (X4_registerSelectors_replaces inert (ret tt) "k"
              {[ "isSmall" := isBig ]} (counter_with_isBig "k" 3))
    as (w1 & H1 & H2).
  exists w1. split; [exact H1|].
  apply (H2 w1 "isBig"); reflexivity.
Defined.

(** ** Rounds of notification *)

Lemma settled_refl w : settled w w.
Proof. by repeat split. Qed.

Lemma settled_trans w1 w2 w3 : settled w1 w2 → settled w2 w3 → settled w1 w3.
Proof.
  intros (H1 & H2 & H3 & H4) (G1 & G2 & G3 & G4). repeat split; congruence.
Qed.

Lemma undisturbed_settled keep cb w w' : undisturbed keep cb w w' → settled w w'.
Proof. intros (? & ? & ? & ? & _). by repeat split. Qed.

(** With callbacks that call nothing back, a round of notification returns
    or throws, and touches neither the stores nor the registry nor the
    listener list. *)
Lemma forEach_inert_settled notify (xs : list Listener) w :
  match forEach (λ x, Data.invoke inert notify x []) xs w with
  | Ok _ w' | Throw _ w' => settled w w'
  | OutOfFuel => False
  end.
Proof.
  revert w. induction xs as [|x xs IH]; intros w.
  - apply settled_refl.
  - cbn [forEach]. unfold bind.
    pose proof (invoke_inert_undisturbed [] (S (callback_of x)) notify x [] w)
      as Hx.
    lapply Hx; [clear Hx; intros Hx|by intros c Hc; inversion Hc].
    lapply Hx; [clear Hx; intros Hx|lia].
    destruct (Data.invoke inert notify x [] w) as [[] w1|e w1|]; [| |done].
    + specialize (IH w1).
      destruct (forEach _ xs w1) as [[] w2|e w2|]; [| |done];
        (eapply settled_trans; [by eapply undisturbed_settled|done]).
    + by eapply undisturbed_settled.
Qed.

Lemma globalListener_inert_settled fuel w :
  match Data.globalListener inert (S fuel) w with
  | Ok _ w' | Throw _ w' => settled w w'
  | OutOfFuel => False
  end.
Proof.
  cbn [Data.globalListener]. unfold Data.globalListener_body, bind, gets.
  apply forEach_inert_settled.
Qed.

(** A dispatch to a registered store, the callbacks calling nothing back. *)
Lemma dispatch_inert_settled fuel store st a w :
  heap w !! store = Some st →
  currentListeners st = [GlobalListener] →
  match Redux.dispatch (Data.call_listener (Data.globalListener inert (S fuel)))
          store a w with
  | Ok a' w' => a' = a ∧ settled (reduced store st a w) w'
  | Throw _ w' => settled (reduced store st a w) w'
  | OutOfFuel => False
  end.
Proof.
  intros Hst Hls. rewrite (Redux_dispatch_eq _ _ st) by done. rewrite Hls.
  cbn [forEach Data.call_listener]. unfold bind, ret.
  pose proof (globalListener_inert_settled fuel (reduced store st a w)) as H.
  by destruct (Data.globalListener inert (S fuel) _) as [[] w'|e w'|].
Qed.

(** X5.  What is registered is read back: after [registerStore], the
    callbacks calling nothing back, [dispatch( key )[ action ]( ...args )]
    never hangs, and whether it returns or a listener throws, the store has
    reduced the action: [select( key )[ selector ]( ...sargs )] then returns
    the raw selector's result on the reducer's answer to the action from the
    initial state. *)
Theorem X5_register_dispatch_select (fuel : nat) (key : string)
    (r : val → action → val) (acts : gmap string (list val → action))
    (sels : gmap string (val → list val → val)) (w0 : World) :
  ∃ store w1,
    Data.registerStore key
      {| Data.reducer := Some r; Data.opt_actions := Some acts;
         Data.opt_selectors := Some sels |} w0 = Ok store w1
    ∧ ∀ (aname sname : string) (creator : list val → action)
        (raw : val → list val → val) (args sargs : list val),
        acts !! aname = Some creator →
        sels !! sname = Some raw →
        match (let* obj := Data.dispatch key in
               Data.call_action (Data.globalListener inert (S fuel)) obj aname
                 args) w1 with
        | Ok _ w2 | Throw _ w2 =>
            (let* obj := Data.select key in
             Data.call_selector obj sname sargs) w2
              = Ok (raw (r (r VUndefined INIT) (creator args)) sargs) w2
        | OutOfFuel => False
        end.
Proof.
  destruct (registerStore_eq key r acts sels w0)
    as (w1 & E1 & Hs & Hsel & Hact & Hh & _).
  exists (length (heap w0)), w1. split; [exact E1|].
  intros aname sname creator raw args sargs Hc Hraw.
  set (st := {| currentReducer := r; currentState := r VUndefined INIT;
                currentListeners := [GlobalListener] |}).
  assert (Hst : heap w1 !! length (heap w0) = Some st).
  { rewrite Hh, lookup_app_r by done. by rewrite Nat.sub_diag. }
  unfold bind at 1. unfold Data.dispatch at 1. unfold gets at 1.
  rewrite Hact, lookup_insert_eq. unfold Data.call_action.
  rewrite lookup_fmap, Hc. cbn [fmap option_fmap option_map act_store act_creator
                                 Data.dispatchTo].
  pose proof (dispatch_inert_settled fuel (length (heap w0)) st (creator args)
                w1 Hst eq_refl) as Hd.
  assert (Hread : ∀ w2, settled (reduced (length (heap w0)) st (creator args) w1)
                          w2 →
            (let* obj := Data.select key in
             Data.call_selector obj sname sargs) w2
              = Ok (raw (r (r VUndefined INIT) (creator args)) sargs) w2).
  { intros w2 (Hh2 & Hs2 & _). unfold bind, Data.select, gets.
    rewrite Hs2. cbn [selectors reduced set_heap]. rewrite Hsel.
    rewrite lookup_insert_eq. unfold Data.call_selector.
    rewrite lookup_fmap, Hraw. cbn [fmap option_fmap option_map sel_store
                                     sel_raw Data.getStateOf].
    unfold bind, Redux.getState. rewrite Hh2. cbn [heap reduced set_heap].
    rewrite list_lookup_insert_eq by by eapply lookup_lt_Some. done. }
  destruct (Redux.dispatch _ _ _ w1) as [a' w2|e w2|]; [| |done].
  - apply Hread. by destruct Hd.
  - by apply Hread.
Qed.

Lemma X5_register_dispatch_select_witness :
  match (let* _ := Data.registerStore "k"
                     {| Data.reducer := Some counter;
                        Data.opt_actions := Some {[ "inc" := λ _, inc ]};
                        Data.opt_selectors := Some {[ "isBig" := isBig ]} |} in
         let* obj := Data.dispatch "k" in
         Data.call_action (Data.globalListener inert 1) obj "inc" [])
          empty_world with
  | Ok _ w2 | Throw _ w2 => Data.select_deprecated "k" "isBig" [] w2
                            = Ok (VBool false) w2
  | OutOfFuel => False
  end.
Proof.
  destruct (X5_register_dispatch_select 0 "k" counter {[ "inc" := λ _, inc ]}
              {[ "isBig" := isBig ]} empty_world) as (store & w1 & H1 & H2).
  unfold bind at 1. rewrite H1.
  apply (H2 "inc" "isBig" (λ _, inc) isBig [] []); reflexivity.
Defined.

(** ** A reducer key registered twice *)

(** X6.  [registerReducer] on a key that has a store puts a new store under
    the key and leaves the selectors and actions bound to the first one.  So
    after [registerStore( key, ... )], [registerReducer( key, r2 )] and
    [subscribe( key, listener )], a call of a registered action still reduces
    the first store, never the one now under the key, and the listener, which
    watches the store now under the key, is not called. *)
Theorem X6_reducer_registered_again (fuel : nat) (key : string)
    (r1 r2 : val → action → val) (acts : gmap string (list val → action))
    (sels : gmap string (val → list val → val)) (cb : nat) (w0 : World) :
  truthy_str key = true →
  well_formed w0 →
  unheard cb w0 →
  strict_eq (r2 VUndefined INIT) (r2 VUndefined INIT) = true →
  ∃ old new l w2,
    (let* old := Data.registerStore key
                   {| Data.reducer := Some r1; Data.opt_actions := Some acts;
                      Data.opt_selectors := Some sels |} in
     let* new := Data.registerReducer key r2 in
     let* l := Data.subscribe (Some key) None cb in
     ret (old, new, l)) w0 = Ok (old, new, l) w2
    ∧ old ≠ new
    ∧ stores w2 !! key = Some new
    ∧ ∀ (aname : string) (creator : list val → action) (args : list val),
        acts !! aname = Some creator →
        match (let* obj := Data.dispatch key in
               Data.call_action (Data.globalListener inert (S fuel)) obj aname
                 args) w2 with
        | Ok _ w3 | Throw _ w3 =>
            Redux.getState old w3
              = Ok (r1 (r1 VUndefined INIT) (creator args)) w3
            ∧ Redux.getState new w3 = Ok (r2 VUndefined INIT) w3
            ∧ calls_of cb w3 = calls_of cb w0
        | OutOfFuel => False
        end.
Proof.
  intros Hkey Hwf Hun Hself.
  destruct (registerStore_eq key r1 acts sels w0)
    as (w1 & E1 & Hs1 & Hsel1 & Hact1 & Hh1 & Hl1 & Hc1 & Hcalls1).
  set (n := length (heap w0)) in *.
  set (st1 := {| currentReducer := r1; currentState := r1 VUndefined INIT;
                 currentListeners := [GlobalListener] |}) in *.
  set (st2 := {| currentReducer := r2; currentState := r2 VUndefined INIT;
                 currentListeners := [GlobalListener] |}).
  set (c := length (cells w0)).
  set (l := WhenState c (S n) (Callback cb)).
  assert (Hn1 : length (heap w1) = S n).
  { rewrite Hh1, length_app. simpl. lia. }
  pose (w1' := set_heap (heap w1 ++ [st2])
                 (set_stores (<[key := S n]> (stores w1)) w1)).
  pose (w2 := set_listeners (listeners w1' ++ [l])
                (set_cells (cells w0 ++ [currentState st2]) w1')).
  assert (Hst2 : heap w1' !! S n = Some st2).
  { subst w1'. cbn [heap set_heap]. rewrite lookup_app_r by lia.
    by rewrite Hn1, Nat.sub_diag. }
  exists n, (S n), l, w2. split; [|split; [lia|split]].
  - unfold bind at 1. rewrite E1. unfold bind at 1.
    rewrite registerReducer_eq, Hn1. fold st2. fold w1'.
    unfold bind at 1.
    rewrite (subscribe_reducerKey_eq key cb (S n) st2 w1' Hkey);
      [|subst w1'; cbn [stores set_heap set_stores];
        by rewrite lookup_insert_eq|exact Hst2].
    change (cells w1') with (cells w1). rewrite Hc1. done.
  - subst w2 w1'. cbn [stores set_listeners set_cells set_heap set_stores].
    by rewrite lookup_insert_eq.
  - intros aname creator args Hcr.
    assert (Hact2 : actions w2 !! key
                    = Some ((λ a, {| act_store := Some n; act_creator := a |})
                              <$> acts)).
    { subst w2 w1'. cbn [actions set_listeners set_cells set_heap set_stores].
      by rewrite Hact1, lookup_insert_eq. }
    assert (Hheap2 : heap w2 = heap w0 ++ [st1; st2]).
    { subst w2 w1'. cbn [heap set_listeners set_cells set_heap set_stores].
      rewrite Hh1, <- app_assoc. done. }
    assert (Hls2 : listeners w2 = listeners w0 ++ [l]).
    { subst w2 w1'. cbn [listeners set_listeners set_cells set_heap set_stores].
      by rewrite Hl1. }
    assert (Hcells2 : cells w2 = cells w0 ++ [r2 VUndefined INIT]).
    { subst w2 w1'.
      by cbn [cells set_listeners set_cells set_heap set_stores]. }
    assert (Hcalls2 : calls w2 = calls w0).
    { subst w2 w1'. by cbn [calls set_listeners set_cells set_heap set_stores]. }
    clearbody w2. clear w1' Hst2.
    assert (Hold : heap w2 !! n = Some st1).
    { rewrite Hheap2, lookup_app_r by (subst n; lia).
      subst n. by rewrite Nat.sub_diag. }
    unfold bind at 1. unfold Data.dispatch at 1. unfold gets at 1.
    rewrite Hact2. unfold Data.call_action. rewrite lookup_fmap, Hcr.
    cbn [fmap option_fmap option_map act_store act_creator Data.dispatchTo].
    rewrite (Redux_dispatch_eq _ _ st1) by done.
    cbn [currentListeners st1 forEach Data.call_listener Data.globalListener].
    unfold Data.globalListener_body.
    unfold bind at 1 2 3. unfold gets at 1.
    change (listeners (reduced n st1 (creator args) w2)) with (listeners w2).
    rewrite Hls2, forEach_app. unfold bind at 1.
    set (wr := reduced n st1 (creator args) w2).
    assert (Hwr : heap wr = <[n := {| currentReducer := r1;
                    currentState := r1 (r1 VUndefined INIT) (creator args);
                    currentListeners := [GlobalListener] |}]>
                    (heap w0 ++ [st1; st2])).
    { subst wr. unfold reduced. cbn [heap set_heap]. by rewrite Hheap2. }
    assert (Hread : ∀ w3, undisturbed [c] cb wr w3 →
              Redux.getState n w3
                = Ok (r1 (r1 VUndefined INIT) (creator args)) w3
              ∧ Redux.getState (S n) w3 = Ok (r2 VUndefined INIT) w3
              ∧ calls_of cb w3 = calls_of cb w0).
    { intros w3 (Hh3 & _ & _ & _ & _ & Hc3). unfold Redux.getState.
      rewrite Hh3, Hwr. split; [|split].
      - rewrite list_lookup_insert_eq; [done|].
        rewrite length_app. simpl. subst n. lia.
      - rewrite list_lookup_insert_ne by lia.
        rewrite lookup_app_r by (subst n; lia).
        subst n. replace (S (length (heap w0)) - length (heap w0)) with 1
          by lia. done.
      - rewrite Hc3. subst wr. unfold calls_of, reduced. cbn [calls set_heap].
        by rewrite Hcalls2. }
    pose proof (forEach_inert_undisturbed [c] cb
                  (Data.globalListener inert fuel) (listeners w0) wr) as Hfe.
    lapply Hfe; [clear Hfe; intros Hfe|].
    2: { unfold well_formed, unheard in *. rewrite Forall_forall in *.
         intros x Hx. split; [|by apply Hun].
         intros c' Hc' Hin. apply list_elem_of_singleton in Hc' as ->.
         specialize (Hwf x Hx). rewrite Forall_forall in Hwf.
         specialize (Hwf c Hin). subst c. lia. }
    destruct (forEach _ (listeners w0) wr) as [[] wa|e wa|]; [| |done].
    2: by apply Hread.
    cbn [forEach]. unfold bind at 1.
    assert (Hsta : heap wa !! S n = Some st2).
    { destruct Hfe as (Hh & _). rewrite Hh, Hwr.
      rewrite list_lookup_insert_ne by lia.
      rewrite lookup_app_r by (subst n; lia).
      subst n. replace (S (length (heap w0)) - length (heap w0)) with 1
        by lia. done. }
    subst l. rewrite (invoke_WhenState _ _ _ _ _ _ st2) by done.
    assert (Hcell : cells wa !! c = Some (r2 VUndefined INIT)).
    { destruct Hfe as (_ & _ & _ & _ & Hk & _).
      rewrite Hk by apply list_elem_of_here.
      subst wr. unfold reduced. cbn [cells set_heap]. rewrite Hcells2.
      rewrite lookup_app_r by (subst c; lia). subst c.
      by rewrite Nat.sub_diag. }
    rewrite Hcell. cbn [default currentState st2 from_option id].
    unfold strict_neq. rewrite Hself. cbn [negb]. unfold ret, bind.
    apply Hread. eapply undisturbed_trans; [exact Hfe|].
    repeat split; cbn [heap selectors listeners cells set_cells].
    + by rewrite length_insert.
    + intros c' Hc'. apply list_elem_of_singleton in Hc' as ->.
      rewrite list_lookup_insert_eq; [done|]. by eapply lookup_lt_Some.
Qed.

Lemma X6_reducer_registered_again_witness :
  ∃ old new l w2,
    (let* old := Data.registerStore "k"
                   {| Data.reducer := Some counter;
                      Data.opt_actions := Some {[ "inc" := λ _, inc ]};
                      Data.opt_selectors := Some ∅ |} in
     let* new := Data.registerReducer "k" counter in
     let* l := Data.subscribe (Some "k") None 7 in
     ret (old, new, l)) empty_world = Ok (old, new, l) w2
    ∧ old ≠ new
    ∧ match (let* obj := Data.dispatch "k" in
             Data.call_action (Data.globalListener inert 1) obj "inc" []) w2 with
      | Ok _ w3 | Throw _ w3 =>
          Redux.getState old w3 = Ok (VNum 1) w3
          ∧ Redux.getState new w3 = Ok (VNum 0) w3
          ∧ calls_of 7 w3 = []
      | OutOfFuel => False
      end.
Proof.
  destruct (X6_reducer_registered_again 0 "k" counter counter
              {[ "inc" := λ _, inc ]} ∅ 7 empty_world eq_refl
              (Forall_nil_2 _) (Forall_nil_2 _) eq_refl)
    as (old & new & l & w2 & H1 & H2 & _ & H4).
  exists old, new, l, w2. split; [exact H1|]. split; [exact H2|].
  apply (H4 "inc" (λ _, inc) [] eq_refl).
Defined.

(** ** A listener that throws *)

(** X7.  A listener that throws ends the round: the dispatch throws what the
    listener threw.  The store has reduced the action by then, the listeners
    subscribed before the one that throws have been called, and those after
    it are not called in this round.  (Callbacks that call nothing back.) *)
Theorem X7_throwing_listener_ends_the_round (fuel : nat) (store : nat)
    (st : Store) (a : action) (w w1 w2 : World) (l : Listener)
    (before after : list Listener) (e : error) :
  heap w !! store = Some st →
  currentListeners st = [GlobalListener] →
  listeners w = before ++ l :: after →
  let call x := Data.invoke inert (Data.globalListener inert fuel) x [] in
  forEach call before (reduced store st a w) = Ok tt w1 →
  call l w1 = Throw e w2 →
  Redux.dispatch (Data.call_listener (Data.globalListener inert (S fuel)))
      store a w = Throw e w2
  ∧ Redux.getState store w2
      = Ok (currentReducer st (currentState st) a) w2
  ∧ listeners w2 = listeners w
  ∧ ∀ cb, Forall (λ x, callback_of x ≠ cb) (before ++ [l]) →
          calls_of cb w2 = calls_of cb w.
Proof.
  intros Hst Hls Hl call Hb Ht. subst call. cbv beta in Hb, Ht.
  rewrite (dispatch_reaches_listener inert fuel store st a w l before after)
    by done.
  cbv zeta. unfold bind at 1. rewrite Hb. unfold bind at 1. rewrite Ht.
  split; [done|].
  assert (Hfr : ∀ cb, Forall (λ x, callback_of x ≠ cb) (before ++ [l]) →
            undisturbed [] cb (reduced store st a w) w2).
  { intros cb Hcb. apply Forall_app in Hcb as [Hcb1 Hcb2].
    rewrite Forall_singleton in Hcb2.
    pose proof (forEach_inert_undisturbed [] cb
                  (Data.globalListener inert fuel) before
                  (reduced store st a w)) as H1.
    lapply H1; [clear H1; intros H1|].
    2: { eapply Forall_impl; [exact Hcb1|]. intros x Hx. split; [|done].
         intros c Hc. by apply elem_of_nil in Hc. }
    rewrite Hb in H1.
    pose proof (invoke_inert_undisturbed [] cb
                  (Data.globalListener inert fuel) l [] w1) as H2.
    lapply H2; [clear H2; intros H2|by intros c Hc; apply elem_of_nil in Hc].
    specialize (H2 Hcb2). rewrite Ht in H2.
    by eapply undisturbed_trans. }
  destruct (Hfr (S (Nat.max (callback_of l)
                       (foldr Nat.max 0 (callback_of <$> before)))))
    as (Hh & _ & Hl2 & _).
  { apply Forall_app. split; [|rewrite Forall_singleton; lia].
    apply Forall_forall. intros x Hx.
    assert (callback_of x ≤ foldr Nat.max 0 (callback_of <$> before))%nat;
      [|lia].
    clear -Hx. induction before as [|y ys IH]; [by apply elem_of_nil in Hx|].
    apply elem_of_cons in Hx as [->|Hx]; simpl; [lia|]. specialize (IH Hx).
    apply Nat.max_le_iff. right. exact IH. }
  split; [|split; [exact Hl2|]].
  - unfold Redux.getState. rewrite Hh. unfold reduced. cbn [heap set_heap].
    rewrite list_lookup_insert_eq; [done|]. by eapply lookup_lt_Some.
  - intros cb Hcb. by destruct (Hfr cb Hcb) as (_ & _ & _ & _ & _ & ->).
Qed.

Lemma X7_throwing_listener_ends_the_round_witness :
  let l := WhenResult 0 "k" "gone" [] (Callback 2) in
  let w := set_listeners [Callback 1; l; Callback 3]
             (set_cells [VUndefined] (counter_with_isBig "k" 0)) in
  ∃ e w2,
    Redux.dispatch (Data.call_listener (Data.globalListener inert 1)) 0 inc w
      = Throw e w2
    ∧ Redux.getState 0 w2 = Ok (VNum 1) w2
    ∧ calls_of 3 w2 = [].
Proof.
  intros l w.
  pose (st := {| currentReducer := counter; currentState := VNum 0;
                 currentListeners := [GlobalListener] |}).
  pose (w1 := set_calls [(1, [])] (reduced 0 st inc w)).
  destruct (X7_throwing_listener_ends_the_round 0 0 st inc w w1 w1 l
              [Callback 1] [Callback 3] (TypeError "is not a function")
              eq_refl eq_refl eq_refl eq_refl eq_refl) as (H1 & H2 & _ & H4).
  exists (TypeError "is not a function"), w1.
  split; [exact H1|]. split; [exact H2|].
  apply (H4 3). repeat constructor; discriminate.
Defined.

(** ** Listeners subscribed without a key *)

(** Calling one entry of the listener list records at most one call, of the
    callback the entry leads to.  (Callbacks that call nothing back.) *)
Lemma invoke_inert_calls notify x args w :
  match Data.invoke inert notify x args w with
  | Ok _ w' | Throw _ w' =>
      calls w' = calls w
      ∨ ∃ args', calls w' = calls w ++ [(callback_of x, args')]
  | OutOfFuel => False
  end.
Proof.
  revert args w.
  induction x as [cb'|c store f IH|c key name sargs f IH]; intros args w.
  - cbn [Data.invoke]. rewrite call_callback_inert. right. by eexists.
  - cbn [Data.invoke callback_of].
    unfold Data.when, Data.stateChanged, bind.
    unfold Redux.getState. destruct (heap w !! store) as [st|]; [|by left].
    cbn [gets modify Data.read_cell Data.write_cell ret].
    destruct (strict_neq _ _); [|by left].
    specialize (IH args (set_cells (<[c := currentState st]> (cells w)) w)).
    by destruct (Data.invoke inert notify f args _) as [[] w'|e w'|].
  - cbn [Data.invoke callback_of].
    unfold Data.whenWith, Data.resultChanged. unfold bind at 1. unfold bind at 1.
    destruct (Data.getResult key name sargs w) as [r w0|e w0|] eqn:Er.
    + assert (w0 = w) as ->.
      { unfold Data.getResult, bind, gets, Data.call_selector in Er.
        destruct (selectors w !! key) as [o|]; [|done].
        destruct (o !! name) as [b|]; [|done].
        unfold bind, Data.getStateOf in Er. destruct (sel_store b); [|done].
        unfold Redux.getState in Er.
        destruct (heap w !! n); [|done]. by injection Er as _ <-. }
      unfold bind.
      cbn [gets modify Data.read_cell Data.write_cell ret].
      destruct (strict_neq _ _); [|by left].
      specialize (IH [r] (set_cells (<[c := r]> (cells w)) w)).
      by destruct (Data.invoke inert notify f [r] _) as [[] w'|e w'|].
    + assert (w0 = w) as ->; [|by left].
      unfold Data.getResult, bind, gets, Data.call_selector in Er.
      destruct (selectors w !! key) as [o|]; [|by injection Er as _ <-].
      destruct (o !! name) as [b|]; [|by injection Er as _ <-].
      unfold bind, Data.getStateOf in Er.
      destruct (sel_store b); [|by injection Er as _ <-].
      unfold Redux.getState in Er.
      destruct (heap w !! n); [done|]. by injection Er as _ <-.
    + exfalso.
      unfold Data.getResult, bind, gets, Data.call_selector in Er.
      destruct (selectors w !! key) as [o|]; [|done].
      destruct (o !! name) as [b|]; [|done].
      unfold bind, Data.getStateOf in Er. destruct (sel_store b); [|done].
      unfold Redux.getState in Er. by destruct (heap w !! n).
Qed.

(** X8.  Listeners subscribed without a reducer key are called at every
    dispatch to a registered store, in the order they were subscribed, once
    per entry and without arguments, whether or not the action changed the
    state, and whatever listeners subscribed with a reducer key stand among
    them in the list: all of them when the dispatch returns, and, when a
    listener subscribed with a key throws, those before it and no other.
    [bare] tells the callbacks in question, which are subscribed without a
    key only.  (Callbacks that call nothing back.) *)
Theorem X8_bare_listeners_called_in_order (fuel : nat) (store : nat)
    (st : Store) (a : action) (w : World) (bare : nat → bool) :
  heap w !! store = Some st →
  currentListeners st = [GlobalListener] →
  (∀ x, x ∈ listeners w → bare (callback_of x) = true →
        x = Callback (callback_of x)) →
  let called (ls : list Listener) : list (nat * list val) :=
    (λ cb, (cb, [])) <$> filter (λ cb, bare cb = true) (callback_of <$> ls) in
  let of_bare (w : World) := filter (λ e, bare e.1 = true) (calls w) in
  match Redux.dispatch
          (Data.call_listener (Data.globalListener inert (S fuel)))
          store a w with
  | Ok a' w' => a' = a ∧ of_bare w' = of_bare w ++ called (listeners w)
  | Throw _ w' =>
      ∃ before l after,
        listeners w = before ++ l :: after
        ∧ bare (callback_of l) = false
        ∧ of_bare w' = of_bare w ++ called before
  | OutOfFuel => False
  end.
Proof.
  intros Hst Hls Hbare called of_bare.
  rewrite (Redux_dispatch_eq _ _ st) by done. rewrite Hls.
  cbn [forEach Data.call_listener Data.globalListener].
  unfold Data.globalListener_body. unfold bind at 1 2 3. unfold gets at 1.
  change (listeners (reduced store st a w)) with (listeners w).
  change (of_bare w) with (of_bare (reduced store st a w)).
  generalize (reduced store st a w). intros w0.
  set (notify := Data.globalListener inert fuel).
  assert (H : match forEach (λ x, Data.invoke inert notify x []) (listeners w)
                      w0 with
              | Ok _ w' => of_bare w' = of_bare w0 ++ called (listeners w)
              | Throw _ w' =>
                  ∃ before l after,
                    listeners w = before ++ l :: after
                    ∧ bare (callback_of l) = false
                    ∧ of_bare w' = of_bare w0 ++ called before
              | OutOfFuel => False
              end).
  { revert w0 Hbare. generalize (listeners w). clear.
    intros ls. induction ls as [|x ls IH]; intros w0 Hbare.
    - cbn [forEach ret]. subst called. cbn. by rewrite app_nil_r.
    - cbn [forEach]. unfold bind.
      assert (Hbare' : ∀ y, y ∈ ls → bare (callback_of y) = true →
                y = Callback (callback_of y)).
      { intros y Hy. apply Hbare. by apply list_elem_of_further. }
      destruct (bare (callback_of x)) eqn:Ex.
      + pose proof (Hbare x (list_elem_of_here _ _) Ex) as Hx.
        destruct x as [cb| |]; [clear Hx|discriminate Hx|discriminate Hx].
        cbn [callback_of] in *.
        cbn [Data.invoke]. rewrite call_callback_inert.
        set (w1 := set_calls _ w0).
        assert (Hw1 : of_bare w1 = of_bare w0 ++ [(cb, [])]).
        { subst of_bare w1. cbn [calls set_calls]. rewrite filter_app.
          by rewrite filter_cons_True by done. }
        assert (Hc : ∀ ys, called (Callback cb :: ys) = (cb, []) :: called ys).
        { intros ys. subst called. cbn [fmap list_fmap callback_of].
          by rewrite filter_cons_True by done. }
        specialize (IH w1 Hbare').
        destruct (forEach _ ls w1) as [[] w'|e w'|]; [| |done].
        * rewrite IH, Hw1, Hc, <- app_assoc. done.
        * destruct IH as (before & l & after & -> & Hl & Hw').
          exists (Callback cb :: before), l, after.
          split; [done|]. split; [done|].
          by rewrite Hw', Hw1, Hc, <- app_assoc.
      + pose proof (invoke_inert_calls notify x [] w0) as Hx.
        assert (Hc : called (x :: ls) = called ls).
        { subst called. cbn [fmap list_fmap].
          rewrite filter_cons_False; [done|]. by rewrite Ex. }
        destruct (Data.invoke inert notify x [] w0) as [[] w1|e w1|];
          [| |done].
        * assert (Hw1 : of_bare w1 = of_bare w0).
          { subst of_bare. cbv beta. destruct Hx as [->|[args' ->]]; [done|].
            rewrite filter_app, filter_cons_False; [|cbn; by rewrite Ex].
            by rewrite app_nil_r. }
          specialize (IH w1 Hbare').
          destruct (forEach _ ls w1) as [[] w'|e w'|]; [| |done].
          -- by rewrite IH, Hw1, Hc.
          -- destruct IH as (before & l & after & -> & Hl & Hw').
             exists (x :: before), l, after. split; [done|]. split; [done|].
             rewrite Hw', Hw1.
             assert (called (x :: before) = called before) as ->; [|done].
             subst called. cbn [fmap list_fmap].
             rewrite filter_cons_False; [done|]. by rewrite Ex.
        * exists [], x, ls. split; [done|]. split; [done|].
          subst of_bare called. cbv beta. cbn [fmap list_fmap].
          rewrite filter_nil. cbn [fmap list_fmap]. rewrite app_nil_r.
          destruct Hx as [->|[args' ->]]; [done|].
          rewrite filter_app, filter_cons_False; [|cbn; by rewrite Ex].
          by rewrite app_nil_r. }
  by destruct (forEach _ (listeners w) w0) as [[] w'|e w'|].
Qed.

Lemma X8_bare_listeners_called_in_order_witness :
  let w := set_listeners [Callback 2; WhenState 0 0 (Callback 5); Callback 1;
                          Callback 2]
             (set_cells [VNum 4] (one_counter "k" 4)) in
  let bare (cb : nat) := negb (Nat.eqb cb 5) in
  match Redux.dispatch (Data.call_listener (Data.globalListener inert 1))
          0 noop w with
  | Ok a' w' =>
      a' = noop
      ∧ filter (λ e, bare e.1 = true) (calls w') = [(2, []); (1, []); (2, [])]
  | Throw _ _ => False
  | OutOfFuel => False
  end.
Proof.
  intros w bare.
  pose proof (X8_bare_listeners_called_in_order 0 0
                {| currentReducer := counter; currentState := VNum 4;
                   currentListeners := [GlobalListener] |} noop w bare
                eq_refl eq_refl) as H.
  lapply H; [clear H; intros H|].
  - cbv zeta in H.
    destruct (Redux.dispatch _ 0 noop w) as [a' w'|e w'|] eqn:E;
      [exact H| |exact H].
    vm_compute in E. discriminate E.
  - intros x Hx Hb. subst w. cbn [listeners set_listeners] in Hx.
    repeat (apply elem_of_cons in Hx as [->|Hx]; [try reflexivity|]).
    + discriminate Hb.
    + by apply elem_of_nil in Hx.
Defined.

(** ** Subscriptions by reducer key *)

(** What [subscribe] with a reducer key returns: a wrapper around the
    listener, or a wrapper around that wrapper, with fresh variables. *)
Lemma subscribe_keyed_shape key selector cb w0 l w1 :
  truthy_str key = true →
  Data.subscribe (Some key) selector cb w0 = Ok l w1 →
  ∃ store vs,
    w1 = set_listeners (listeners w0 ++ [l]) (set_cells (cells w0 ++ vs) w0)
    ∧ ((l = WhenState (length (cells w0)) store (Callback cb)
        ∧ length vs = 1)
       ∨ (∃ name args,
            l = WhenResult (S (length (cells w0))) key name args
                  (WhenState (length (cells w0)) store (Callback cb))
            ∧ length vs = 2)).
Proof.
  intros Hk. unfold Data.subscribe. rewrite Hk.
  unfold bind at 1. unfold bind at 1. unfold gets at 1.
  destruct (stores w0 !! key) as [store|]; [|done].
  unfold bind at 1. unfold Redux.getState at 1.
  destruct (heap w0 !! store) as [st|]; [|done].
  unfold bind at 1. unfold Data.new_cell at 1.
  destruct (Data.truthy_selector selector).
  - destruct (Data.selector_parts selector) as [name args].
    unfold bind at 1.
    destruct (Data.getResult key name args _) as [r w|e w|] eqn:E; [|done|done].
    assert (w = set_cells (cells w0 ++ [currentState st]) w0) as ->.
    { unfold Data.getResult, bind, gets, Data.call_selector in E.
      simpl in E. destruct (selectors w0 !! key) as [o|]; [|done].
      destruct (o !! name) as [b|]; [|done].
      unfold bind, Data.getStateOf in E. destruct (sel_store b); [|done].
      unfold Redux.getState in E. simpl in E.
      destruct (heap w0 !! n); [|done]. by injection E as _ <-. }
    unfold bind, Data.new_cell, ret, modify. cbn [cells set_cells listeners].
    rewrite length_app. cbn [length]. rewrite Nat.add_1_r.
    intros [= <- <-]. exists store, [currentState st; r]. split.
    + rewrite <- app_assoc. by destruct w0.
    + right. by exists name, args.
  - unfold bind, ret, modify. intros [= <- <-].
    exists store, [currentState st]. split; [done|]. by left.
Qed.

Lemma without_absent (ls : list Listener) (l : Listener) :
  l ∉ ls → Data.without ls l = ls.
Proof.
  unfold Data.without. induction ls as [|x ls IH]; intros Hl; [done|].
  rewrite not_elem_of_cons in Hl. destruct Hl as [Hx Hl].
  rewrite filter_cons_True by done. by rewrite IH.
Qed.

(** An entry whose wrappers own a variable that does not exist yet is not in
    the listener list. *)
Lemma fresh_not_listed (c : nat) w l :
  well_formed w → c ∈ cells_of l → (length (cells w) ≤ c)%nat →
  l ∉ listeners w.
Proof.
  intros Hwf Hc Hle Hin. unfold well_formed in Hwf.
  rewrite Forall_forall in Hwf. specialize (Hwf l Hin).
  rewrite Forall_forall in Hwf. specialize (Hwf c Hc). lia.
Qed.

(** X9.  Subscriptions made with a reducer key are each their own entry,
    also when they are made with the same listener function: two of them
    give two different entries, neither of which was in the list before;
    unsubscribing the first leaves the second in place; and unsubscribing
    right after subscribing gives back the listener list as it was.  (Two
    subscriptions of one function without a reducer key are one entry twice,
    removed together.) *)
Theorem X9_keyed_subscriptions_are_independent (key : string)
    (selector selector' : option Selector) (cb : nat) (w0 w1 w2 : World)
    (l l' : Listener) :
  truthy_str key = true →
  well_formed w0 →
  Data.subscribe (Some key) selector cb w0 = Ok l w1 →
  Data.subscribe (Some key) selector' cb w1 = Ok l' w2 →
  l ≠ l'
  ∧ (l ∉ listeners w0) ∧ (l' ∉ listeners w0)
  ∧ Data.unsubscribe l w1 = Ok tt (set_listeners (listeners w0) w1)
  ∧ Data.unsubscribe l w2 = Ok tt (set_listeners (listeners w0 ++ [l']) w2)
  ∧ Data.unsubscribe l' w2 = Ok tt (set_listeners (listeners w0 ++ [l]) w2)
  ∧ well_formed w2.
Proof.
  intros Hk Hwf H1 H2.
  destruct (subscribe_keyed_shape _ _ _ _ _ _ Hk H1) as (s1 & vs1 & E1 & Hl1).
  destruct (subscribe_keyed_shape _ _ _ _ _ _ Hk H2) as (s2 & vs2 & E2 & Hl2).
  assert (Hc1 : cells w1 = cells w0 ++ vs1) by by rewrite E1.
  assert (Hls1 : listeners w1 = listeners w0 ++ [l]) by by rewrite E1.
  assert (Hls2 : listeners w2 = listeners w0 ++ [l; l']).
  { rewrite E2. cbn [listeners set_listeners set_cells].
    by rewrite Hls1, <- app_assoc. }
  assert (Hc2 : cells w2 = cells w0 ++ vs1 ++ vs2).
  { rewrite E2. cbn [cells set_listeners set_cells].
    by rewrite Hc1, <- app_assoc. }
  assert (Hin1 : length (cells w0) ∈ cells_of l
                 ∧ Forall (λ c, c < length (cells w1)) (cells_of l)).
  { rewrite Hc1, length_app.
    destruct Hl1 as [[-> Hv]|(name & args & -> & Hv)]; cbn [cells_of];
      rewrite Hv; split.
    - apply list_elem_of_here.
    - repeat constructor. lia.
    - apply list_elem_of_further, list_elem_of_here.
    - repeat constructor; lia. }
  assert (Hin2 : length (cells w1) ∈ cells_of l'
                 ∧ Forall (λ c, c < length (cells w2)) (cells_of l')).
  { rewrite Hc2, Hc1, !length_app.
    destruct Hl2 as [[-> Hv]|(name & args & -> & Hv)]; cbn [cells_of];
      rewrite Hc1, length_app, Hv; split.
    - apply list_elem_of_here.
    - repeat constructor. lia.
    - apply list_elem_of_further, list_elem_of_here.
    - repeat constructor; lia. }
  destruct Hin1 as [Hin1 Hb1]. destruct Hin2 as [Hin2 Hb2].
  assert (Hne : l ≠ l').
  { intros <-. rewrite Forall_forall in Hb1.
    specialize (Hb1 _ Hin2). lia. }
  assert (Hn1 : l ∉ listeners w0).
  { by apply (fresh_not_listed (length (cells w0))). }
  assert (Hn2 : l' ∉ listeners w0).
  { apply (fresh_not_listed (length (cells w1))); [done|done|].
    rewrite Hc1, length_app. lia. }
  split; [done|]. split; [done|]. split; [done|].
  unfold Data.unsubscribe, modify. rewrite Hls1, Hls2.
  unfold Data.without. rewrite !filter_app.
  fold (Data.without (listeners w0) l). fold (Data.without (listeners w0) l').
  rewrite !without_absent by done.
  split; [|split; [|split]].
  - rewrite filter_cons_False by (intros H; by apply H).
    by rewrite app_nil_r.
  - rewrite filter_cons_False by (intros H; by apply H).
    rewrite filter_cons_True by done. done.
  - rewrite filter_cons_True by done.
    rewrite filter_cons_False by (intros H; by apply H). done.
  - unfold well_formed. rewrite Hls2. apply Forall_app. split.
    + eapply Forall_impl; [exact Hwf|]. intros x Hx.
      eapply Forall_impl; [exact Hx|]. intros c Hc. cbv beta in Hc.
      rewrite Hc2, length_app. lia.
    + repeat constructor; [|done].
      eapply Forall_impl; [exact Hb1|]. intros c Hc. cbv beta in Hc.
      rewrite Hc2, Hc1 in *. rewrite !length_app in *. lia.
Qed.

Lemma X9_keyed_subscriptions_are_independent_witness :
  ∃ l l' w2,
    (let* l := Data.subscribe (Some "k") None 7 in
     let* l' := Data.subscribe (Some "k") None 7 in
     ret (l, l')) (one_counter "k" 0) = Ok (l, l') w2
    ∧ l ≠ l'
    ∧ Data.unsubscribe l w2 = Ok tt (set_listeners [l'] w2).
Proof.
  pose (w0 := one_counter "k" 0).
  pose (l := WhenState 0 0 (Callback 7)).
  pose (l' := WhenState 1 0 (Callback 7)).
  pose (w1 := set_listeners [l] (set_cells [VNum 0] w0)).
  pose (w2 := set_listeners [l; l'] (set_cells [VNum 0; VNum 0] w0)).
  destruct (X9_keyed_subscriptions_are_independent "k" None None 7 w0 w1 w2
              l l' eq_refl (Forall_nil_2 _) eq_refl eq_refl)
    as (H1 & _ & _ & _ & H2 & _).
  exists l, l', w2. split; [reflexivity|]. split; [exact H1|exact H2].
Defined.

(** ** What running never does *)

(** X10.  Only the [register...] functions register: calls of actions,
    dispatches, subscriptions and unsubscriptions, made one after the other
    by the caller or by the listeners called meanwhile, to any depth, leave
    the maps [stores], [selectors] and [actions] as they were, make no store,
    and take no recorded call back. *)
Theorem X10_running_registers_nothing (handlers : nat → list val → list cmd)
    (fuel : nat) (cmds : list cmd) (w : World) :
  match forEach (Data.exec (Data.globalListener handlers fuel)) cmds w with
  | Ok _ w' | Throw _ w' =>
      stores w' = stores w ∧ selectors w' = selectors w
      ∧ actions w' = actions w ∧ length (heap w') = length (heap w)
      ∧ calls w `prefix_of` calls w'
  | OutOfFuel => True
  end.
Proof.
  pose (I := λ w', same_registry w w' ∧ calls w `prefix_of` calls w').
  assert (H : ∀ w', final (forEach (Data.exec
                                      (Data.globalListener handlers fuel))
                             cmds w) = Some w' → I w').
  { intros w' Hfin.
    apply (keeps_commands I (λ _, True) (λ _, True))
      with handlers fuel cmds w; try done.
    - intros w1 h [(? & ? & ? & Hl) ?] E. split; [|done].
      repeat split; try done. simpl. by rewrite E.
    - intros w1 cb args [? Hp] _. split; [done|]. simpl.
      by apply prefix_app_r.
    - intros w1 _. by apply Forall_forall.
    - intros cb args. apply Forall_forall. by intros [] _.
    - apply Forall_forall. by intros [] _. }
  destruct (forEach _ cmds w) as [[] w'|e w'|]; [| |done];
    by destruct (H w' eq_refl) as [(? & ? & ? & ?) ?].
Qed.

(** ** [withSelect] over the life of a component *)

Lemma runSelection_state isEqualShallow mapStateToProps w arg c :
  let c' := WithSelect.runSelection isEqualShallow mapStateToProps w arg c in
  WithSelect.props c' = WithSelect.props c
  ∧ (c' = c
     ∨ (∃ p, isEqualShallow (mapStateToProps w p) (WithSelect.state c) = false
             ∧ WithSelect.state c'
               = mapStateToProps w p ∪ WithSelect.state c
             ∧ WithSelect.updates c' = S (WithSelect.updates c))).
Proof.
  unfold WithSelect.runSelection.
  destruct (isEqualShallow _ (WithSelect.state c)) eqn:E; cbn [negb].
  - split; [done|]. by left.
  - split; [done|]. right. by eexists.
Qed.

(** One event changes the state by merging, if at all. *)
Lemma select_step_state isEqualShallow mapStateToProps c e :
  let c' := select_step isEqualShallow mapStateToProps c e in
  WithSelect.state c' = WithSelect.state c
  ∨ (∃ p, isEqualShallow (mapStateToProps (select_world e) p)
            (WithSelect.state c) = false
          ∧ WithSelect.state c'
            = mapStateToProps (select_world e) p ∪ WithSelect.state c
          ∧ WithSelect.updates c' = S (WithSelect.updates c)).
Proof.
  destruct e as [w|w nextProps]; cbn [select_step select_world].
  - unfold WithSelect.storeUpdate.
    destruct (runSelection_state isEqualShallow mapStateToProps w None c)
      as [_ [->|H]]; [by left|by right].
  - unfold WithSelect.receiveProps, WithSelect.componentWillReceiveProps.
    cbn [WithSelect.state WithSelect.updates].
    destruct (negb _); [|by left].
    destruct (runSelection_state isEqualShallow mapStateToProps w
                (Some nextProps) c) as [_ [->|H]]; [by left|by right].
Qed.

(** X11.  [setState] merges, so a key that [mapStateToProps] has once
    returned stays in the state of a [withSelect] component for good: no
    store update and no new props take it out.  When [mapStateToProps] no
    longer returns the key, the state keeps the last value it had for it,
    and [render] goes on passing that value to the wrapped component, over a
    prop of the same name if there is one. *)
Theorem X11_withSelect_keeps_dropped_keys
    (isEqualShallow : WithSelect.Props → WithSelect.Props → bool)
    (mapStateToProps : World → WithSelect.Props → WithSelect.Props)
    (es : list select_event) (c : WithSelect.Component)
    (k : string) (v : val) :
  WithSelect.state c !! k = Some v →
  let c' := select_life isEqualShallow mapStateToProps es c in
  is_Some (WithSelect.state c' !! k)
  ∧ (Forall (λ e, ∀ p, mapStateToProps (select_world e) p !! k = None) es →
     WithSelect.state c' !! k = Some v
     ∧ WithSelect.render c' !! k = Some v).
Proof.
  intros Hk c'. subst c'. unfold select_life. split.
  - assert (H : is_Some (WithSelect.state c !! k)) by by eexists.
    clear Hk. revert c H. induction es as [|e es IH]; intros c H; [done|].
    cbn [foldl]. apply IH.
    destruct (select_step_state isEqualShallow mapStateToProps c e)
      as [->|(p & _ & -> & _)]; [done|].
    destruct H as [x Hx].
    destruct (mapStateToProps (select_world e) p !! k) as [y|] eqn:Ey.
    + exists y. by apply lookup_union_Some_l.
    + exists x. apply lookup_union_Some_raw. by right.
  - intros Hes.
    assert (H : WithSelect.state
                  (foldl (select_step isEqualShallow mapStateToProps) c es)
                  !! k = Some v).
    { revert c Hk. induction Hes as [|e es He _ IH]; intros c Hk; [done|].
      cbn [foldl]. apply IH.
      destruct (select_step_state isEqualShallow mapStateToProps c e)
        as [->|(p & _ & -> & _)]; [done|].
      apply lookup_union_Some_raw. right. split; [apply He|done]. }
    split; [done|]. unfold WithSelect.render. by apply lookup_union_Some_l.
Qed.

Lemma X11_withSelect_keeps_dropped_keys_witness :
  let mapStateToProps (w : World) (p : WithSelect.Props) : WithSelect.Props :=
    if bool_decide (calls w = []) then {[ "count" := VNum 0 ]} else ∅ in
  let c := select_life same_entries mapStateToProps
             [StoreUpdate empty_world] (WithSelect.construct ∅) in
  let later := set_calls [(1, [])] empty_world in
  WithSelect.state c !! "count" = Some (VNum 0)
  ∧ WithSelect.render
      (select_life same_entries mapStateToProps
         [StoreUpdate later; ReceiveProps later {[ "count" := VNum 7 ]}] c)
      !! "count" = Some (VNum 0).
Proof.
  intros mapStateToProps c later. split; [reflexivity|].
  destruct (X11_withSelect_keeps_dropped_keys same_entries mapStateToProps
              [StoreUpdate later; ReceiveProps later {[ "count" := VNum 7 ]}]
              c "count" (VNum 0) eq_refl) as [_ H].
  apply H. repeat constructor.
Defined.

(** X12.  While the state holds a key that [mapStateToProps] no longer
    returns, no computed object is shallow-equal to the state (the
    comparison tells objects with different keys apart), so every store
    update calls [setState] and renders the component again, whether or not
    anything it shows has changed. *)
Theorem X12_withSelect_dropped_key_renders_always
    (isEqualShallow : WithSelect.Props → WithSelect.Props → bool)
    (mapStateToProps : World → WithSelect.Props → WithSelect.Props)
    (ws : list World) (c : WithSelect.Component) (k : string) :
  (∀ a b, isEqualShallow a b = true → is_Some (b !! k) → is_Some (a !! k)) →
  is_Some (WithSelect.state c !! k) →
  Forall (λ w, ∀ p, mapStateToProps w p !! k = None) ws →
  WithSelect.updates
    (select_life isEqualShallow mapStateToProps (StoreUpdate <$> ws) c)
    = WithSelect.updates c + length ws.
Proof.
  intros Hshallow Hk Hws. unfold select_life. revert c Hk.
  induction Hws as [|w ws Hw _ IH]; intros c Hk.
  - cbn. lia.
  - cbn [fmap list_fmap foldl length select_step].
    unfold WithSelect.storeUpdate, WithSelect.runSelection.
    cbn [default].
    destruct (isEqualShallow (mapStateToProps w (WithSelect.props c))
                (WithSelect.state c)) eqn:E.
    + apply Hshallow in E; [|done]. rewrite Hw in E. by destruct E.
    + cbn [negb]. unfold fmap in IH. rewrite IH.
      * cbn [WithSelect.updates WithSelect.setState]. lia.
      * cbn [WithSelect.state WithSelect.setState].
        destruct Hk as [x Hx]. exists x. apply lookup_union_Some_raw.
        right. split; [apply Hw|done].
Qed.

Lemma X12_withSelect_dropped_key_renders_always_witness :
  let c := {| WithSelect.props := ∅;
              WithSelect.state := {[ "count" := VNum 0 ]};
              WithSelect.updates := 1 |} in
  WithSelect.updates
    (select_life same_entries (λ _ _, ∅)
       (StoreUpdate <$> [empty_world; empty_world; empty_world]) c) = 1 + 3.
Proof.
  intros c.
  apply (X12_withSelect_dropped_key_renders_always same_entries (λ _ _, ∅)
           [empty_world; empty_world; empty_world] c "count").
  - intros a b E. unfold same_entries in E.
    apply bool_decide_eq_true in E. by rewrite E.
  - by eexists.
  - repeat constructor.
Defined.

(** X13.  A mapper given to [query] is never called with the props of the
    component: in their place it gets the [select] function.  So what a
    component made by [query] does, at its mount and at every event after,
    does not depend on what the mapper would answer to props. *)
Theorem X13_query_drops_props
    (isEqualShallow : WithSelect.Props → WithSelect.Props → bool)
    (mapSelectToProps mapSelectToProps'
       : World → WithSelect.MapperArg → WithSelect.Props)
    (cb : nat) (es : list select_event) (c : WithSelect.Component)
    (w : World) :
  (∀ w, mapSelectToProps w WithSelect.SelectFunction
        = mapSelectToProps' w WithSelect.SelectFunction) →
  WithSelect.componentWillMount isEqualShallow
      (WithSelect.query mapSelectToProps) cb c w
    = WithSelect.componentWillMount isEqualShallow
        (WithSelect.query mapSelectToProps') cb c w
  ∧ select_life isEqualShallow (WithSelect.query mapSelectToProps) es c
    = select_life isEqualShallow (WithSelect.query mapSelectToProps') es c.
Proof.
  intros Hsame.
  assert (Hrun : ∀ w arg c,
            WithSelect.runSelection isEqualShallow
              (WithSelect.query mapSelectToProps) w arg c
            = WithSelect.runSelection isEqualShallow
                (WithSelect.query mapSelectToProps') w arg c).
  { intros w1 arg c1. unfold WithSelect.runSelection, WithSelect.query.
    by rewrite Hsame. }
  split.
  - unfold WithSelect.componentWillMount, bind, gets, ret.
    destruct (WithSelect.subscribe cb w) as [l w1|e w1|]; [|done|done].
    by rewrite Hrun.
  - unfold select_life. revert c. induction es as [|e es IH]; intros c; [done|].
    cbn [foldl]. rewrite IH. f_equal.
    destruct e as [w1|w1 nextProps]; cbn [select_step].
    + apply Hrun.
    + unfold WithSelect.receiveProps, WithSelect.componentWillReceiveProps.
      by rewrite Hrun.
Qed.

Lemma X13_query_drops_props_witness :
  let byProps (w : World) (a : WithSelect.MapperArg) : WithSelect.Props :=
    match a with
    | WithSelect.OwnProps p => p
    | WithSelect.SelectFunction => {[ "n" := VNum 1 ]}
    end in
  select_life same_entries (WithSelect.query byProps)
      [ReceiveProps empty_world {[ "id" := VNum 2 ]}] (WithSelect.construct ∅)
    = select_life same_entries (WithSelect.query (λ _ _, {[ "n" := VNum 1 ]}))
        [ReceiveProps empty_world {[ "id" := VNum 2 ]}] (WithSelect.construct ∅).
Proof.
  intros byProps.
  apply (X13_query_drops_props same_entries byProps
           (λ _ _, {[ "n" := VNum 1 ]}) 0
           [ReceiveProps empty_world {[ "id" := VNum 2 ]}]
           (WithSelect.construct ∅) empty_world).
  reflexivity.
Defined.

(** X14.  Mounting a [withSelect] component subscribes its [runSelection]
    without a reducer key and populates the state from the stores as they
    are; unmounting takes the subscription out again.  The listener list,
    and the whole module state, is then as it was before the mount, the
    entries of the other components in their places. *)
Theorem X14_withSelect_mount_unmount
    (isEqualShallow : WithSelect.Props → WithSelect.Props → bool)
    (mapStateToProps : World → WithSelect.Props → WithSelect.Props)
    (cb : nat) (c : WithSelect.Component) (w0 : World) :
  unheard cb w0 →
  let w1 := set_listeners (listeners w0 ++ [Callback cb]) w0 in
  WithSelect.componentWillMount isEqualShallow mapStateToProps cb c w0
    = Ok (Callback cb,
          WithSelect.runSelection isEqualShallow mapStateToProps w1 None c) w1
  ∧ WithSelect.componentWillUnmount (Callback cb) w1 = Ok tt w0.
Proof.
  intros Hun w1. split; [done|].
  unfold WithSelect.componentWillUnmount, Data.unsubscribe, modify.
  subst w1. cbn [listeners set_listeners]. unfold Data.without.
  rewrite filter_app. fold (Data.without (listeners w0) (Callback cb)).
  rewrite without_absent.
  - rewrite filter_cons_False by (intros H; by apply H).
    rewrite app_nil_r. by destruct w0.
  - intros Hin. unfold unheard in Hun. rewrite Forall_forall in Hun.
    by apply (Hun _ Hin).
Qed.

Lemma X14_withSelect_mount_unmount_witness :
  (let* m := WithSelect.componentWillMount same_entries
               (λ _ _, {[ "n" := VNum 1 ]}) 7 (WithSelect.construct ∅) in
   let* _ := WithSelect.componentWillUnmount m.1 in
   ret (WithSelect.state m.2))
    (set_listeners [Callback 1] (one_counter "k" 0))
  = Ok {[ "n" := VNum 1 ]} (set_listeners [Callback 1] (one_counter "k" 0)).
Proof.
  destruct (X14_withSelect_mount_unmount same_entries
              (λ _ _, {[ "n" := VNum 1 ]}) 7 (WithSelect.construct ∅)
              (set_listeners [Callback 1] (one_counter "k" 0))) as [H1 H2].
  - repeat constructor. discriminate.
  - unfold bind at 1. rewrite H1. unfold bind at 1. cbn [fst].
    rewrite H2. reflexivity.
Defined.

(** ** [withDispatch] *)

(** What holds of the functions a component holds in [proxyProps]: each is
    bound to the name it is stored under, and was made in an earlier
    round. *)
Lemma setProxyProps_bound mapDispatchToProps w p c :
  (∀ k f, WithDispatch.proxyProps c !! k = Some f →
          WithDispatch.bound f = k
          ∧ WithDispatch.born f < WithDispatch.round c) →
  ∀ k f,
    WithDispatch.proxyProps
      (WithDispatch.setProxyProps mapDispatchToProps w p c) !! k = Some f →
    WithDispatch.bound f = k ∧ WithDispatch.born f < S (WithDispatch.round c).
Proof.
  intros Hinv k f. unfold WithDispatch.setProxyProps.
  cbn [WithDispatch.proxyProps]. rewrite map_lookup_imap.
  destruct (mapDispatchToProps w p !! k) as [d|]; [|done].
  cbn [mbind option_bind].
  destruct (WithDispatch.proxyProps c !! k) as [f0|] eqn:E.
  - intros [= <-]. destruct (Hinv k f0 E). split; [done|lia].
  - intros [= <-]. cbn. split; [done|lia].
Qed.

Lemma dispatch_life_bound mapDispatchToProps w0 p0 us :
  let c := dispatch_life mapDispatchToProps w0 p0 us in
  ∀ k f, WithDispatch.proxyProps c !! k = Some f →
         WithDispatch.bound f = k
         ∧ WithDispatch.born f < WithDispatch.round c.
Proof.
  unfold dispatch_life.
  set (c0 := WithDispatch.componentWillMount mapDispatchToProps w0
               (WithDispatch.construct p0)).
  assert (H0 : ∀ k f, WithDispatch.proxyProps c0 !! k = Some f →
                 WithDispatch.bound f = k
                 ∧ WithDispatch.born f < WithDispatch.round c0).
  { subst c0. unfold WithDispatch.componentWillMount.
    apply setProxyProps_bound. intros k f. cbn. by rewrite lookup_empty. }
  clearbody c0. revert c0 H0. induction us as [|u us IH]; intros c0 H0; [done|].
  cbn [foldl]. apply IH. unfold WithDispatch.update.
  cbn [WithDispatch.proxyProps WithDispatch.round].
  unfold WithDispatch.componentWillUpdate. by apply setProxyProps_bound.
Qed.

Lemma dispatch_life_props mapDispatchToProps w0 p0 us :
  WithDispatch.props (dispatch_life mapDispatchToProps w0 p0 us)
    = default p0 (last (snd <$> us)).
Proof.
  unfold dispatch_life.
  set (c0 := WithDispatch.componentWillMount mapDispatchToProps w0
               (WithDispatch.construct p0)).
  change p0 with (WithDispatch.props c0). clearbody c0. revert c0.
  induction us as [|u us IH]; intros c0; [done|].
  cbn [foldl]. rewrite IH. rewrite fmap_cons, last_cons.
  by destruct (last (snd <$> us)).
Qed.

(** X15.  Calling a function a [withDispatch] component passes down, at any
    time after the mount and whatever props the component has been given
    since, calls the dispatcher that [mapDispatchToProps] now gives for the
    name the function is passed under, computed from the props the component
    has now, with the same arguments.  When there is no dispatcher for that
    name now, the call throws a [TypeError].  (Dispatchers under names that
    no object inherits.) *)
Theorem X15_withDispatch_proxy_calls_current_dispatcher
    (mapDispatchToProps : World → WithDispatch.Props
                          → gmap string (list val → M unit))
    (w0 : World) (p0 : WithDispatch.Props)
    (us : list (World * WithDispatch.Props))
    (k : string) (f : WithDispatch.Proxy) (args : list val) (w : World) :
  (∀ w p name, inherited name = true → mapDispatchToProps w p !! name = None) →
  let c := dispatch_life mapDispatchToProps w0 p0 us in
  WithDispatch.render c !! k = Some (inl f) →
  WithDispatch.props c = default p0 (last (snd <$> us))
  ∧ WithDispatch.call_proxy mapDispatchToProps c f args w
    = match mapDispatchToProps w (default p0 (last (snd <$> us))) !! k with
      | Some dispatcher => dispatcher args w
      | None => Throw (TypeError "is not a function") w
      end.
Proof.
  intros _ c Hk.
  pose proof (dispatch_life_props mapDispatchToProps w0 p0 us) as Hp.
  fold c in Hp.
  split; [exact Hp|].
  assert (Hf : WithDispatch.proxyProps c !! k = Some f).
  { unfold WithDispatch.render in Hk.
    apply lookup_union_Some_raw in Hk as [Hk|[Hn Hk]].
    - rewrite lookup_fmap in Hk.
      destruct (WithDispatch.proxyProps c !! k); [|done].
      by injection Hk as ->.
    - rewrite lookup_fmap in Hk.
      match type of Hk with _ <$> ?o = _ => destruct o; discriminate Hk end. }
  destruct (dispatch_life_bound mapDispatchToProps w0 p0 us k f Hf) as [Hb _].
  unfold WithDispatch.call_proxy, WithDispatch.proxyDispatch, bind, gets.
  rewrite Hb. fold c. rewrite Hp.
  by destruct (mapDispatchToProps w _ !! k).
Qed.

Lemma X15_withDispatch_proxy_calls_current_dispatcher_witness :
  let mapDispatchToProps (w : World) (p : WithDispatch.Props)
      : gmap string (list val → M unit) :=
    {[ "onClick" := λ _, modify (set_calls [(0, [default VUndefined
                                                   (p !! "id")])]) ]} in
  let c := dispatch_life mapDispatchToProps empty_world {[ "id" := VNum 1 ]}
             [(empty_world, {[ "id" := VNum 2 ]})] in
  WithDispatch.call_proxy mapDispatchToProps c
      {| WithDispatch.born := 0; WithDispatch.bound := "onClick" |} []
      empty_world
    = Ok tt (set_calls [(0, [VNum 2])] empty_world).
Proof.
  intros mapDispatchToProps c.
  assert (Hplain : ∀ w p name, inherited name = true →
            mapDispatchToProps w p !! name = None).
  { intros w p name Hname. unfold mapDispatchToProps.
    apply lookup_singleton_ne. intros <-. vm_compute in Hname.
    discriminate Hname. }
  assert (Hr : WithDispatch.render c !! "onClick"
               = Some (inl {| WithDispatch.born := 0;
                              WithDispatch.bound := "onClick" |}))
    by (vm_compute; reflexivity).
  destruct (X15_withDispatch_proxy_calls_current_dispatcher
              mapDispatchToProps empty_world {[ "id" := VNum 1 ]}
              [(empty_world, {[ "id" := VNum 2 ]})] "onClick"
              {| WithDispatch.born := 0; WithDispatch.bound := "onClick" |}
              [] empty_world Hplain Hr) as [_ H].
  etrans; [exact H|]. vm_compute. reflexivity.
Defined.

(** X16.  When a [withDispatch] component is given new props, the functions
    it passes down are, name by name: for the names [mapDispatchToProps]
    gives dispatchers for now, and only for them, there is a function; a
    name that had a function before keeps the very same function (so the
    wrapped component sees an unchanged prop); a name that had none gets a
    function that is none of those the component held.  (Dispatchers under
    names that no object inherits.) *)
Theorem X16_withDispatch_proxies_are_stable
    (mapDispatchToProps : World → WithDispatch.Props
                          → gmap string (list val → M unit))
    (w0 : World) (p0 : WithDispatch.Props)
    (us : list (World * WithDispatch.Props))
    (w : World) (nextProps : WithDispatch.Props) (k : string) :
  (∀ w p name, inherited name = true → mapDispatchToProps w p !! name = None) →
  let c := dispatch_life mapDispatchToProps w0 p0 us in
  let c' := dispatch_life mapDispatchToProps w0 p0 (us ++ [(w, nextProps)]) in
  (is_Some (WithDispatch.proxyProps c' !! k)
   ↔ is_Some (mapDispatchToProps w nextProps !! k))
  ∧ (∀ f, WithDispatch.proxyProps c !! k = Some f →
          is_Some (mapDispatchToProps w nextProps !! k) →
          WithDispatch.proxyProps c' !! k = Some f)
  ∧ (WithDispatch.proxyProps c !! k = None →
     is_Some (mapDispatchToProps w nextProps !! k) →
     ∃ f', WithDispatch.proxyProps c' !! k = Some f'
           ∧ ∀ k0 f0, WithDispatch.proxyProps c !! k0 = Some f0 → f0 ≠ f').
Proof.
  intros _ c c'.
  assert (Hc' : WithDispatch.proxyProps c' !! k
                = mapDispatchToProps w nextProps !! k
                  ≫= λ _, Some (match WithDispatch.proxyProps c !! k with
                                 | Some f => f
                                 | None => {| WithDispatch.born :=
                                                WithDispatch.round c;
                                              WithDispatch.bound := k |}
                                 end)).
  { subst c'. unfold dispatch_life. rewrite foldl_app. cbn [foldl].
    unfold WithDispatch.update, WithDispatch.componentWillUpdate,
      WithDispatch.setProxyProps.
    cbn [WithDispatch.proxyProps fst snd]. by rewrite map_lookup_imap. }
  rewrite Hc'. split; [|split].
  - destruct (mapDispatchToProps w nextProps !! k); cbn [mbind option_bind].
    + split; intros _; by eexists.
    + done.
  - intros f Hf [d ->]. cbn [mbind option_bind]. by rewrite Hf.
  - intros Hnone [d ->]. cbn [mbind option_bind]. rewrite Hnone.
    eexists. split; [done|]. intros k0 f0 Hf0 ->.
    destruct (dispatch_life_bound mapDispatchToProps w0 p0 us k0 _ Hf0)
      as [_ Hlt].
    cbn [WithDispatch.born] in Hlt. fold c in Hlt. lia.
Qed.

Lemma X16_withDispatch_proxies_are_stable_witness :
  let mapDispatchToProps (w : World) (p : WithDispatch.Props)
      : gmap string (list val → M unit) :=
    if bool_decide (p !! "more" = None) then {[ "onClick" := λ _, ret tt ]}
    else {[ "onClick" := λ _, ret tt; "onMore" := λ _, ret tt ]} in
  let c := dispatch_life mapDispatchToProps empty_world ∅ [] in
  let c' := dispatch_life mapDispatchToProps empty_world ∅
              [(empty_world, {[ "more" := VBool true ]})] in
  WithDispatch.proxyProps c' !! "onClick"
    = WithDispatch.proxyProps c !! "onClick"
  ∧ is_Some (WithDispatch.proxyProps c' !! "onMore").
Proof.
  intros mapDispatchToProps c c'.
  assert (Hplain : ∀ w p name, inherited name = true →
            mapDispatchToProps w p !! name = None).
  { intros w p name Hname. unfold mapDispatchToProps.
    assert (name ≠ "onClick")
      by (intros ->; vm_compute in Hname; discriminate Hname).
    assert (name ≠ "onMore")
      by (intros ->; vm_compute in Hname; discriminate Hname).
    destruct (bool_decide _).
    - by apply lookup_singleton_ne.
    - rewrite lookup_insert_ne by done. by apply lookup_singleton_ne. }
  split.
  - destruct (X16_withDispatch_proxies_are_stable mapDispatchToProps
                empty_world ∅ [] empty_world {[ "more" := VBool true ]}
                "onClick" Hplain) as (_ & H & _).
    etrans; [apply (H {| WithDispatch.born := 0;
                         WithDispatch.bound := "onClick" |})|].
    + vm_compute. reflexivity.
    + exists (λ _, ret tt). vm_compute. reflexivity.
    + vm_compute. reflexivity.
  - destruct (X16_withDispatch_proxies_are_stable mapDispatchToProps
                empty_world ∅ [] empty_world {[ "more" := VBool true ]}
                "onMore" Hplain) as (H & _).
    apply H. exists (λ _, ret tt). vm_compute. reflexivity.
Defined.

(** ** [PreserveScrollInReorder] over the life of an instance *)

Lemma scroll_life_no_offset us i :
  PreserveScroll.truthy_offset (PreserveScroll.previousOffset i) = false →
  PreserveScroll.truthy_offset
    (PreserveScroll.previousOffset (scroll_life us i)) = false.
Proof.
  unfold scroll_life. revert i. induction us as [|u us IH]; intros i Hi; [done|].
  cbn [foldl]. apply IH. apply update_leaves_no_offset.
Qed.

(** X17.  The component sets the scroll position only when the blocks are
    reordered around a selected block: at any update in the life of an
    instance, if the scroll position after the update is not the one
    before, then the block order given is another one than the instance
    had, a selection start is given, its block was in the document before
    the update at a top offset that is a number other than 0 and is in the
    document after, there is a scroll container, and the offset recorded is
    deleted again.  No offset recorded at an earlier update is used
    later. *)
Theorem X17_scroll_moves_only_on_reorder
    (us : list (PreserveScroll.Dom * PreserveScroll.Dom * PreserveScroll.Props))
    (i0 : PreserveScroll.Instance) (before after : PreserveScroll.Dom)
    (nextProps : PreserveScroll.Props) :
  PreserveScroll.previousOffset i0 = None →
  let i := scroll_life us i0 in
  let r := PreserveScroll.update before after nextProps i in
  let sel := PreserveScroll.selectionStart nextProps in
  PreserveScroll.scrollTop r.1 ≠ PreserveScroll.scrollTop before →
  strict_neq (PreserveScroll.blockOrder nextProps)
    (PreserveScroll.blockOrder (PreserveScroll.props i)) = true
  ∧ truthy_opt sel = true
  ∧ PreserveScroll.hasScrollContainer after = true
  ∧ ∃ previous top : float,
      PreserveScroll.blockTop before sel = Some previous
      ∧ PreserveScroll.truthy_offset (Some previous) = true
      ∧ PreserveScroll.blockTop after sel = Some top
      ∧ PreserveScroll.previousOffset r.2 = None.
Proof.
  intros H0 i r sel Hmoved.
  assert (Hi : PreserveScroll.truthy_offset (PreserveScroll.previousOffset i)
               = false).
  { apply scroll_life_no_offset. by rewrite H0. }
  clearbody i. subst r.
  unfold PreserveScroll.update, PreserveScroll.componentWillUpdate in *.
  fold sel in Hmoved |- *.
  destruct (strict_neq _ _) eqn:Eo; cbn [andb] in *.
  2: { exfalso. apply Hmoved. unfold PreserveScroll.componentDidUpdate.
       cbn [PreserveScroll.previousOffset]. by rewrite Hi. }
  destruct (truthy_opt sel) eqn:Es.
  2: { exfalso. apply Hmoved. unfold PreserveScroll.componentDidUpdate.
       cbn [PreserveScroll.previousOffset]. by rewrite Hi. }
  unfold PreserveScroll.setPreviousOffset in *.
  destruct (PreserveScroll.blockTop before sel) as [previous|] eqn:Eb.
  2: { exfalso. apply Hmoved. unfold PreserveScroll.componentDidUpdate.
       cbn [PreserveScroll.previousOffset]. by rewrite Hi. }
  unfold PreserveScroll.componentDidUpdate in *.
  cbn [PreserveScroll.previousOffset] in *.
  destruct (PreserveScroll.truthy_offset (Some previous)) eqn:Ez.
  2: { exfalso. by apply Hmoved. }
  unfold PreserveScroll.restorePreviousOffset in *.
  cbn [PreserveScroll.props PreserveScroll.previousOffset
       PreserveScroll.blockTop PreserveScroll.set_scrollTop
       PreserveScroll.hasScrollContainer PreserveScroll.scrollTop fst snd] in *.
  fold sel in Hmoved |- *.
  destruct (PreserveScroll.blockTop after sel) as [top|] eqn:Ea.
  2: { exfalso. by apply Hmoved. }
  destruct (PreserveScroll.hasScrollContainer after) eqn:Ec.
  2: { exfalso. by apply Hmoved. }
  split; [done|]. split; [done|]. split; [done|].
  exists previous, top. by repeat split.
Qed.

Lemma X17_scroll_moves_only_on_reorder_witness :
  let before := {| PreserveScroll.blockTop := λ _, Some 20.5%float;
                   PreserveScroll.hasScrollContainer := true;
                   PreserveScroll.scrollTop := 100%float |} in
  let after := {| PreserveScroll.blockTop := λ _, Some 50.25%float;
                  PreserveScroll.hasScrollContainer := true;
                  PreserveScroll.scrollTop := 100%float |} in
  let i0 := {| PreserveScroll.props :=
                 {| PreserveScroll.blockOrder := VRef 1;
                    PreserveScroll.selectionStart := Some "b" |};
               PreserveScroll.previousOffset := None |} in
  let nextProps := {| PreserveScroll.blockOrder := VRef 2;
                      PreserveScroll.selectionStart := Some "b" |} in
  ∃ previous top : float,
    PreserveScroll.blockTop before (Some "b") = Some previous
    ∧ PreserveScroll.truthy_offset (Some previous) = true
    ∧ PreserveScroll.blockTop after (Some "b") = Some top
    ∧ PreserveScroll.previousOffset
        (PreserveScroll.update before after nextProps i0).2 = None.
Proof.
  intros before after i0 nextProps.
  destruct (X17_scroll_moves_only_on_reorder [] i0 before after nextProps
              eq_refl) as (_ & _ & _ & previous & top & H1 & H2 & H3 & H4).
  - discriminate.
  - exists previous, top. repeat split; assumption.
Defined.

(** X18.  What the component is for.  At an update that gives another
    block order and a selection start whose block was in the document
    before, at a top offset that is a number other than 0, and is in the
    document after, with a scroll container: the component assigns to the
    scroll position the sum [scrollTop + top - previousOffset] of the
    position before, the block's top offset after and its top offset
    before, computed from left to right in doubles as the code computes it,
    touches nothing else in the document, and deletes the offset recorded.
    This holds whatever the instance has been through before. *)
Theorem X18_reorder_restores_the_offset
    (us : list (PreserveScroll.Dom * PreserveScroll.Dom * PreserveScroll.Props))
    (i0 : PreserveScroll.Instance) (before after : PreserveScroll.Dom)
    (nextProps : PreserveScroll.Props) (previous top : float) :
  let i := scroll_life us i0 in
  let sel := PreserveScroll.selectionStart nextProps in
  strict_neq (PreserveScroll.blockOrder nextProps)
    (PreserveScroll.blockOrder (PreserveScroll.props i)) = true →
  truthy_opt sel = true →
  PreserveScroll.blockTop before sel = Some previous →
  PreserveScroll.truthy_offset (Some previous) = true →
  PreserveScroll.blockTop after sel = Some top →
  PreserveScroll.hasScrollContainer after = true →
  let r := PreserveScroll.update before after nextProps i in
  PreserveScroll.scrollTop r.1
    = PrimFloat.sub (PrimFloat.add (PreserveScroll.scrollTop before) top)
        previous
  ∧ PreserveScroll.blockTop r.1 = PreserveScroll.blockTop after
  ∧ PreserveScroll.hasScrollContainer r.1 = true
  ∧ r.2 = {| PreserveScroll.props := nextProps;
             PreserveScroll.previousOffset := None |}.
Proof.
  intros i sel Horder Hsel Hprev Hnz Htop Hsc r. subst r.
  rewrite (update_restores_nonzero_offset before after nextProps i previous
             top) by done.
  cbn [fst snd PreserveScroll.scrollTop PreserveScroll.set_scrollTop
       PreserveScroll.blockTop PreserveScroll.hasScrollContainer].
  by repeat split.
Qed.

Lemma X18_reorder_restores_the_offset_witness :
  let before := {| PreserveScroll.blockTop := λ _, Some 20.5%float;
                   PreserveScroll.hasScrollContainer := true;
                   PreserveScroll.scrollTop := 100%float |} in
  let after := {| PreserveScroll.blockTop := λ _, Some 50.25%float;
                  PreserveScroll.hasScrollContainer := true;
                  PreserveScroll.scrollTop := 100%float |} in
  let i0 := {| PreserveScroll.props :=
                 {| PreserveScroll.blockOrder := VRef 1;
                    PreserveScroll.selectionStart := Some "b" |};
               PreserveScroll.previousOffset := None |} in
  let nextProps := {| PreserveScroll.blockOrder := VRef 2;
                      PreserveScroll.selectionStart := Some "b" |} in
  PreserveScroll.scrollTop (PreserveScroll.update before after nextProps i0).1
    = 129.75%float.
Proof.
  intros before after i0 nextProps.
  exact (proj1 (X18_reorder_restores_the_offset [] i0 before after nextProps
                  20.5 50.25 eq_refl eq_refl eq_refl eq_refl eq_refl
                  eq_refl)).
Defined.

(** The sum is the one of doubles: from the scroll position 2^53, a block
    that moves from top offset 1 to top offset 2 leaves the position where
    it is, 2^53 + 1 being no double. *)
Example run_scroll_sum_in_doubles :
  let before := {| PreserveScroll.blockTop := λ _, Some 1%float;
                   PreserveScroll.hasScrollContainer := true;
                   PreserveScroll.scrollTop := 9007199254740992%float |} in
  let after := {| PreserveScroll.blockTop := λ _, Some 2%float;
                  PreserveScroll.hasScrollContainer := true;
                  PreserveScroll.scrollTop := 9007199254740992%float |} in
  let i0 := {| PreserveScroll.props :=
                 {| PreserveScroll.blockOrder := VRef 1;
                    PreserveScroll.selectionStart := Some "b" |};
               PreserveScroll.previousOffset := None |} in
  let nextProps := {| PreserveScroll.blockOrder := VRef 2;
                      PreserveScroll.selectionStart := Some "b" |} in
  PreserveScroll.scrollTop (PreserveScroll.update before after nextProps i0).1
    = 9007199254740992%float.
Proof. reflexivity. Qed.

(** ** The edit-post wiring, end to end *)

(** X19.  The wiring needs the viewport module loaded first.  Run in a
    window where no store is registered under ['core/viewport'], it never
    completes: when it throws, the ['core/edit-post'] store it has registered
    stays registered, and there is still no viewport store.  With nothing to
    load from local storage it throws the [TypeError] of [subscribe], and the
    listener list is as it was: nothing has been subscribed. *)
Theorem X19_wiring_needs_the_viewport_store
    (handlers : nat → list val → list cmd)
    (reducer : val → action → val)
    (actions' : gmap string (list val → action))
    (selectors' : gmap string (val → list val → val))
    (fuel : nat) (persisted : option action) (cb : nat) (w0 : World) :
  stores w0 !! "core/viewport" = None →
  match EditPost.wiring handlers reducer actions' selectors' fuel persisted cb
          w0 with
  | Ok _ _ => False
  | Throw _ w1 =>
      stores w1 !! "core/edit-post" = Some (length (heap w0))
      ∧ stores w1 !! "core/viewport" = None
  | OutOfFuel => True
  end
  ∧ ∃ w1,
      EditPost.wiring handlers reducer actions' selectors' fuel None cb w0
        = Throw (TypeError "Cannot read property 'getState' of undefined") w1
      ∧ listeners w1 = listeners w0.
Proof.
  intros Hv.
  destruct (registerStore_eq "core/edit-post" reducer actions' selectors' w0)
    as (wa & Ea & Hsa & _ & _ & _ & Hla & _).
  assert (Hthrow : ∀ wb, stores wb = stores wa →
            EditPost.subscribeViewport cb wb
              = Throw (TypeError "Cannot read property 'getState' of undefined")
                  wb
            ∧ stores wb !! "core/edit-post" = Some (length (heap w0))
            ∧ stores wb !! "core/viewport" = None).
  { intros wb Hsb.
    assert (Hnone : stores wb !! "core/viewport" = None).
    { rewrite Hsb, Hsa. by rewrite lookup_insert_ne. }
    split; [|split; [|done]].
    - unfold EditPost.subscribeViewport, Data.subscribe.
      replace (truthy_str "core/viewport") with true by reflexivity.
      unfold bind, gets. by rewrite Hnone.
    - rewrite Hsb, Hsa. by rewrite lookup_insert_eq. }
  split.
  - unfold EditPost.wiring. unfold bind at 1. rewrite Ea.
    unfold bind at 1. unfold EditPost.loadAndPersist.
    destruct persisted as [a|].
    + unfold bind at 1.
      pose proof (dispatch_same_registry handlers fuel (length (heap w0)) a wa)
        as Hd.
      destruct (Redux.dispatch _ _ a wa) as [x wb|x wb|]; [| |done].
      * destruct Hd as (Hsb & _). unfold ret, bind.
        destruct (Hthrow wb Hsb) as (-> & ? & ?). done.
      * destruct Hd as (Hsb & _). destruct (Hthrow wb Hsb) as (_ & ? & ?).
        done.
    + unfold ret, bind. destruct (Hthrow wa eq_refl) as (-> & ? & ?). done.
  - exists wa. split; [|done].
    unfold EditPost.wiring. unfold bind at 1. rewrite Ea.
    unfold bind at 1. cbn [EditPost.loadAndPersist]. unfold ret, bind.
    by destruct (Hthrow wa eq_refl) as (-> & _).
Qed.

Lemma X19_wiring_needs_the_viewport_store_witness :
  ∃ w1,
    EditPost.wiring (λ _ args, EditPost.collapseSidebar args) counter
        {[ "closeGeneralSidebar" := λ _, inc ]} ∅ 1 None 7
        (one_counter "core/editor" 0)
      = Throw (TypeError "Cannot read property 'getState' of undefined") w1
    ∧ listeners w1 = [].
Proof.
  exact (proj2 (X19_wiring_needs_the_viewport_store
                  (λ _ args, EditPost.collapseSidebar args) counter
                  {[ "closeGeneralSidebar" := λ _, inc ]} ∅ 1 None 7
                  (one_counter "core/editor" 0) eq_refl)).
Defined.

(** One notification of the subscription the wiring makes, in a world that
    holds the viewport selector and the edit-post action. *)
Lemma collapse_notification handlers notify
    (closeGeneralSidebar : list val → action)
    (isViewportMatch : val → list val → val) cb vstore estore c1 w vst prev :
  (∀ args, handlers cb args = EditPost.collapseSidebar args) →
  registered_selector w "core/viewport" "isViewportMatch" vstore
    isViewportMatch →
  (∃ obj, actions w !! "core/edit-post" = Some obj
          ∧ obj !! "closeGeneralSidebar"
            = Some {| act_store := Some estore;
                      act_creator := closeGeneralSidebar |}) →
  (∀ s args, isViewportMatch s args ≠ VNaN) →
  heap w !! vstore = Some vst →
  Observed c1 (S c1) isViewportMatch [VStr "< medium"] prev w →
  let sargs := [VStr "< medium"] in
  let isSmall := isViewportMatch (currentState vst) sargs in
  let changed := strict_neq isSmall (isViewportMatch prev sargs) in
  let w' := set_cells
              (if changed
               then <[c1 := currentState vst]> (<[S c1 := isSmall]> (cells w))
               else <[S c1 := isSmall]> (cells w)) w in
  let called := set_calls (calls w' ++ [(cb, [isSmall])]) w' in
  Observed c1 (S c1) isViewportMatch sargs (currentState vst) w'
  ∧ Data.invoke handlers notify
      (WhenResult (S c1) "core/viewport" "isViewportMatch" sargs
         (WhenState c1 vstore (Callback cb))) [] w
    = if changed then
        if truthy isSmall then
          (let* _ := Redux.dispatch (Data.call_listener notify) estore
                       (closeGeneralSidebar []) in
           ret tt) called
        else Ok tt called
      else Ok tt w'.
Proof.
  intros Hcb Hreg (obj & Hobj & Hclose) Hnan Hvst Hobs sargs isSmall changed
    w' called.
  destruct (notify_selector_subscription handlers notify "core/viewport"
              "isViewportMatch" [VStr "< medium"] isViewportMatch cb vstore
              c1 w vst prev Hreg Hvst Hobs) as [Hinv Hobs'].
  cbn zeta in Hinv, Hobs'. split; [exact Hobs'|].
  subst called w' changed isSmall sargs. rewrite Hinv.
  destruct (strict_neq (isViewportMatch (currentState vst) [VStr "< medium"])
              (isViewportMatch prev [VStr "< medium"])) eqn:Hch.
  - rewrite (changed_result_new_state isViewportMatch [VStr "< medium"]
               (currentState vst) prev) by done.
    cbn [andb].
    unfold Data.call_callback. unfold bind at 1. unfold modify at 1.
    rewrite Hcb. unfold EditPost.collapseSidebar. cbn [hd].
    destruct (truthy _); [|done].
    cbn [forEach]. unfold Data.exec. unfold bind at 1 2.
    unfold Data.dispatch at 1. unfold gets at 1.
    cbn [actions set_calls set_cells]. rewrite Hobj.
    unfold Data.call_action. rewrite Hclose.
    cbn [act_store act_creator Data.dispatchTo].
    unfold bind, ret. by destruct (Redux.dispatch _ _ _ _).
  - rewrite andb_false_r. done.
Qed.

(** X20.  The wiring at work, listeners and stores taken together.  The
    viewport store reduces an action while the subscription of the wiring is
    the one entry of the listener list.  The dispatch returns, two rounds of
    notification being the most it takes.  If the result of
    [isViewportMatch( '< medium' )] is the one of before, the callback is not
    called and the edit-post store is left alone.  If it is another, the
    callback is called once, with it; if it is truthy the edit-post store
    reduces [closeGeneralSidebar()] exactly once (the round of notification
    that this dispatch starts finds the result unchanged and calls nothing),
    if it is falsy the edit-post store is left alone.  The subscription is
    then ready for the next action in the same way. *)
Theorem X20_viewport_change_closes_the_sidebar_once
    (handlers : nat → list val → list cmd)
    (closeGeneralSidebar : list val → action)
    (isViewportMatch : val → list val → val)
    (fuel cb vstore estore c1 : nat) (w : World) (vst est : Store)
    (a : action) :
  (∀ args, handlers cb args = EditPost.collapseSidebar args) →
  vstore ≠ estore →
  heap w !! vstore = Some vst →
  currentListeners vst = [GlobalListener] →
  heap w !! estore = Some est →
  currentListeners est = [GlobalListener] →
  registered_selector w "core/viewport" "isViewportMatch" vstore
    isViewportMatch →
  (∃ obj, actions w !! "core/edit-post" = Some obj
          ∧ obj !! "closeGeneralSidebar"
            = Some {| act_store := Some estore;
                      act_creator := closeGeneralSidebar |}) →
  (∀ s args, isViewportMatch s args ≠ VNaN) →
  let sargs := [VStr "< medium"] in
  let l := WhenResult (S c1) "core/viewport" "isViewportMatch" sargs
             (WhenState c1 vstore (Callback cb)) in
  listeners w = [l] →
  Observed c1 (S c1) isViewportMatch sargs (currentState vst) w →
  let s' := currentReducer vst (currentState vst) a in
  let isSmall := isViewportMatch s' sargs in
  let changed := strict_neq isSmall
                   (isViewportMatch (currentState vst) sargs) in
  ∃ w',
    Redux.dispatch
        (Data.call_listener (Data.globalListener handlers (S (S fuel))))
        vstore a w = Ok a w'
    ∧ Redux.getState vstore w' = Ok s' w'
    ∧ Redux.getState estore w'
      = Ok (if changed && truthy isSmall
            then currentReducer est (currentState est) (closeGeneralSidebar [])
            else currentState est) w'
    ∧ calls w' = calls w ++ (if changed then [(cb, [isSmall])] else [])
    ∧ Observed c1 (S c1) isViewportMatch sargs s' w'
    ∧ listeners w' = [l]
    ∧ selectors w' = selectors w ∧ actions w' = actions w
    ∧ stores w' = stores w.
Proof.
  intros Hcb Hne Hvst Hvls Hest Hels Hreg Hact Hnan sargs l Hl Hobs s' isSmall
    changed.
  rewrite (dispatch_reaches_listener handlers (S fuel) vstore vst a w l [] [])
    by done.
  cbv zeta. cbn [forEach]. unfold bind at 1. unfold ret at 1.
  set (wr := reduced vstore vst a w).
  set (vst' := {| currentReducer := currentReducer vst; currentState := s';
                  currentListeners := currentListeners vst |}).
  assert (Hvst' : heap wr !! vstore = Some vst').
  { subst wr. unfold reduced. cbn [heap set_heap].
    rewrite list_lookup_insert_eq; [done|]. by eapply lookup_lt_Some. }
  assert (Hest' : heap wr !! estore = Some est).
  { subst wr. unfold reduced. cbn [heap set_heap].
    by rewrite list_lookup_insert_ne. }
  destruct (collapse_notification handlers
              (Data.globalListener handlers (S fuel)) closeGeneralSidebar
              isViewportMatch cb vstore estore c1 wr vst' (currentState vst)
              Hcb Hreg Hact Hnan Hvst' Hobs) as [Hobs1 Hinv1].
  cbn zeta in Hobs1, Hinv1. cbn [currentState vst'] in Hobs1, Hinv1.
  fold sargs isSmall changed in Hobs1, Hinv1. fold l in Hinv1.
  unfold bind at 1. rewrite Hinv1. clear Hinv1.
  set (w1 := set_cells _ wr) in *.
  destruct changed eqn:Hch; cbn [andb].
  2: { eexists. split; [reflexivity|].
       unfold Redux.getState. cbn [heap set_cells w1].
       rewrite Hvst', Hest'. rewrite app_nil_r.
       refine (conj _ (conj _ (conj _ (conj Hobs1 (conj Hl _)))));
         by repeat split. }
  set (w2 := set_calls (calls w1 ++ [(cb, [isSmall])]) w1) in *.
  destruct (truthy isSmall) eqn:Htr.
  2: { eexists. split; [reflexivity|].
       unfold Redux.getState. cbn [heap set_cells set_calls w1 w2].
       rewrite Hvst', Hest'.
       refine (conj _ (conj _ (conj _ (conj Hobs1 (conj Hl _)))));
         by repeat split. }
  assert (Hest2 : heap w2 !! estore = Some est) by exact Hest'.
  assert (Hl2 : listeners w2 = [] ++ l :: []) by exact Hl.
  unfold bind at 1.
  rewrite (dispatch_reaches_listener handlers fuel estore est
             (closeGeneralSidebar []) w2 l [] []) by done.
  cbv zeta. cbn [forEach]. unfold bind at 1. unfold ret at 1.
  set (w3 := reduced estore est (closeGeneralSidebar []) w2).
  assert (Hvst3 : heap w3 !! vstore = Some vst').
  { subst w3. unfold reduced. cbn [heap set_heap set_calls w2 set_cells w1].
    by rewrite list_lookup_insert_ne. }
  assert (Hobs3 : Observed c1 (S c1) isViewportMatch sargs s' w3)
    by exact Hobs1.
  destruct (collapse_notification handlers (Data.globalListener handlers fuel)
              closeGeneralSidebar isViewportMatch cb vstore estore c1 w3 vst'
              s' Hcb Hreg Hact Hnan Hvst3 Hobs3) as [Hobs4 Hinv4].
  cbn zeta in Hobs4, Hinv4. cbn [currentState vst'] in Hobs4, Hinv4.
  fold sargs isSmall in Hobs4, Hinv4. fold l in Hinv4.
  assert (Hsame : strict_neq isSmall isSmall = false).
  { unfold strict_neq. rewrite strict_eq_refl; [done|apply Hnan]. }
  rewrite Hsame in Hobs4, Hinv4.
  unfold bind at 1. rewrite Hinv4. clear Hinv4.
  eexists. split; [reflexivity|].
  unfold Redux.getState.
  cbn [heap set_cells set_calls set_heap reduced w3 w2 w1 wr calls listeners
       selectors actions stores].
  rewrite list_lookup_insert_ne by done.
  rewrite list_lookup_insert_eq by by eapply lookup_lt_Some.
  rewrite list_lookup_insert_eq
    by (rewrite length_insert; by eapply lookup_lt_Some).
  refine (conj _ (conj _ (conj _ (conj Hobs4 (conj Hl _)))));
    by repeat split.
Qed.

Lemma X20_viewport_change_closes_the_sidebar_once_witness :
  ∃ w',
    Redux.dispatch
        (Data.call_listener
           (Data.globalListener (λ _ args, EditPost.collapseSidebar args) 2))
        0 inc wired_world = Ok inc w'
    ∧ Redux.getState 0 w' = Ok (VNum 6) w'
    ∧ Redux.getState 1 w' = Ok (VNum 1) w'
    ∧ calls w' = [(7, [VBool true])].
Proof.
  destruct (X20_viewport_change_closes_the_sidebar_once
              (λ _ args, EditPost.collapseSidebar args) (λ _, inc) isBig
              0 7 0 1 0 wired_world
              {| currentReducer := counter; currentState := VNum 5;
                 currentListeners := [GlobalListener] |}
              {| currentReducer := counter; currentState := VNum 0;
                 currentListeners := [GlobalListener] |} inc)
    as (w' & H1 & H2 & H3 & H4 & _).
  - reflexivity.
  - discriminate.
  - reflexivity.
  - reflexivity.
  - reflexivity.
  - reflexivity.
  - eexists. split; reflexivity.
  - eexists. split; reflexivity.
  - intros s args. unfold isBig. destruct s; discriminate.
  - reflexivity.
  - split; [reflexivity|]. exists (VNum 5). split; [reflexivity | by left].
  - exists w'. split; [exact H1|]. split; [exact H2|].
    split; [exact H3|exact H4].
Defined.

(** ** Dispatching from a listener *)

(** X21.  Nothing guards against a listener that dispatches.  When the
    first entry of the listener list is a listener subscribed without a
    reducer key that, at every call, first of all dispatches to a
    registered store, a dispatch to that store never completes: every round
    of notification starts the next one before it gets to its second
    listener, and no bound on the nesting is enough.  (The wiring's listener
    dispatches too, but only on a changed result, and its second round finds
    none.) *)
Theorem X21_listener_that_always_dispatches
    (handlers : nat → list val → list cmd) (cb store : nat)
    (next : list val → action) (more : list val → list cmd)
    (fuel : nat) (w : World) (st : Store) (a : action)
    (rest : list Listener) :
  (∀ args, handlers cb args = StoreDispatch store (next args) :: more args) →
  heap w !! store = Some st →
  currentListeners st = [GlobalListener] →
  listeners w = Callback cb :: rest →
  Redux.dispatch (Data.call_listener (Data.globalListener handlers fuel))
      store a w = OutOfFuel.
Proof.
  intros Hcb. revert w st a.
  induction fuel as [|fuel IH]; intros w st a Hst Hls Hl.
  - rewrite (Redux_dispatch_eq _ _ st) by done. rewrite Hls. done.
  - rewrite (Redux_dispatch_eq _ _ st) by done. rewrite Hls.
    cbn [forEach Data.call_listener Data.globalListener].
    unfold Data.globalListener_body. unfold bind at 1 2 3. unfold gets at 1.
    change (listeners (reduced store st a w)) with (listeners w). rewrite Hl.
    cbn [forEach Data.invoke]. unfold bind at 1.
    unfold Data.call_callback. unfold bind at 1. unfold modify at 1.
    rewrite Hcb. cbn [forEach Data.exec]. unfold bind at 1 2.
    set (w1 := set_calls _ _).
    assert (Hst1 : heap w1 !! store
                   = Some {| currentReducer := currentReducer st;
                             currentState := currentReducer st
                                               (currentState st) a;
                             currentListeners := currentListeners st |}).
    { subst w1. unfold reduced. cbn [heap set_calls set_heap].
      rewrite list_lookup_insert_eq; [done|]. by eapply lookup_lt_Some. }
    by rewrite (IH w1 _ (next []) Hst1 Hls Hl).
Qed.

Lemma X21_listener_that_always_dispatches_witness :
  Redux.dispatch
      (Data.call_listener
         (Data.globalListener (λ _ _, [StoreDispatch 0 inc]) 40)) 0 inc
      (set_listeners [Callback 1] (one_counter "a" 0))
    = OutOfFuel.
Proof.
  apply (X21_listener_that_always_dispatches (λ _ _, [StoreDispatch 0 inc])
           1 0 (λ _, inc) (λ _, []) 40
           (set_listeners [Callback 1] (one_counter "a" 0))
           {| currentReducer := counter; currentState := VNum 0;
              currentListeners := [GlobalListener] |} inc []);
    reflexivity.
Defined.
